(** * SEEG_Timing: the [Dan] training and evaluation driver

  A shallow embedding of [mymodel/run_model.py].  The class [Dan] wraps a
  network built by [model_util.DAN]; the network, its loss modules, the data
  loaders and the metric helper [IndicatorCalculation] are collaborators
  that live outside this file, so they appear here as the fields of a class.
  What is embedded is the bookkeeping the driver itself performs: paths of
  checkpoint files, the checkpoint policy of [train], the validation
  schedule, the loss blend, the per-length statistics and the evaluation
  dictionary.

  Conventions.
  - Python floats are read as the rationals they denote ([Q]); comparisons
    are exact, arithmetic is the ideal one (rounding is not modelled).
  - Exceptions are values of [exn].  A method is a computation in the
    monad [M]: it takes the state (the [Dan] object and the outside world)
    and gives a result or an exception together with the state it leaves,
    so what was printed or written before an exception is still there.
  - [print], [torch.save], [np.save], [loss.backward()] leave an [event]
    in the trace of the world, in program order.
  - The world maps a path to what it holds, a directory or a file.  The
    text files are opened as the library opens them: [open] and [to_csv]
    fail when the directory part of the path is not a directory, or when
    the path is one.  [torch.save], [np.save] and the pictures are taken to
    succeed: the checkpoint directory, the attention directory and the
    disk are assumed to be in order. *)

From Stdlib Require Import ZArith QArith Lia List String Ascii.
From stdpp Require Import base list strings gmap.

Local Open Scope Z_scope.
Local Open Scope string_scope.
Local Open Scope list_scope.

(** ** Python exceptions and results *)

Inductive exn : Type :=
  | ZeroDivisionError
  | TypeError
  | IndexError
  | KeyError
  | ValueError
  | AttributeError
  | FileNotFoundError
  | UnpicklingError
  | NotADirectoryError
  | IsADirectoryError
  | OSError.

Inductive res (A : Type) : Type :=
  | Ok (a : A)
  | Raise (e : exn).
Arguments Ok {A} a.
Arguments Raise {A} e.

Definition res_bind {A B : Type} (r : res A) (k : A → res B) : res B :=
  match r with
  | Ok a => k a
  | Raise e => Raise e
  end.

Definition is_ok {A : Type} (r : res A) : bool :=
  match r with Ok _ => true | Raise _ => false end.

(** ** Strings: [str.format], [os.path.join] *)

Module Str.

Definition brace_l : ascii := "{"%char.
Definition brace_r : ascii := "}"%char.
Definition sep : ascii := "/"%char.

(** [str.format] for templates whose replacement fields are all
    the automatic field [{}] (the only kind the path templates use).
    Doubled braces are the escapes; a field that is not [{}] is outside the
    fragment and is reported as [ValueError].  Arguments are inserted as
    they are: they are not scanned again. *)
Fixpoint format (t : string) (args : list string) : res string :=
  match t with
  | EmptyString => Ok EmptyString
  | String c t1 =>
      if Ascii.eqb c brace_l then
        match t1 with
        | String d t2 =>
            if Ascii.eqb d brace_r then
              match args with
              | [] => Raise IndexError
              | a :: args' => res_bind (format t2 args') (λ r, Ok (a +:+ r))
              end
            else if Ascii.eqb d brace_l then
              res_bind (format t2 args) (λ r, Ok (String brace_l r))
            else Raise ValueError
        | EmptyString => Raise ValueError
        end
      else if Ascii.eqb c brace_r then
        match t1 with
        | String d t2 =>
            if Ascii.eqb d brace_r then
              res_bind (format t2 args) (λ r, Ok (String brace_r r))
            else Raise ValueError
        | EmptyString => Raise ValueError
        end
      else res_bind (format t1 args) (λ r, Ok (String c r))
  end.

Definition startswith_sep (s : string) : bool :=
  match s with
  | String c _ => Ascii.eqb c sep
  | EmptyString => false
  end.

Fixpoint endswith_sep (s : string) : bool :=
  match s with
  | EmptyString => false
  | String c EmptyString => Ascii.eqb c sep
  | String _ s' => endswith_sep s'
  end.

Definition is_empty (s : string) : bool :=
  match s with EmptyString => true | _ => false end.

Definition all_sep (s : list ascii) : bool := forallb (λ c, Ascii.eqb c sep) s.

(** [s.rstrip('/')] on the characters of [s] in reverse order. *)
Fixpoint lstrip_sep (r : list ascii) : list ascii :=
  match r with
  | c :: r' => if Ascii.eqb c sep then lstrip_sep r' else r
  | [] => []
  end.

(** What is left of the reversed path from its first separator on:
    [p[:p.rfind('/') + 1]], reversed. *)
Fixpoint from_sep (r : list ascii) : list ascii :=
  match r with
  | c :: r' => if Ascii.eqb c sep then r else from_sep r'
  | [] => []
  end.

(** [os.path.dirname(p)] of [posixpath]. *)
Definition dirname (p : string) : string :=
  let head := from_sep (rev (list_ascii_of_string p)) in
  if negb (all_sep head) then string_of_list_ascii (rev (lstrip_sep head))
  else string_of_list_ascii (rev head).

(** [os.path.join(a, b)] of [posixpath]. *)
Definition join (a b : string) : string :=
  if startswith_sep b then b
  else if is_empty a || endswith_sep a then a +:+ b
  else a +:+ String sep b.

End Str.

(** ** Numbers: [sum], [/], [len] *)

Module Num.

Local Open Scope Q_scope.

(** [sum(xs)] starts from the integer 0 and adds from the left. *)
Definition sumZ (xs : list Z) : Z := fold_left Z.add xs 0%Z.
Definition sumQ (xs : list Q) : Q := fold_left Qplus xs 0.

(** [a / n] with [n] an [int]: true division. *)
Definition truediv (a : Q) (n : Z) : res Q :=
  if (n =? 0)%Z then Raise ZeroDivisionError else Ok (a / inject_Z n).

(** [sum(xs) / len(xs)] for a list of 0/1 marks and for a list of losses. *)
Definition averageZ (xs : list Z) : res Q :=
  truediv (inject_Z (sumZ xs)) (Z.of_nat (length xs)).
Definition averageQ (xs : list Q) : res Q :=
  truediv (sumQ xs) (Z.of_nat (length xs)).

(** [x > y] on floats. *)
Definition gt (x y : Q) : bool := negb (Qle_bool x y).

(** [[f(x) for x in xs]] where [f] may raise. *)
Fixpoint mapM {A B : Type} (f : A → res B) (xs : list A) : res (list B) :=
  match xs with
  | [] => Ok []
  | x :: xs' => res_bind (f x) (λ b, res_bind (mapM f xs') (λ bs, Ok (b :: bs)))
  end.

(** The values [len] may be applied to in this file. *)
Inductive value : Type :=
  | VFloat (x : Q)
  | VInts (xs : list Z)
  | VBatches (n : nat).

(** [len(v)]: a float has no length. *)
Definition len (v : value) : res Z :=
  match v with
  | VFloat _ => Raise TypeError
  | VInts xs => Ok (Z.of_nat (length xs))
  | VBatches n => Ok (Z.of_nat n)
  end.

(** [xs[i]] on a sequence. *)
Definition index {A : Type} (xs : list A) (i : nat) : res A :=
  match xs !! i with
  | Some x => Ok x
  | None => Raise IndexError
  end.

(** [[1 if pre[i] == y[i] else 0 for i in range(len(y))]] *)
Fixpoint marks_from (i : nat) (pre : list Z) (y : list Z) : res (list Z) :=
  match y with
  | [] => Ok []
  | yi :: y' =>
      res_bind (index pre i) (λ p,
      res_bind (marks_from (S i) pre y') (λ r,
        Ok ((if (p =? yi)%Z then 1%Z else 0%Z) :: r)))
  end.
Definition marks (pre y : list Z) : res (list Z) := marks_from 0 pre y.

End Num.

(** ** State and exceptions *)

Section Monad.

Context {S : Type}.

Definition M (A : Type) : Type := S → res A * S.

Definition ret {A : Type} (a : A) : M A := λ s, (Ok a, s).

Definition bind {A B : Type} (m : M A) (k : A → M B) : M B :=
  λ s, match m s with
       | (Ok a, s') => k a s'
       | (Raise e, s') => (Raise e, s')
       end.

Definition lift {A : Type} (r : res A) : M A := λ s, (r, s).

Definition gets {A : Type} (f : S → A) : M A := λ s, (Ok (f s), s).

Definition modify (f : S → S) : M unit := λ s, (Ok tt, f s).

(** A [for] loop that carries its local variables along. *)
Fixpoint foldM {A L : Type} (body : L → A → M L) (xs : list A) (l : L) : M L :=
  match xs with
  | [] => ret l
  | x :: xs' => bind (body l x) (foldM body xs')
  end.

Lemma foldM_app {A L : Type} (body : L → A → M L) (xs ys : list A) (l : L) (s : S) :
  foldM body (xs ++ ys) l s = bind (foldM body xs l) (foldM body ys) s.
Proof.
  revert l s. induction xs as [|x xs IH]; intros l s; simpl.
  - reflexivity.
  - unfold bind in *. destruct (body l x s) as [[l'|e] s']; [apply IH | reflexivity].
Qed.

End Monad.

Arguments M : clear implicits.

Notation "'let!' x ':=' c 'in' k" := (bind c (λ x, k))
  (at level 10, x name, c at level 100, k at level 200, only parsing).
Notation "c ';;' k" := (bind c (λ _, k))
  (at level 100, k at level 200, right associativity, only parsing).

(** [enumerate(xs)] *)
Definition enumerate {A : Type} (xs : list A) : list (nat * A) :=
  zip (seq 0 (length xs)) xs.

(** ** The collaborators: carriers *)

(** The types of the objects the driver receives from its collaborators:
  the network ([model_util.DAN]) and what [torch.save] stores of it; a batch
  of a [MyData] loader and a batch of the single-file loader; the label
  output of a forward pass, the three domain outputs that go to the
  contrastive loss, and one sample of the attention tensor. *)
Class Carriers : Type := {
  Net : Type;
  StateDict : Type;
  Batch : Type;
  RBatch : Type;
  Logits : Type;
  DomOut : Type;
  Slice : Type
}.

(** ** The outside world: files and the trace *)

Section World.

Context `{Carriers}.

(** What the network returns in training mode. *)
Record Fwd : Type := mkFwd {
  label_output : Logits;
  domain_output : DomOut;
  fwd_loss_vae : Q
}.

(** What is printed or logged.  Lines that only carry a path are strings;
    lines that format floats keep their fields; [Stamped line time] is a
    line followed by a tab, the time stamp and a newline. *)
Inductive message : Type :=
  | Line (s : string)
  | TrainReport (epoch step : nat)
      (loss_avg test_loss_avg accuracy_avg test_accuracy_avg : Q)
  | TestSummary (enc lcn pat : string) (size : nat)
      (loss_avg accuracy precision recall f1score auc : Q)
  | RealSummary (enc lcn pat : string) (size : Z) (accuracy : Z)
  | AttSummary (enc : string) (size : nat) (loss_avg accuracy_avg : Q)
  | StatFrame (rows : list (Z * Q * Q))
  | Stamped (line : message) (time : string).

Inductive file : Type :=
  | Dir
  | Pickle (sd : StateDict)
  | Npy (data : Slice)
  | Log (lines : list (message * string))
  | Csv (rows : list (string * Z * Z))
  | StatCsv (rows : list (Z * Q * Q))
  | Appended (old : file) (lines : list (message * string)).

(** What a run does besides leaving files, in program order. *)
Inductive event : Type :=
  | Print (m : message)
  | Forward (no_grad : bool) (b : Batch) (out : Fwd)
  | Backward (loss_total : Q)
  | TorchSave (path : string) (sd : StateDict)
  | NpSave (path : string) (data : Slice)
  | Plot (save_path model_info : string) (curves : list (string * list Q)).

Record World : Type := mkWorld {
  fs : gmap string file;
  trace : list event
}.

(** The attributes of a [Dan] object that the methods below read or write.
    [result] is created by [test]; before that the attribute is missing. *)
Record Dan : Type := mkDan {
  patient : string;
  epoch : nat;
  batch_size : nat;
  gpu : Z;
  encoder_name : string;
  label_classifier_name : string;
  model : Net;
  result : option (list (Z * list Z))
}.

Record state : Type := mkState {
  self : Dan;
  world : World
}.

End World.

(** ** The collaborators: operations *)

(** What the driver calls and does not define.
  - [torch]: [state_dict], [load_state_dict]; the network in training mode
    ([forward]), in test mode ([forward_test]), built with [att=True]
    ([forward_att], the label output only: the attention tensor is given
    apart so that it can vary) and on a single file ([forward_real], the
    call [self.model(x, y, None, data_length)]); the two loss modules;
    [torch.max(_, 1)[1]] ([argmax1]); [torch.softmax(_, dim=1)[:, 1]]
    ([softmax1]); one update of the optimizer ([zero_grad], [backward],
    [step]) for the loss that is back-propagated.
  - the data: what the driver reads in a batch (label tensor, length
    tensor, identifiers, start times); the batches the training loader
    yields in an epoch; the batches
    [next(mydata.next_batch_val_data(transform=None))] yields at a
    validation point; the test and attention loaders;
    [single_file_loader file_path label data_length config_path patient]
    for the lines of [prediction_real_data] that read the configuration and
    the recording and cut it into segments.
  - [numpy]: [np.mean], [np.std].
  - [util.util_file.IndicatorCalculation(prey, y)] and its methods;
    [get_auc] is also given the probabilities and the labels again.
  - [time.strftime] of the moment of the call. *)
Class Collaborators `{Carriers} : Type := {
  state_dict : Net → StateDict;
  load_state_dict : Net → StateDict → Net;
  forward : Net → Batch → Fwd;
  forward_test : Net → Batch → Logits;
  forward_att : Net → Batch → Logits;
  forward_real : Net → RBatch → Z → Logits;
  loss_func : Logits → list Z → Q;
  loss_func_domain : DomOut → Q;
  argmax1 : Logits → list Z;
  softmax1 : Logits → list Q;
  optimizer_step : Net → Batch → Q → Net;
  labels : Batch → list Z;
  lengths : Batch → list Z;
  ids : Batch → list string;
  times : RBatch → list string;
  train_data_loader : nat → list Batch;
  next_batch_val_data : nat → nat → list Batch;
  test_data_loader : list Batch;
  att_data_loader : list Batch;
  single_file_loader : string → string → Z → string → string → res (list RBatch);
  np_mean : list Q → Q;
  np_std : list Q → Q;
  get_accuracy : list Z → list Z → res Q;
  get_precision : list Z → list Z → res Q;
  get_recall : list Z → list Z → res Q;
  get_f1score : list Z → list Z → res Q;
  get_auc : list Z → list Z → list Q → list Z → res Q;
  time_stamp : string
}.

Section Driver.

Context `{Collaborators}.

(** Updates of the state. *)
Definition with_model (m : Net) (s : state) : state :=
  let d := self s in
  mkState (mkDan (patient d) (epoch d) (batch_size d) (gpu d) (encoder_name d)
                 (label_classifier_name d) m (result d)) (world s).

Definition with_result (r : list (Z * list Z)) (s : state) : state :=
  let d := self s in
  mkState (mkDan (patient d) (epoch d) (batch_size d) (gpu d) (encoder_name d)
                 (label_classifier_name d) (model d) (Some r)) (world s).

Definition with_event (e : event) (s : state) : state :=
  mkState (self s) (mkWorld (fs (world s)) (trace (world s) ++ [e])).

Definition with_file (p : string) (f : file) (s : state) : state :=
  mkState (self s) (mkWorld (<[p := f]> (fs (world s))) (trace (world s))).

Definition set_model (m : Net) : M state unit := modify (with_model m).
Definition set_result (r : list (Z * list Z)) : M state unit := modify (with_result r).
Definition emit (e : event) : M state unit := modify (with_event e).
Definition write_file (p : string) (f : file) : M state unit := modify (with_file p f).

Definition print (m : message) : M state unit := emit (Print m).

(** [os.path.exists(p)] *)
Definition exists_path (p : string) : M state bool :=
  gets (λ s, bool_decide (is_Some (fs (world s) !! p))).

(** [os.mkdir(p)] where the path was just seen not to exist. *)
Definition mkdir (p : string) : M state unit :=
  if Str.is_empty p then lift (Raise FileNotFoundError) else write_file p Dir.

(** Whether the directory part of [path] names a directory.  The current
    directory and its parent are always there. *)
Definition in_dir (path : string) (s : state) : bool :=
  let d := Str.dirname path in
  String.eqb d "" || String.eqb d "." || String.eqb d ".."
  || match fs (world s) !! d with Some Dir => true | _ => false end.

(** [open(path, 'w')] where nothing is at [path] and [open(path, 'a')]
    otherwise: what the file holds, if it is there. *)
Definition open_text (path : string) : M state (option file) :=
  let! s := gets (λ s, s) in
  if in_dir path s then
    match fs (world s) !! path with
    | Some Dir => lift (Raise IsADirectoryError)
    | f => ret f
    end
  else
    match fs (world s) !! Str.dirname path with
    | Some _ => lift (Raise NotADirectoryError)
    | None => lift (Raise FileNotFoundError)
    end.

(** A text file after one more line was written at its end: a file that was
    not a log keeps what it held, before the lines. *)
Definition append_line (f : option file) (l : message * string) : file :=
  match f with
  | None => Log [l]
  | Some (Log ls) => Log (ls ++ [l])
  | Some (Appended g ls) => Appended g (ls ++ [l])
  | Some g => Appended g [l]
  end.

(** [dataframe.to_csv(path)]: [pandas] refuses a path whose directory is
    not there with [OSError]; otherwise the file is written anew. *)
Definition to_csv (path : string) (f : file) : M state unit :=
  let! s := gets (λ s, s) in
  if in_dir path s then
    match fs (world s) !! path with
    | Some Dir => lift (Raise IsADirectoryError)
    | _ => write_file path f
    end
  else lift (Raise OSError).

Definition is_vae (d : Dan) : bool := String.eqb (encoder_name d) "vae".

(** ** [save_mode] and [load_model] *)

Definition default_save_path : string := "../save_model".
Definition default_model_path : string := "../save_model/DAN_encoder_{}_{}_{}.pkl".

Definition save_full_path (d : Dan) (save_path : string) : res string :=
  res_bind
    (Str.format "DAN_encoder_{}_{}_{}.pkl"
       [encoder_name d; label_classifier_name d; patient d])
    (λ name, Ok (Str.join save_path name)).

Definition load_full_path (d : Dan) (model_path : string) : res string :=
  Str.format model_path [encoder_name d; label_classifier_name d; patient d].

Definition save_mode (save_path : string) : M state unit :=
  let! there := exists_path save_path in
  (if there : bool then ret tt else mkdir save_path) ;;
  let! d := gets self in
  let! save_full := lift (save_full_path d save_path) in
  write_file save_full (Pickle (state_dict (model d))) ;;
  emit (TorchSave save_full (state_dict (model d))) ;;
  let! msg := lift (Str.format "Saving Model DAN in {}......" [save_full]) in
  print (Line msg).

(** [torch.load(p)] *)
Definition torch_load (p : string) : M state StateDict :=
  let! f := gets (λ s, fs (world s) !! p) in
  match f with
  | Some (Pickle sd) => ret sd
  | _ => lift (Raise UnpicklingError)
  end.

Definition load_model (model_path : string) : M state unit :=
  let! d := gets self in
  let! model_path := lift (load_full_path d model_path) in
  let! there := exists_path model_path in
  if there : bool then
    let! sd := torch_load model_path in
    set_model (load_state_dict (model d) sd) ;;
    let! msg := lift (Str.format "Loading Mode DAN from {}" [model_path]) in
    print (Line msg)
  else
    let! msg := lift (Str.format "Model is not exist in {}" [model_path]) in
    print (Line msg).

(** The path both methods compute with their default argument. *)
Definition checkpoint_path (d : Dan) : string :=
  "../save_model/DAN_encoder_" +:+ encoder_name d +:+ "_" +:+
  label_classifier_name d +:+ "_" +:+ patient d +:+ ".pkl".

(** ** [log_write] *)

Definition default_log_path : string := "../log/log.txt".

Definition log_write (result_ : message) (path : string) : M state unit :=
  let dir_name := Str.dirname path in
  let! there := exists_path dir_name in
  (if there : bool then ret tt else mkdir dir_name) ;;
  let! f := open_text path in
  print (Stamped result_ time_stamp) ;;
  write_file path (append_line f (result_, time_stamp)) ;;
  print (Line "Generating log!").

(** ** [train] *)

(** The series kept for the two plots. *)
Record Curves : Type := mkCurves {
  acc_vi : list Q;
  loss_vi : list Q;
  loss_prediction_vi : list Q;
  loss_domain_vi : list Q;
  loss_vae_vi : list Q
}.

(** The losses bound by the last forward pass. *)
Record Losses : Type := mkLosses {
  loss_label : Q;
  loss_domain : Q;
  loss_vae : Q;
  loss_total : Q
}.

(** The local variables of [train] that live across iterations. *)
Record Locals : Type := mkLocals {
  acc : list Z;
  loss : list Q;
  train_vi : Curves;
  test_vi : Curves;
  last_test_accuracy : Q
}.

Definition empty_curves : Curves := mkCurves [] [] [] [] [].

Definition init_locals : Locals := mkLocals [] [] empty_curves empty_curves 0%Q.

(** The loss of a training batch and the loss of a validation batch. *)
Definition train_blend (vae : bool) (l d v : Q) : Q :=
  if vae then ((l + d + v) / 3)%Q else ((4 # 10) * l + (6 # 10) * d)%Q.

Definition val_blend (vae : bool) (l d v : Q) : Q :=
  if vae then ((l + d + v) / 3)%Q else ((l + d) / 2)%Q.

Definition losses_of (blend : bool → Q → Q → Q → Q) (vae : bool) (b : Batch) (o : Fwd) : Losses :=
  let l := loss_func (label_output o) (labels b) in
  let d := loss_func_domain (domain_output o) in
  mkLosses l d (fwd_loss_vae o) (blend vae l d (fwd_loss_vae o)).

(** The appends to the plot series; [acc_vi] is appended later. *)
Definition record_losses (vae : bool) (ls : Losses) (c : Curves) : Curves :=
  mkCurves (acc_vi c)
           (loss_vi c ++ [loss_total ls])
           (loss_prediction_vi c ++ [loss_label ls])
           (loss_domain_vi c ++ [loss_domain ls])
           (if vae then loss_vae_vi c ++ [loss_vae ls] else loss_vae_vi c).

Definition record_acc (a : Q) (c : Curves) : Curves :=
  mkCurves (acc_vi c ++ [a]) (loss_vi c) (loss_prediction_vi c)
           (loss_domain_vi c) (loss_vae_vi c).

(** One batch of the validation loop. *)
Definition val_batch (vae : bool)
    (l : list Z * list Q * Losses) (b_test : Batch) : M state (list Z * list Q * Losses) :=
  let '(acc_test, test_loss, _) := l in
  let! d := gets self in
  let o := forward (model d) b_test in
  emit (Forward true b_test o) ;;
  let ls := losses_of val_blend vae b_test o in
  let! hit := lift (Num.marks (argmax1 (label_output o)) (labels b_test)) in
  ret (acc_test ++ hit, test_loss ++ [loss_total ls], ls).

(** The checkpoint policy at a validation point: the new value of
    [last_test_accuracy] and whether [save_mode] is called. *)
Definition checkpoint (last test_accuracy_avg : Q) : Q * bool :=
  let last := if Qeq_bool last 1 then 0%Q else last in
  if Qle_bool last test_accuracy_avg then (test_accuracy_avg, true) else (last, false).

(** The body of [if step % 50 == 0]. *)
Definition validate (vae : bool) (ep step : nat) (ls : Losses) (l : Locals) : M state Locals :=
  let tr := record_losses vae ls (train_vi l) in
  let! r := foldM (val_batch vae) (next_batch_val_data ep step) ([], [], ls) in
  let '(acc_test, test_loss, ls_test) := r in
  let te := record_losses vae ls_test (test_vi l) in
  let! test_accuracy_avg := lift (Num.averageZ acc_test) in
  let! test_loss_avg := lift (Num.averageQ test_loss) in
  let! loss_avg := lift (Num.averageQ (loss l)) in
  let! accuracy_avg := lift (Num.averageZ (acc l)) in
  let tr := record_acc accuracy_avg tr in
  let te := record_acc test_accuracy_avg te in
  print (TrainReport ep step loss_avg test_loss_avg accuracy_avg test_accuracy_avg) ;;
  let '(last, save) := checkpoint (last_test_accuracy l) test_accuracy_avg in
  (if save : bool then save_mode default_save_path else ret tt) ;;
  ret (mkLocals [] [] tr te last).

(** The body of the loop over the training batches. *)
Definition train_step (ep : nat) (l : Locals) (sb : nat * Batch) : M state Locals :=
  let '(step, b) := sb in
  let! d := gets self in
  let vae := is_vae d in
  let o := forward (model d) b in
  emit (Forward false b o) ;;
  let ls := losses_of train_blend vae b o in
  emit (Backward (loss_total ls)) ;;
  set_model (optimizer_step (model d) b (loss_total ls)) ;;
  let! hit := lift (Num.marks (argmax1 (label_output o)) (labels b)) in
  let l := mkLocals (acc l ++ hit) (loss l ++ [loss_total ls])
                    (train_vi l) (test_vi l) (last_test_accuracy l) in
  if (step mod 50 =? 0)%nat then validate vae ep step ls l else ret l.

Definition train_epoch (l : Locals) (ep : nat) : M state Locals :=
  foldM (train_step ep) (enumerate (train_data_loader ep)) l.

Definition curves_of (vae : bool) (c : Curves) : list (string * list Q) :=
  [("Loss of label classifier", loss_prediction_vi c);
   ("Loss of domain discriminator", loss_domain_vi c)]
  ++ (if vae then [("Loss of VAEs", loss_vae_vi c)] else [])
  ++ [("Total loss", loss_vi c); ("Accuracy", acc_vi c)].

(** [draw_loss_plt]: the figure is a matter of [matplotlib]; what is kept
    is which series are drawn and where the picture goes. *)
Definition draw_loss_plt (vae : bool) (c : Curves) (save_path model_info : string) : M state unit :=
  emit (Plot save_path model_info (curves_of vae c)) ;;
  print (Line "The Picture has been saved.").

Definition train : M state unit :=
  let! d := gets self in
  let! l := foldM train_epoch (seq 0 (epoch d)) init_locals in
  let vae := is_vae d in
  let! p1 := lift (Str.format "./draw/train_loss_{}.png" [encoder_name d]) in
  draw_loss_plt vae (train_vi l) p1 "training information" ;;
  let! p2 := lift (Str.format "./draw/test_loss_{}.png" [encoder_name d]) in
  draw_loss_plt vae (test_vi l) p2 "validation information".

(** ** [segment_statistic] and [save_segment_statistic_info] *)

(** [d[k] += [v]] on a [defaultdict(list)]: a dictionary keeps its keys in
    the order in which they were first set. *)
Fixpoint dict_iadd (k : Z) (v : Z) (d : list (Z * list Z)) : list (Z * list Z) :=
  match d with
  | [] => [(k, [v])]
  | (k', p) :: d' =>
      if (k =? k')%Z then (k', p ++ [v]) :: d' else (k', p) :: dict_iadd k v d'
  end.

Fixpoint dict_get (k : Z) (d : list (Z * list Z)) : option (list Z) :=
  match d with
  | [] => None
  | (k', p) :: d' => if (k =? k')%Z then Some p else dict_get k d'
  end.

Definition segment_statistic_at (prey y length_ : list Z) (_ : unit) (i : nat) : M state unit :=
  let! p := lift (Num.index prey i) in
  let! yi := lift (Num.index y i) in
  let! r := gets (λ s, result (self s)) in
  match r with
  | None => lift (Raise AttributeError)
  | Some d =>
      let! li := lift (Num.index length_ i) in
      set_result (dict_iadd (li / 500) (if (p =? yi)%Z then 1 else 0) d)
  end.

Definition segment_statistic (prey y length_ : list Z) : M state unit :=
  foldM (segment_statistic_at prey y length_) (seq 0 (length prey)) tt.

(** The five groups of a bucket: [p[j * batch_size:(j + 1) * batch_size]]. *)
Definition group (p : list Z) (j : nat) : list Z :=
  let batch_size := (length p / 5)%nat in
  take batch_size (drop (j * batch_size) p).

(** [acc_ep] for one bucket. *)
Definition acc_ep (p : list Z) : res (list Q) :=
  Num.mapM (λ j, Num.averageZ (group p j)) (seq 0 5).

Definition stat_row (lp : Z * list Z) : res (Z * Q * Q) :=
  res_bind (acc_ep (snd lp)) (λ a, Ok (fst lp, np_mean a, np_std a)).

Definition save_segment_statistic_info : M state unit :=
  let! r := gets (λ s, result (self s)) in
  match r with
  | None => lift (Raise AttributeError)
  | Some d =>
      let! rows := lift (Num.mapM stat_row d) in
      let! dd := gets self in
      let! path := lift (Str.format "../log/segment_statistic_{}_{}.csv"
                           [encoder_name dd; label_classifier_name dd]) in
      to_csv path (StatCsv rows) ;;
      print (StatFrame rows)
  end.

(** ** [evaluation] *)

Definition evaluation (probability : list Q) (y : list Z) : res (gmap string Q) :=
  let result_ : gmap string Q :=
    <["auc" := 0%Q]> (<["f1score" := 0%Q]> (<["recall" := 0%Q]>
      (<["precision" := 0%Q]> (<["accuracy" := 0%Q]> ∅)))) in
  let prey := map (λ x, if Num.gt x (1 # 2) then 1 else 0) probability in
  res_bind (get_accuracy prey y) (λ a,
  let result_ := <["accuracy" := a]> result_ in
  res_bind (get_precision prey y) (λ p,
  let result_ := <["precision" := p]> result_ in
  res_bind (get_recall prey y) (λ r,
  let result_ := <["recall" := r]> result_ in
  res_bind (get_f1score prey y) (λ f,
  let result_ := <["f1score" := f]> result_ in
  res_bind (get_auc prey y probability y) (λ u,
  let result_ := <["auc" := u]> result_ in
  Ok result_))))).

(** [result[key]] *)
Definition getitem (result_ : gmap string Q) (key : string) : res Q :=
  match result_ !! key with
  | Some v => Ok v
  | None => Raise KeyError
  end.

(** ** [test] *)

Record TestLocals : Type := mkTestLocals {
  t_acc : list Z;
  t_loss : list Q;
  ids_list : list string;
  grand_true : list Z;
  prediction : list Z;
  probability : list Q
}.

(** [pd.DataFrame(data)] needs columns of one length. *)
Definition frame3 (a : list string) (b c : list Z) : res (list (string * Z * Z)) :=
  if (length a =? length b)%nat && (length b =? length c)%nat
  then Ok (zip (zip a b) c) else Raise ValueError.

Definition save_all_input_prediction_result
    (ids_l : list string) (truth pred : list Z) (save_path : string) : M state unit :=
  let! rows := lift (frame3 ids_l truth pred) in
  to_csv save_path (Csv rows) ;;
  print (Line "Saving success!").

Definition test_batch (l : TestLocals) (b : Batch) : M state TestLocals :=
  let! d := gets self in
  let out := forward_test (model d) b in
  let loss_total_ := loss_func out (labels b) in
  let prey := argmax1 out in
  let y := labels b in
  let! hit := lift (Num.marks prey y) in
  let l := mkTestLocals (t_acc l ++ hit) (t_loss l ++ [loss_total_])
             (ids_list l ++ ids b) (grand_true l ++ y) (prediction l ++ prey)
             (probability l ++ softmax1 out) in
  segment_statistic prey y (lengths b) ;;
  ret l.

(** [test] after its first line. *)
Definition test_run (recoding : bool) : M state unit :=
  set_result [] ;;
  let! l := foldM test_batch test_data_loader (mkTestLocals [] [] [] [] [] []) in
  let! loss_avg := lift (Num.averageQ (t_loss l)) in
  let! res_ := lift (evaluation (probability l) (grand_true l)) in
  let! d := gets self in
  let! a := lift (getitem res_ "accuracy") in
  let! p := lift (getitem res_ "precision") in
  let! r := lift (getitem res_ "recall") in
  let! f := lift (getitem res_ "f1score") in
  let! u := lift (getitem res_ "auc") in
  log_write (TestSummary (encoder_name d) (label_classifier_name d) (patient d)
               (length (t_acc l)) loss_avg a p r f u) default_log_path ;;
  if recoding
  then save_all_input_prediction_result (ids_list l) (grand_true l) (prediction l)
         "../log/prediction_result.csv"
  else ret tt.

Definition test (recoding : bool) : M state unit :=
  load_model default_model_path ;;
  test_run recoding.

(** ** [prediction_real_data] *)

Definition label_dict (label : string) : res Z :=
  if String.eqb label "pre_seizure" then Ok 1
  else if String.eqb label "non_seizure" then Ok 0
  else Raise KeyError.

Definition real_batch (file_path label : string) (data_length label_int : Z)
    (l : list string * list Z * list Z) (b : RBatch)
    : M state (list string * list Z * list Z) :=
  let '(ids_l, pred, prob) := l in
  let! d := gets self in
  let prey := argmax1 (forward_real (model d) b data_length) in
  let! names := lift (Num.mapM
                  (λ t, Str.format "{}_{}_{}_{}" [file_path; patient d; label; t])
                  (times b)) in
  let ids_l := ids_l ++ names in
  let pred := pred ++ prey in
  let prob := prob ++ map (λ x, if (x =? label_int)%Z then 1 else 0) pred in
  ret (ids_l, pred, prob).

Definition prediction_real_data
    (file_path label save_file : string) (data_length : Z) (config_path : string)
    : M state unit :=
  let! d := gets self in
  let! dataloader :=
    lift (single_file_loader file_path label data_length config_path (patient d)) in
  let! label_int := lift (label_dict label) in
  let! r := foldM (real_batch file_path label data_length label_int) dataloader ([], [], []) in
  let '(ids_l, pred, prob) := r in
  let! accuracy := lift (Num.averageZ prob) in
  let! size := lift (Num.len (Num.VBatches (length dataloader))) in
  let! shown := lift (Num.len (Num.VFloat accuracy)) in
  log_write (RealSummary (encoder_name d) (label_classifier_name d) (patient d) size shown)
    default_log_path ;;
  let! rows := lift (frame3 ids_l (replicate (length dataloader) label_int) pred) in
  let! f := gets (λ s, fs (world s) !! save_file) in
  let old := match f with Some (Csv rs) => rs | _ => [] end in
  write_file save_file (Csv (old ++ rows)) ;;
  let! msg := lift (Str.format "All information has been save in {}" [save_file]) in
  print (Line msg).

(** ** [save_attention_matrix] and [test_attention] *)

Definition default_save_dir : string := "../log/attention".

(** The attention matrix is the list of its slices along the first axis. *)
Definition save_attention_at (attention_matrix : list Slice) (ids_ : list string)
    (result_ : list Z) (save_dir : string) (_ : unit) (i : nat) : M state unit :=
  let! ri := lift (Num.index result_ i) in
  if (ri =? 1)%Z then
    let! data := lift (Num.index attention_matrix i) in
    let! name := lift (Num.index ids_ i) in
    let save_path := Str.join save_dir (name +:+ ".npy") in
    write_file save_path (Npy data) ;;
    emit (NpSave save_path data)
  else ret tt.

Definition save_attention_matrix (attention_matrix : list Slice) (ids_ : list string)
    (result_ : list Z) (save_dir : string) : M state bool :=
  let! there := exists_path save_dir in
  (if there : bool then ret tt
   else mkdir save_dir ;;
        let! msg := lift (Str.format "Dir {} was created" [save_dir]) in
        print (Line msg)) ;;
  foldM (save_attention_at attention_matrix ids_ result_ save_dir)
        (seq 0 (length attention_matrix)) tt ;;
  print (Line "All files has been saved!") ;;
  ret true.

Definition attention_batch (attention : Net → Batch → list Slice)
    (l : list Z * list Q) (b : Batch) : M state (list Z * list Q) :=
  let '(acc_, loss_) := l in
  let! d := gets self in
  let out := forward_att (model d) b in
  let loss_total_ := loss_func out (labels b) in
  let! tmp := lift (Num.marks (argmax1 out) (labels b)) in
  save_attention_matrix (attention (model d) b) (ids b) tmp default_save_dir ;;
  ret (acc_ ++ tmp, loss_ ++ [loss_total_]).

Definition test_attention (attention : Net → Batch → list Slice) : M state unit :=
  load_model default_model_path ;;
  let! l := foldM (attention_batch attention) att_data_loader ([], []) in
  let! loss_avg := lift (Num.averageQ (snd l)) in
  let! accuracy_avg := lift (Num.averageZ (fst l)) in
  let! d := gets self in
  print (AttSummary (encoder_name d) (length (fst l)) loss_avg accuracy_avg).

End Driver.

(** ** A small instance of the collaborators

    A network that is the count of its updates; a batch that carries, besides
    labels, lengths and identifiers, the classes the network will predict on
    it and the loss it will get; exact means; metric helpers that return
    fixed values. *)

Module Demo.

Record DBatch : Type := mkDBatch {
  d_pred : list Z;
  d_label : list Z;
  d_len : list Z;
  d_ids : list string;
  d_loss : Q
}.

#[global] Instance carriers : Carriers := {
  Net := nat;
  StateDict := nat;
  Batch := DBatch;
  RBatch := list Z * list string;
  Logits := list Z * Q;
  DomOut := Q;
  Slice := Z
}.

Definition perfect : DBatch := mkDBatch [1; 0] [1; 0] [700; 1200] ["a"; "b"] (1 # 2).
Definition half : DBatch := mkDBatch [1; 1] [1; 0] [700; 1200] ["c"; "d"] (1 # 4).

Definition mean (xs : list Q) : Q := (Num.sumQ xs / inject_Z (Z.of_nat (length xs)))%Q.

#[global] Instance collaborators : Collaborators := {
  state_dict n := n;
  load_state_dict _ sd := sd;
  forward _ b := mkFwd (d_pred b, d_loss b) 1%Q 2%Q;
  forward_test _ b := (d_pred b, d_loss b);
  forward_att _ b := (d_pred b, d_loss b);
  forward_real _ rb _ := (fst rb, 0%Q);
  loss_func lg _ := snd lg;
  loss_func_domain x := x;
  argmax1 lg := fst lg;
  softmax1 lg := map inject_Z (fst lg);
  optimizer_step n _ _ := S n;
  labels := d_label;
  lengths := d_len;
  ids := d_ids;
  times := snd;
  train_data_loader _ := [half];
  next_batch_val_data ep _ := if (ep =? 0)%nat then [perfect] else [half];
  test_data_loader := [perfect; half];
  att_data_loader := [half];
  single_file_loader _ _ _ _ _ := Ok [([1; 0], ["0"; "2"])];
  np_mean := mean;
  np_std _ := 0%Q;
  get_accuracy _ _ := Ok (3 # 4);
  get_precision _ _ := Ok (2 # 3);
  get_recall _ _ := Ok 1%Q;
  get_f1score _ _ := Ok (4 # 5);
  get_auc _ _ _ _ := Ok (7 # 8);
  time_stamp := "2020-01-01 00:00:00"
}.

(** A fresh object for patient [BDP] with the default encoder and
    classifier, in a world with no files and nothing printed yet. *)
Definition dan (epochs : nat) : Dan :=
  mkDan "BDP" epochs 16 (-1) "cnn" "lstm" 0%nat None.

Definition start (epochs : nat) : state :=
  mkState (dan epochs) (mkWorld ∅ []).

End Demo.

(** * Properties *)

(** Running a computation one primitive at a time. *)
Ltac mrun :=
  unfold bind, gets, lift, modify, ret; cbn [fst snd].

Lemma bind_ok {S A B : Type} (m : M S A) (k : A → M S B) (s s' : S) (a : A) :
  m s = (Ok a, s') → bind m k s = k a s'.
Proof. intros E. unfold bind. now rewrite E. Qed.

Lemma bind_raise {S A B : Type} (m : M S A) (k : A → M S B) (s s' : S) (e : exn) :
  m s = (Raise e, s') → bind m k s = (Raise e, s').
Proof. intros E. unfold bind. now rewrite E. Qed.

Lemma bind_lift_ok {S A B : Type} (a : A) (k : A → M S B) (s : S) :
  bind (lift (Ok a)) k s = k a s.
Proof. reflexivity. Qed.

Lemma bind_lift_raise {S A B : Type} (e : exn) (k : A → M S B) (s : S) :
  bind (lift (Raise e)) k s = (Raise e, s).
Proof. reflexivity. Qed.

Lemma bind_gets {S A B : Type} (f : S → A) (k : A → M S B) (s : S) :
  bind (gets f) k s = k (f s) s.
Proof. reflexivity. Qed.

(** A loop invariant for [foldM]: [P] holds of the part of the list that was
    consumed so far, and [Q] of the state an exception leaves. *)
Lemma foldM_rule {S A L : Type} (body : L → A → M S L)
    (P : list A → L → S → Prop) (Q : S → Prop) (xs : list A) :
  (∀ pre x post l s, xs = pre ++ x :: post → P pre l s →
     match body l x s with
     | (Ok l', s') => P (pre ++ [x]) l' s'
     | (Raise _, s') => Q s'
     end) →
  ∀ l s, P [] l s →
     match foldM body xs l s with
     | (Ok l', s') => P xs l' s'
     | (Raise _, s') => Q s'
     end.
Proof.
  intros Hstep.
  assert (G : ∀ post pre l s, xs = pre ++ post → P pre l s →
     match foldM body post l s with
     | (Ok l', s') => P xs l' s'
     | (Raise _, s') => Q s'
     end).
  { induction post as [|x post IH]; intros pre l s Hxs HP; simpl.
    - unfold ret. rewrite app_nil_r in Hxs. now subst.
    - unfold bind. specialize (Hstep pre x post l s Hxs HP).
      destruct (body l x s) as [[l'|e] s']; [|exact Hstep].
      apply (IH (pre ++ [x])); [|exact Hstep].
      now rewrite <- app_assoc. }
  intros l s HP. now apply (G xs []).
Qed.

Lemma append_empty_r (s : string) : s +:+ "" = s.
Proof.
  induction s as [|c s IH]; [reflexivity|].
  change (String c (s +:+ "") = String c s). now rewrite IH.
Qed.

Lemma append_assoc (a b c : string) : (a +:+ b) +:+ c = a +:+ b +:+ c.
Proof.
  induction a as [|x a IH]; [reflexivity|].
  change (String x ((a +:+ b) +:+ c) = String x (a +:+ b +:+ c)). now rewrite IH.
Qed.

Section Files.

Context `{Collaborators}.

Lemma to_csv_eq (path : string) (f : file) (s : state) :
  to_csv path f s =
  if in_dir path s
  then match fs (world s) !! path with
       | Some Dir => (Raise IsADirectoryError, s)
       | _ => (Ok tt, with_file path f s)
       end
  else (Raise OSError, s).
Proof.
  unfold to_csv. rewrite bind_gets.
  destruct (in_dir path s); [|reflexivity].
  now destruct (fs (world s) !! path) as [[]|].
Qed.

Lemma open_text_eq (path : string) (s : state) :
  open_text path s =
  if in_dir path s
  then match fs (world s) !! path with
       | Some Dir => (Raise IsADirectoryError, s)
       | f => (Ok f, s)
       end
  else match fs (world s) !! Str.dirname path with
       | Some _ => (Raise NotADirectoryError, s)
       | None => (Raise FileNotFoundError, s)
       end.
Proof.
  unfold open_text. rewrite bind_gets.
  destruct (in_dir path s).
  - now destruct (fs (world s) !! path) as [[]|].
  - now destruct (fs (world s) !! Str.dirname path).
Qed.

End Files.

Section Paths.

Context `{Collaborators}.

Lemma save_full_path_default (d : Dan) :
  save_full_path d default_save_path = Ok (checkpoint_path d).
Proof. reflexivity. Qed.

Lemma load_full_path_default (d : Dan) :
  load_full_path d default_model_path = Ok (checkpoint_path d).
Proof. reflexivity. Qed.

(** With their default arguments [save_mode] and [load_model] format the
    same file path, whatever the encoder name, the classifier name and the
    patient are: both format it without an exception, and it is
    [../save_model/DAN_encoder_<encoder>_<classifier>_<patient>.pkl]. *)
Lemma default_paths_agree (d : Dan) :
  save_full_path d default_save_path = load_full_path d default_model_path
  ∧ load_full_path d default_model_path = Ok (checkpoint_path d).
Proof. split; reflexivity. Qed.

(** What [save_mode] does with the default argument. *)
Lemma save_mode_default (s : state) :
  ∃ files,
    save_mode default_save_path s =
      (Ok tt,
       mkState (self s)
         (mkWorld (<[checkpoint_path (self s) := Pickle (state_dict (model (self s)))]> files)
            (trace (world s) ++
               [TorchSave (checkpoint_path (self s)) (state_dict (model (self s)));
                Print (Line ("Saving Model DAN in " +:+ checkpoint_path (self s) +:+ "......"))]))).
Proof.
  unfold save_mode, exists_path, mkdir, write_file, print, emit. mrun.
  destruct (bool_decide _); cbn; unfold with_event; cbn; rewrite <- app_assoc;
    eexists; reflexivity.
Qed.

(** The message [load_model] prints when the file is missing, and the state
    it leaves. *)
Definition not_exist (s : state) : state :=
  with_event (Print (Line ("Model is not exist in " +:+ checkpoint_path (self s)))) s.

Definition loaded (sd : StateDict) (s : state) : state :=
  with_event (Print (Line ("Loading Mode DAN from " +:+ checkpoint_path (self s))))
    (with_model (load_state_dict (model (self s)) sd) s).

(** What [load_model] does, by cases on what is at the checkpoint path. *)
Lemma load_model_cases (s : state) :
  match fs (world s) !! checkpoint_path (self s) with
  | None =>
      load_model default_model_path s = (Ok tt, not_exist s)
      ∧ model (self (not_exist s)) = model (self s)
      ∧ fs (world (not_exist s)) = fs (world s)
      ∧ ∀ recoding, test recoding s = test_run recoding (not_exist s)
  | Some (Pickle sd) =>
      load_model default_model_path s = (Ok tt, loaded sd s)
      ∧ model (self (loaded sd s)) = load_state_dict (model (self s)) sd
  | Some _ =>
      load_model default_model_path s = (Raise UnpicklingError, s)
  end.
Proof.
  assert (Hex : ∀ f, fs (world s) !! checkpoint_path (self s) = Some f →
            bool_decide (is_Some (fs (world s) !! checkpoint_path (self s))) = true).
  { intros f E. apply bool_decide_eq_true_2. rewrite E. eauto. }
  destruct (fs (world s) !! checkpoint_path (self s)) as [f|] eqn:E.
  - specialize (Hex f eq_refl).
    unfold test, load_model, exists_path, torch_load, set_model, print, emit. mrun.
    rewrite load_full_path_default, E, Hex.
    destruct f; cbn; rewrite ?E; cbn; rewrite ?append_empty_r; try reflexivity.
    split; reflexivity.
  - unfold test, load_model, exists_path, torch_load, set_model, print, emit. mrun.
    rewrite load_full_path_default, E.
    rewrite bool_decide_eq_false_2 by (intros [? ?]; discriminate).
    cbn. rewrite append_empty_r. repeat split; reflexivity.
Qed.

(** C4.  [load_model] with its default argument looks at the checkpoint path.
    If nothing is there, it returns normally, the only change is the printed
    line, the network is the one that was in memory, and [test] goes on from
    that state.  If a checkpoint is there, its state is loaded into the
    network. *)
Theorem load_model_missing_or_present (s : state) :
  match fs (world s) !! checkpoint_path (self s) with
  | None =>
      load_model default_model_path s = (Ok tt, not_exist s)
      ∧ model (self (not_exist s)) = model (self s)
      ∧ fs (world (not_exist s)) = fs (world s)
      ∧ ∀ recoding, test recoding s = test_run recoding (not_exist s)
  | Some (Pickle sd) =>
      load_model default_model_path s = (Ok tt, loaded sd s)
      ∧ model (self (loaded sd s)) = load_state_dict (model (self s)) sd
  | Some _ =>
      load_model default_model_path s = (Raise UnpicklingError, s)
  end.
Proof. apply load_model_cases. Qed.

(** Saving and then loading gives back what was saved. *)
Lemma save_then_load (s s1 : state) :
  save_mode default_save_path s = (Ok tt, s1) →
  load_model default_model_path s1 = (Ok tt, loaded (state_dict (model (self s))) s1).
Proof.
  intros E. destruct (save_mode_default s) as [files E']. rewrite E' in E.
  injection E as <-.
  pose proof (load_model_cases
    (mkState (self s)
       (mkWorld (<[checkpoint_path (self s) := Pickle (state_dict (model (self s)))]> files)
          (trace (world s) ++
             [TorchSave (checkpoint_path (self s)) (state_dict (model (self s)));
              Print (Line ("Saving Model DAN in " +:+ checkpoint_path (self s) +:+ "......"))]))))
    as L.
  cbn [self world fs] in L. rewrite lookup_insert_eq in L. apply L.
Qed.

End Paths.

Section Evaluation.

Context `{Collaborators}.

Local Open Scope Q_scope.

Lemma gt_spec (x y : Q) : Num.gt x y = true ↔ y < x.
Proof.
  unfold Num.gt. rewrite negb_true_iff, <- not_true_iff_false, Qle_bool_iff.
  split; [apply Qnot_le_lt | apply Qlt_not_le].
Qed.

(** C7.  [evaluation probability y] thresholds the probabilities ([prey] has
    1 where the probability is above 0.5 and 0 elsewhere) and asks the helper
    for the five metrics: accuracy, precision, recall and F1 score on [prey],
    the AUC with the raw probabilities.  When the helper answers, the
    dictionary returned has the five keys [accuracy], [precision], [recall],
    [f1score], [auc] and no other, each bound to the helper's answer.  The
    only exceptions are the helper's. *)
Theorem evaluation_keys_and_threshold (probability : list Q) (y : list Z) :
  ∃ prey : list Z,
    length prey = length probability
    ∧ (∀ i p, probability !! i = Some p →
         (1 # 2 < p ∧ prey !! i = Some 1%Z) ∨ (¬ 1 # 2 < p ∧ prey !! i = Some 0%Z))
    ∧ match evaluation probability y with
      | Ok r =>
          dom r = ({["accuracy"; "precision"; "recall"; "f1score"; "auc"]} : gset string)
          ∧ get_accuracy prey y = getitem r "accuracy"
          ∧ get_precision prey y = getitem r "precision"
          ∧ get_recall prey y = getitem r "recall"
          ∧ get_f1score prey y = getitem r "f1score"
          ∧ get_auc prey y probability y = getitem r "auc"
      | Raise e =>
          get_accuracy prey y = Raise e ∨ get_precision prey y = Raise e
          ∨ get_recall prey y = Raise e ∨ get_f1score prey y = Raise e
          ∨ get_auc prey y probability y = Raise e
      end.
Proof.
  exists (map (λ x, if Num.gt x (1 # 2) then 1%Z else 0%Z) probability).
  split; [apply length_map|]. split.
  - intros i p Hp. rewrite list_lookup_fmap, Hp. cbn.
    destruct (Num.gt p (1 # 2)) eqn:E.
    + left. split; [now apply gt_spec | reflexivity].
    + right. split; [|reflexivity]. rewrite <- gt_spec. congruence.
  - unfold evaluation.
    destruct (get_accuracy _ y) as [a|e]; cbn; [|now left].
    destruct (get_precision _ y) as [p|e]; cbn; [|now right; left].
    destruct (get_recall _ y) as [r|e]; cbn; [|now right; right; left].
    destruct (get_f1score _ y) as [f|e]; cbn; [|now right; right; right; left].
    destruct (get_auc _ y probability y) as [u|e]; cbn; [|now right; right; right; right].
    split.
    + rewrite !dom_insert_L, dom_empty_L. set_solver.
    + unfold getitem. repeat split; now simplify_map_eq.
Qed.

End Evaluation.

Section RealData.

Context `{Collaborators}.

Lemma real_batches_pure (file_path label : string) (data_length label_int : Z)
    (bs : list RBatch) (l : list string * list Z * list Z) (s : state) :
  snd (foldM (real_batch file_path label data_length label_int) bs l s) = s.
Proof.
  revert l. induction bs as [|b bs IH]; intros l; [reflexivity|].
  cbn [foldM]. unfold bind at 1.
  destruct l as [[ids_l pred] prob]. unfold real_batch at 1. mrun.
  destruct (Num.mapM _ (times b)) as [names|e]; cbn; [apply IH | reflexivity].
Qed.

(** [prediction_real_data] never returns: whatever the file and the label
    are, it ends with an exception and leaves the state as it found it (no
    log line, no row in the CSV file). *)
Lemma prediction_real_data_raises
    (file_path label save_file : string) (data_length : Z) (config_path : string) (s : state) :
  ∃ e, prediction_real_data file_path label save_file data_length config_path s = (Raise e, s).
Proof.
  unfold prediction_real_data. mrun.
  destruct (single_file_loader _ _ _ _ _) as [dl|e]; [|eauto].
  destruct (label_dict label) as [li|e]; [|eauto].
  pose proof (real_batches_pure file_path label data_length li dl ([], [], []) s) as Hs.
  destruct (foldM _ dl _ s) as [[[[ids_l pred] prob]|e] s']; cbn in Hs; subst s'; [|eauto].
  destruct (Num.averageZ prob) as [a|e]; cbn; eauto.
Qed.

End RealData.

Section SegmentStatistic.

Context `{Collaborators}.

(** The list a key is bound to; a [defaultdict(list)] reads a missing key as
    the empty list. *)
Definition bucket (k : Z) (d : list (Z * list Z)) : list Z :=
  default [] (dict_get k d).

(** The mark of sample [i] if its length falls in bucket [k]. *)
Definition mark_in (k : Z) (prey y length_ : list Z) (i : nat) : option Z :=
  match prey !! i, y !! i, length_ !! i with
  | Some p, Some yi, Some li =>
      if (li / 500 =? k)%Z then Some (if (p =? yi)%Z then 1 else 0) else None
  | _, _, _ => None
  end.

(** The marks of the samples of bucket [k] among the samples [idx], in the
    order of the samples. *)
Definition marks_in (k : Z) (prey y length_ : list Z) (idx : list nat) : list Z :=
  omap (mark_in k prey y length_) idx.

Lemma dict_get_iadd_eq (k v : Z) (d : list (Z * list Z)) :
  dict_get k (dict_iadd k v d) = Some (bucket k d ++ [v]).
Proof.
  unfold bucket. induction d as [|[k' p] d IH]; cbn.
  - now rewrite Z.eqb_refl.
  - destruct (k =? k')%Z eqn:E; cbn; rewrite E; [reflexivity | exact IH].
Qed.

Lemma dict_get_iadd_ne (k k' v : Z) (d : list (Z * list Z)) :
  k ≠ k' → dict_get k' (dict_iadd k v d) = dict_get k' d.
Proof.
  intros Hne. induction d as [|[k0 p] d IH]; cbn.
  - destruct (k' =? k)%Z eqn:E; [apply Z.eqb_eq in E; congruence | reflexivity].
  - destruct (k =? k0)%Z eqn:E; cbn.
    + apply Z.eqb_eq in E. subst k0.
      destruct (k' =? k)%Z eqn:E'; [apply Z.eqb_eq in E'; congruence | reflexivity].
    + destruct (k' =? k0)%Z; [reflexivity | exact IH].
Qed.

Lemma marks_in_snoc (k : Z) (prey y length_ : list Z) (idx : list nat) (i : nat) :
  marks_in k prey y length_ (idx ++ [i]) =
  marks_in k prey y length_ idx ++ from_option (λ m, [m]) [] (mark_in k prey y length_ i).
Proof.
  unfold marks_in. rewrite omap_app. cbn.
  now destruct (mark_in k prey y length_ i).
Qed.

(** C5.  A call [segment_statistic(prey, y, length)] with three sequences of
    one length, on an object whose [result] exists, returns normally and
    changes nothing but [result].  Afterwards every bucket [k] holds what it
    held before followed by one mark for each sample [i] with
    [length[i] // 500 = k], in the order of the samples: 1 if
    [prey[i] = y[i]], 0 otherwise.  A bucket that no sample falls in is
    as it was (still missing if it was missing). *)
Theorem segment_statistic_appends (prey y length_ : list Z) (d : list (Z * list Z)) (s : state) :
  result (self s) = Some d →
  length y = length prey →
  length length_ = length prey →
  ∃ d',
    segment_statistic prey y length_ s = (Ok tt, with_result d' s)
    ∧ ∀ k,
        bucket k d' = bucket k d ++ marks_in k prey y length_ (seq 0 (length prey))
        ∧ (marks_in k prey y length_ (seq 0 (length prey)) = [] →
           dict_get k d' = dict_get k d).
Proof.
  intros Hres Hy Hl.
  set (P := λ (pre : list nat) (_ : unit) (s' : state),
    ∃ d', s' = with_result d' s
      ∧ ∀ k, bucket k d' = bucket k d ++ marks_in k prey y length_ pre
           ∧ (marks_in k prey y length_ pre = [] → dict_get k d' = dict_get k d)).
  assert (Hinit : P [] tt s).
  { exists d. split.
    - destruct s as [[] ?]; cbn in Hres; subst; reflexivity.
    - intros k; cbn. now rewrite app_nil_r. }
  assert (Hstep : ∀ pre i post l s1, seq 0 (length prey) = pre ++ i :: post → P pre l s1 →
     match segment_statistic_at prey y length_ l i s1 with
     | (Ok l', s') => P (pre ++ [i]) l' s'
     | (Raise _, s') => False
     end).
  { intros pre i post [] s1 Hseq (d1 & -> & Hd1).
    assert (Hi : (i < length prey)%nat).
    { assert (Hin : i ∈ seq 0 (length prey)).
      { rewrite Hseq. apply elem_of_app. right. apply list_elem_of_here. }
      apply elem_of_seq in Hin. lia. }
    destruct (lookup_lt_is_Some_2 prey i Hi) as [p Hp].
    destruct (lookup_lt_is_Some_2 y i ltac:(lia)) as [yi Hyi].
    destruct (lookup_lt_is_Some_2 length_ i ltac:(lia)) as [li Hli].
    unfold segment_statistic_at, set_result, Num.index; mrun.
    rewrite Hp, Hyi; cbn; rewrite Hli; cbn.
    eexists; split; [reflexivity|].
    intros k; rewrite marks_in_snoc.
    assert (Hm : mark_in k prey y length_ i =
                 if (li / 500 =? k)%Z then Some (if (p =? yi)%Z then 1 else 0) else None)
      by (unfold mark_in; now rewrite Hp, Hyi, Hli).
    rewrite Hm.
    destruct (Hd1 k) as [Hb Hn].
    destruct (li / 500 =? k)%Z eqn:Ek; cbn.
    - apply Z.eqb_eq in Ek; subst k; split.
      + unfold bucket at 1; rewrite dict_get_iadd_eq, Hb; cbn; now rewrite <- app_assoc.
      + intros Habs; now apply app_eq_nil in Habs as [_ ?].
    - apply Z.eqb_neq in Ek; unfold bucket at 1; rewrite dict_get_iadd_ne by exact Ek.
      rewrite app_nil_r; split; [exact Hb | exact Hn]. }
  pose proof (foldM_rule (segment_statistic_at prey y length_) P (λ _, False)
                (seq 0 (length prey)) Hstep tt s Hinit) as R.
  unfold segment_statistic.
  destruct (foldM _ (seq 0 (length prey)) tt s) as [[[]|e] s']; [|contradiction].
  destruct R as (d' & -> & Hd'). now exists d'.
Qed.

End SegmentStatistic.

Section SegmentInfo.

Context `{Collaborators}.

(** The accuracy of a group: the sum of its marks over its size. *)
Definition group_accuracy (g : list Z) : Q :=
  (inject_Z (Num.sumZ g) / inject_Z (Z.of_nat (length g)))%Q.

(** The five groups of a bucket and the row reported for it. *)
Definition groups (p : list Z) : list (list Z) := map (group p) (seq 0 5).

Definition reported_row (lp : Z * list Z) : Z * Q * Q :=
  (fst lp, np_mean (map group_accuracy (groups (snd lp))),
           np_std (map group_accuracy (groups (snd lp)))).

Definition stat_path (d : Dan) : string :=
  "../log/segment_statistic_" +:+ encoder_name d +:+ "_" +:+ label_classifier_name d +:+ ".csv".

Lemma slices_concat {A : Type} (p : list A) (size m : nat) :
  concat (map (λ j, take size (drop (j * size) p)) (seq 0 m)) = take (m * size) p.
Proof.
  induction m as [|m IH].
  - now rewrite take_0.
  - rewrite seq_S, map_app, concat_app, IH. cbn [map concat Nat.add].
    rewrite app_nil_r, take_take_drop. f_equal. lia.
Qed.

Lemma group_length (p : list Z) (j : nat) :
  (j < 5)%nat → length (group p j) = (length p / 5)%nat.
Proof.
  intros Hj. unfold group. rewrite length_take, length_drop.
  pose proof (Nat.Div0.mul_div_le (length p) 5). nia.
Qed.

Lemma groups_concat (p : list Z) :
  concat (groups p) = take (5 * (length p / 5)) p.
Proof. unfold groups, group. apply slices_concat. Qed.

Lemma averageZ_nonempty (g : list Z) :
  g ≠ [] → Num.averageZ g = Ok (group_accuracy g).
Proof.
  intros Hg. unfold Num.averageZ, Num.truediv.
  destruct (Z.of_nat (length g) =? 0)%Z eqn:E; [|reflexivity].
  apply Z.eqb_eq in E. destruct g; [congruence | cbn in E; lia].
Qed.

Lemma acc_ep_enough (p : list Z) :
  (5 ≤ length p)%nat → acc_ep p = Ok (map group_accuracy (groups p)).
Proof.
  intros Hp. unfold acc_ep, groups.
  assert (G : ∀ js, Forall (λ j, (j < 5)%nat) js →
            Num.mapM (λ j, Num.averageZ (group p j)) js
            = Ok (map group_accuracy (map (group p) js))).
  { induction js as [|j js IH]; intros Hjs; [reflexivity|].
    apply Forall_cons in Hjs as [Hj Hjs]. cbn [Num.mapM map].
    rewrite averageZ_nonempty, (IH Hjs); [reflexivity|].
    intros Hnil. apply (f_equal length) in Hnil. rewrite group_length in Hnil by exact Hj.
    change (length (@nil Z)) with 0%nat in Hnil.
    pose proof (Nat.div_str_pos (length p) 5 ltac:(lia)). lia. }
  apply G. apply Forall_forall. intros j Hj. apply elem_of_seq in Hj. lia.
Qed.

Lemma acc_ep_short (p : list Z) :
  (length p < 5)%nat → acc_ep p = Raise ZeroDivisionError.
Proof.
  intros Hp. unfold acc_ep. cbn [seq Num.mapM]. unfold group.
  rewrite (Nat.div_small (length p) 5 Hp). reflexivity.
Qed.

Lemma stat_rows_enough (d : list (Z * list Z)) :
  Forall (λ lp, (5 ≤ length (snd lp))%nat) d →
  Num.mapM stat_row d = Ok (map reported_row d).
Proof.
  induction d as [|lp d IH]; intros Hd; [reflexivity|].
  apply Forall_cons in Hd as [Hlp Hd]. cbn [Num.mapM map].
  unfold stat_row at 1. rewrite (acc_ep_enough _ Hlp). cbn [res_bind].
  now rewrite (IH Hd).
Qed.

Lemma stat_rows_short (d : list (Z * list Z)) :
  Exists (λ lp, (length (snd lp) < 5)%nat) d →
  Num.mapM stat_row d = Raise ZeroDivisionError.
Proof.
  induction d as [|lp d IH]; intros Hd; [now apply Exists_nil in Hd|].
  cbn [Num.mapM]. unfold stat_row at 1.
  destruct (le_lt_dec 5 (length (snd lp))) as [Hge|Hlt].
  - rewrite (acc_ep_enough _ Hge). cbn [res_bind].
    apply Exists_cons in Hd as [Hd|Hd]; [lia|]. now rewrite (IH Hd).
  - now rewrite (acc_ep_short _ Hlt).
Qed.

Lemma stat_path_format (d : Dan) :
  Str.format "../log/segment_statistic_{}_{}.csv" [encoder_name d; label_classifier_name d]
  = Ok (stat_path d).
Proof. reflexivity. Qed.

(** The state after the rows were written and printed. *)
Definition stat_saved (rows : list (Z * Q * Q)) (s : state) : state :=
  with_event (Print (StatFrame rows)) (with_file (stat_path (self s)) (StatCsv rows) s).

(** C9.  On an object whose [result] holds the buckets [d]:
    - if every bucket has at least 5 entries, [save_segment_statistic_info]
      gets as far as the CSV file, with one row per bucket, in the order of
      the buckets: the key, the mean ([np.mean]) and the standard deviation
      ([np.std]) of the accuracies of the five groups of the bucket.  The
      five groups all have [n // 5] entries and together they are the first
      [5 * (n // 5)] entries of the bucket, so the last [n mod 5] entries
      are in no group.  The rows are written and printed, and the method
      returns normally, when the directory [../log] is there; when it is
      not, [to_csv] raises [OSError] (and [IsADirectoryError] when the path
      of the file is a directory) and nothing is written;
    - if some bucket has fewer than 5 entries, it raises
      [ZeroDivisionError] and writes nothing;
    - so it returns normally only if every bucket has at least 5 entries. *)
Theorem save_segment_statistic_info_groups (d : list (Z * list Z)) (s : state) :
  result (self s) = Some d →
  (Forall (λ lp, (5 ≤ length (snd lp))%nat) d →
     save_segment_statistic_info s =
       (if in_dir (stat_path (self s)) s
        then match fs (world s) !! stat_path (self s) with
             | Some Dir => (Raise IsADirectoryError, s)
             | _ => (Ok tt, stat_saved (map reported_row d) s)
             end
        else (Raise OSError, s))
     ∧ ∀ l p, (l, p) ∈ d →
         Forall (λ g, length g = (length p / 5)%nat) (groups p)
         ∧ length (groups p) = 5%nat
         ∧ p = concat (groups p) ++ drop (5 * (length p / 5)) p
         ∧ length (drop (5 * (length p / 5)) p) = (length p mod 5)%nat)
  ∧ (Exists (λ lp, (length (snd lp) < 5)%nat) d →
       save_segment_statistic_info s = (Raise ZeroDivisionError, s))
  ∧ (fst (save_segment_statistic_info s) = Ok tt →
       Forall (λ lp, (5 ≤ length (snd lp))%nat) d).
Proof.
  intros Hres.
  assert (Hshort : Exists (λ lp, (length (snd lp) < 5)%nat) d →
                   save_segment_statistic_info s = (Raise ZeroDivisionError, s)).
  { intros Hd. unfold save_segment_statistic_info. mrun. rewrite Hres.
    unfold lift, bind. now rewrite (stat_rows_short _ Hd). }
  split; [|split; [exact Hshort|]].
  - intros Hd. split.
    + unfold save_segment_statistic_info. rewrite bind_gets, Hres.
      rewrite (stat_rows_enough _ Hd), bind_lift_ok, bind_gets.
      rewrite stat_path_format, bind_lift_ok.
      unfold bind at 1. rewrite to_csv_eq.
      destruct (in_dir (stat_path (self s)) s); [|reflexivity].
      now destruct (fs (world s) !! stat_path (self s)) as [[]|].
    + intros l p Hin. split; [|split; [reflexivity|split]].
      * apply Forall_forall. intros g Hg. unfold groups in Hg.
        apply list_elem_of_fmap in Hg as (j & -> & Hj). apply elem_of_seq in Hj.
        apply group_length. lia.
      * now rewrite groups_concat, take_drop.
      * rewrite length_drop. pose proof (Nat.div_mod_eq (length p) 5). lia.
  - intros Hok. apply Forall_forall. intros lp Hin.
    destruct (le_lt_dec 5 (length (snd lp))) as [Hge|Hlt]; [exact Hge|].
    rewrite Hshort in Hok; [discriminate|].
    apply Exists_exists. exists lp. split; [exact Hin | exact Hlt].
Qed.

End SegmentInfo.

Section Attention.

Context `{Collaborators}.

(** The slices [save_attention_matrix] saves and where: sample [i] is saved
    when [result[i]] is 1, under the name made of its identifier. *)
Definition saved_slice (attention_matrix : list Slice) (ids_ : list string)
    (result_ : list Z) (save_dir : string) (i : nat) : option (string * Slice) :=
  match result_ !! i, attention_matrix !! i, ids_ !! i with
  | Some ri, Some data, Some name =>
      if (ri =? 1)%Z then Some (Str.join save_dir (name +:+ ".npy"), data) else None
  | _, _, _ => None
  end.

Definition saved_slices (attention_matrix : list Slice) (ids_ : list string)
    (result_ : list Z) (save_dir : string) : list (string * Slice) :=
  omap (saved_slice attention_matrix ids_ result_ save_dir)
       (seq 0 (length attention_matrix)).

(** The state after [np.save] was called on each of them in turn. *)
Definition np_saved (l : list (string * Slice)) (s : state) : state :=
  fold_left (λ s' pd, with_event (NpSave (fst pd) (snd pd))
                        (with_file (fst pd) (Npy (snd pd)) s')) l s.

(** The state after the directory was looked for, and made if missing. *)
Definition dir_ready (save_dir : string) (s : state) : state :=
  if bool_decide (is_Some (fs (world s) !! save_dir)) then s
  else with_event (Print (Line ("Dir " +:+ save_dir +:+ " was created")))
         (with_file save_dir Dir s).

Lemma format_dir_created (save_dir : string) :
  Str.format "Dir {} was created" [save_dir] = Ok ("Dir " +:+ save_dir +:+ " was created").
Proof. reflexivity. Qed.

Lemma save_attention_loop (attention_matrix : list Slice) (ids_ : list string)
    (result_ : list Z) (save_dir : string) (s : state) :
  (length attention_matrix ≤ length result_)%nat →
  (∀ i, (i < length attention_matrix)%nat → result_ !! i = Some 1 →
        (i < length ids_)%nat) →
  foldM (save_attention_at attention_matrix ids_ result_ save_dir)
        (seq 0 (length attention_matrix)) tt s
  = (Ok tt, np_saved (saved_slices attention_matrix ids_ result_ save_dir) s).
Proof.
  intros Hres Hids.
  set (f := saved_slice attention_matrix ids_ result_ save_dir).
  set (P := λ (pre : list nat) (_ : unit) (s' : state), s' = np_saved (omap f pre) s).
  assert (Hstep : ∀ pre i post l s1,
     seq 0 (length attention_matrix) = pre ++ i :: post → P pre l s1 →
     match save_attention_at attention_matrix ids_ result_ save_dir l i s1 with
     | (Ok l', s') => P (pre ++ [i]) l' s'
     | (Raise _, s') => False
     end).
  { intros pre i post [] s1 Hseq ->.
    assert (Hi : (i < length attention_matrix)%nat).
    { assert (Hin : i ∈ seq 0 (length attention_matrix)).
      { rewrite Hseq. apply elem_of_app. right. apply list_elem_of_here. }
      apply elem_of_seq in Hin. lia. }
    destruct (lookup_lt_is_Some_2 attention_matrix i Hi) as [data Hdata].
    destruct (lookup_lt_is_Some_2 result_ i ltac:(lia)) as [ri Hri].
    assert (Hstepped : np_saved (omap f (pre ++ [i])) s
              = from_option (λ pd, with_event (NpSave (fst pd) (snd pd))
                                     (with_file (fst pd) (Npy (snd pd))
                                        (np_saved (omap f pre) s)))
                  (np_saved (omap f pre) s) (f i)).
    { rewrite omap_app. unfold np_saved. rewrite fold_left_app.
      change (omap f [i]) with (match f i with Some y => [y] | None => [] end).
      now destruct (f i). }
    assert (Hf : f i = match ids_ !! i with
                       | Some name =>
                           if (ri =? 1)%Z
                           then Some (Str.join save_dir (name +:+ ".npy"), data) else None
                       | None => None
                       end).
    { unfold f, saved_slice. now rewrite Hri, Hdata. }
    unfold P. rewrite Hstepped, Hf. clear Hstepped Hf.
    generalize (np_saved (omap f pre) s). intros s1.
    unfold save_attention_at, write_file, emit, Num.index. mrun.
    rewrite Hri, Hdata. cbn.
    destruct (ri =? 1)%Z eqn:E; cbn.
    + apply Z.eqb_eq in E. subst ri.
      destruct (lookup_lt_is_Some_2 ids_ i (Hids i Hi Hri)) as [name Hname].
      rewrite Hname. reflexivity.
    + now destruct (ids_ !! i). }
  pose proof (foldM_rule (save_attention_at attention_matrix ids_ result_ save_dir)
                P (λ _, False) (seq 0 (length attention_matrix)) Hstep tt s eq_refl) as R.
  destruct (foldM _ (seq 0 (length attention_matrix)) tt s) as [[[]|e] s']; [|contradiction].
  unfold P in R. now subst s'.
Qed.

(** What [save_attention_matrix] does when the result list covers the
    samples of the matrix and the saved samples have an identifier. *)
Lemma save_attention_matrix_saves (attention_matrix : list Slice) (ids_ : list string)
    (result_ : list Z) (save_dir : string) (s : state) :
  Str.is_empty save_dir = false →
  (length attention_matrix ≤ length result_)%nat →
  (∀ i, (i < length attention_matrix)%nat → result_ !! i = Some 1 →
        (i < length ids_)%nat) →
  save_attention_matrix attention_matrix ids_ result_ save_dir s
  = (Ok true,
     with_event (Print (Line "All files has been saved!"))
       (np_saved (saved_slices attention_matrix ids_ result_ save_dir)
          (dir_ready save_dir s))).
Proof.
  intros Hdir Hres Hids. unfold save_attention_matrix.
  unfold bind at 1. unfold exists_path at 1. unfold gets at 1.
  assert (E : (if bool_decide (is_Some (fs (world s) !! save_dir))
               then ret tt
               else bind (mkdir save_dir) (λ _,
                      bind (lift (Str.format "Dir {} was created" [save_dir]))
                           (λ msg, print (Line msg)))) s
              = (Ok tt, dir_ready save_dir s)).
  { unfold dir_ready. destruct (bool_decide _); [reflexivity|].
    rewrite format_dir_created. unfold mkdir. rewrite Hdir.
    unfold print, emit, write_file. mrun. reflexivity. }
  rewrite (bind_ok _ _ _ _ _ E).
  rewrite (bind_ok _ _ _ _ _ (save_attention_loop _ _ _ _ _ Hres Hids)).
  reflexivity.
Qed.















End Attention.

(** ** The trace of [train] *)

Section TrainTrace.

Context `{Collaborators}.

Local Open Scope Q_scope.

(** *** What is read off a trace *)

Definition is_report (e : event) : bool :=
  match e with
  | Print (TrainReport _ _ _ _ _ _) => true
  | _ => false
  end.

(** The events since the last validation report. *)
Definition window (t : list event) : list event :=
  fold_left (λ w e, if is_report e then [] else w ++ [e]) t [].

(** The losses that were back-propagated. *)
Definition backward_losses (t : list event) : list Q :=
  omap (λ e, match e with Backward x => Some x | _ => None end) t.

(** The marks (1 for a sample predicted right, 0 otherwise) of a forward
    pass on a training batch. *)
Definition hits (b : Batch) (o : Fwd) : list Z :=
  match Num.marks (argmax1 (label_output o)) (labels b) with
  | Ok h => h
  | Raise _ => []
  end.

Definition train_hits (t : list event) : list Z :=
  concat (map (λ e, match e with Forward false b o => hits b o | _ => [] end) t).

(** The training batches and the validation batches that went through the
    network, and the points at which a validation was reported. *)
Definition train_batches (t : list event) : list Batch :=
  omap (λ e, match e with Forward false b _ => Some b | _ => None end) t.

Definition val_batches (t : list event) : list Batch :=
  omap (λ e, match e with Forward true b _ => Some b | _ => None end) t.

Definition report_points (t : list event) : list (nat * nat) :=
  omap (λ e, match e with
             | Print (TrainReport ep step _ _ _ _) => Some (ep, step)
             | _ => None
             end) t.

(** The validation accuracy of each report, with whether the checkpoint was
    written right after it. *)
Fixpoint decisions (t : list event) : list (Q * bool) :=
  match t with
  | [] => []
  | Print (TrainReport _ _ _ _ _ a) :: t' =>
      (a, match t' with TorchSave _ _ :: _ => true | _ => false end) :: decisions t'
  | _ :: t' => decisions t'
  end.

(** The checkpoint policy run over a list of validation accuracies. *)
Fixpoint policy (last : Q) (accs : list Q) : list (Q * bool) :=
  match accs with
  | [] => []
  | a :: accs' => (a, snd (checkpoint last a)) :: policy (fst (checkpoint last a)) accs'
  end.

Fixpoint policy_last (last : Q) (accs : list Q) : Q :=
  match accs with
  | [] => last
  | a :: accs' => policy_last (fst (checkpoint last a)) accs'
  end.

(** The loss of a training batch, from the outputs of the network. *)
Definition blend (vae : bool) (b : Batch) (o : Fwd) : Q :=
  loss_total (losses_of train_blend vae b o).

(** Events that are neither a training pass, nor a report, nor a save. *)
Definition quiet (e : event) : bool :=
  match e with
  | Forward true _ _ => true
  | Plot _ _ _ => true
  | Print (Line _) => true
  | _ => false
  end.

Definition val_forward (e : event) : bool :=
  match e with Forward true _ _ => true | _ => false end.

(** The events of a save. *)
Definition save_events (saved : bool) (p : string) (sd : StateDict) (msg : string) : list event :=
  if saved then [TorchSave p sd; Print (Line msg)] else [].

(** The shape of a trace of the training loop, with the accumulators and
    the threshold it leads to: a step adds a forward and a backward pass; a
    validation adds its forward passes, the report of the averages of the
    accumulators, and the save if the policy says so, and clears the
    accumulators. *)
Inductive run_log (vae : bool) : list Z → list Q → Q → list event → Prop :=
  | log_nil : run_log vae [] [] 0 []
  | log_step acc_ loss_ last t b o :
      run_log vae acc_ loss_ last t →
      run_log vae (acc_ ++ hits b o) (loss_ ++ [blend vae b o]) last
        (t ++ [Forward false b o; Backward (blend vae b o)])
  | log_val acc_ loss_ last t vfs ep step la tla aa taa p sd msg :
      run_log vae acc_ loss_ last t →
      forallb val_forward vfs = true →
      (step mod 50 = 0)%nat →
      Num.averageQ loss_ = Ok la →
      Num.averageZ acc_ = Ok aa →
      0 <= taa <= 1 →
      run_log vae [] [] (fst (checkpoint last taa))
        (t ++ vfs ++ Print (TrainReport ep step la tla aa taa)
           :: save_events (snd (checkpoint last taa)) p sd msg).

(** *** Lists *)

Lemma app_eq_mid {A : Type} (l1 l2 t1 t2 : list A) (x : A) :
  l1 ++ l2 = t1 ++ x :: t2 →
  (∃ m, l1 = t1 ++ x :: m ∧ t2 = m ++ l2) ∨ (∃ m, t1 = l1 ++ m ∧ l2 = m ++ x :: t2).
Proof.
  revert t1. induction l1 as [|a l1 IH]; intros t1 E.
  - right. exists t1. now split.
  - destruct t1 as [|b t1]; cbn in E; injection E as -> E.
    + left. exists l1. now split.
    + destruct (IH t1 E) as [(m & -> & ->)|(m & -> & ->)].
      * left. now exists m.
      * right. now exists m.
Qed.

Lemma mid_unique {A : Type} (P : A → bool) (m t2 pre post : list A) (x y : A) :
  m ++ x :: t2 = pre ++ y :: post →
  P x = true →
  forallb (λ e, negb (P e)) pre = true →
  forallb (λ e, negb (P e)) post = true →
  m = pre ∧ x = y ∧ t2 = post.
Proof.
  intros E Hx Hpre Hpost. revert m E. induction pre as [|a pre IH]; intros m E.
  - destruct m as [|c m]; cbn in E; injection E as -> E; [now split|].
    exfalso. rewrite <- E, forallb_app in Hpost. cbn in Hpost.
    rewrite Hx in Hpost. cbn in Hpost. now rewrite andb_false_r in Hpost.
  - cbn in Hpre. apply andb_prop in Hpre as [Ha Hpre].
    destruct m as [|c m]; cbn in E; injection E as -> E.
    + rewrite Hx in Ha. discriminate.
    + destruct (IH Hpre m E) as (-> & -> & ->). now split.
Qed.

(** *** Training passes *)

Definition training (e : event) : bool :=
  match e with
  | Forward false _ _ => true
  | Backward _ => true
  | _ => false
  end.

Definition calm (l : list event) : Prop := forallb (λ e, negb (training e)) l = true.
Definition unreported (l : list event) : Prop := forallb (λ e, negb (is_report e)) l = true.

(** Every forward pass on a training batch is followed at once by the
    backward pass of the blend of its losses, and there is no other
    backward pass. *)
Definition passes_ok (vae : bool) (t : list event) : Prop :=
  (∀ t1 t2 b o, t = t1 ++ Forward false b o :: t2 →
     ∃ t3, t2 = Backward (blend vae b o) :: t3)
  ∧ (∀ t1 t2 x, t = t1 ++ Backward x :: t2 →
     ∃ t0 b o, t1 = t0 ++ [Forward false b o] ∧ x = blend vae b o).

Lemma calm_no_training (l m t2 : list event) (x : event) :
  calm l → l = m ++ x :: t2 → training x = false.
Proof.
  unfold calm. intros Hl ->. rewrite forallb_app in Hl. cbn in Hl.
  apply andb_prop in Hl as [_ Hl]. apply andb_prop in Hl as [Hl _].
  now apply negb_true_iff in Hl.
Qed.

Lemma passes_ok_nil (vae : bool) : passes_ok vae [].
Proof. split; intros [|? ?] * E; discriminate. Qed.

Lemma passes_ok_calm (vae : bool) (t l : list event) :
  passes_ok vae t → calm l → passes_ok vae (t ++ l).
Proof.
  intros [HF HB] Hl. split.
  - intros t1 t2 b o E. apply app_eq_mid in E as [(m & -> & ->)|(m & -> & E)].
    + destruct (HF _ _ _ _ eq_refl) as [t3 ->]. now exists (t3 ++ l).
    + now apply (calm_no_training _ _ _ _ Hl) in E.
  - intros t1 t2 x E. apply app_eq_mid in E as [(m & -> & ->)|(m & -> & E)].
    + exact (HB _ _ _ eq_refl).
    + now apply (calm_no_training _ _ _ _ Hl) in E.
Qed.

Lemma passes_ok_step (vae : bool) (t : list event) (b : Batch) (o : Fwd) :
  passes_ok vae t →
  passes_ok vae (t ++ [Forward false b o; Backward (blend vae b o)]).
Proof.
  intros [HF HB]. split.
  - intros t1 t2 b' o' E. apply app_eq_mid in E as [(m & -> & ->)|(m & -> & E)].
    + destruct (HF _ _ _ _ eq_refl) as [t3 ->]. eexists. reflexivity.
    + destruct m as [|e1 [|e2 [|e3 m]]]; cbn in E; try discriminate.
      injection E as -> -> <-. now eexists.
  - intros t1 t2 x E. apply app_eq_mid in E as [(m & -> & ->)|(m & -> & E)].
    + exact (HB _ _ _ eq_refl).
    + destruct m as [|e1 [|e2 [|e3 m]]]; cbn in E; try discriminate.
      injection E as <- <- <-. now exists t, b, o.
Qed.

Lemma val_forwards_calm (vfs : list event) :
  forallb val_forward vfs = true → calm vfs.
Proof.
  unfold calm. induction vfs as [|e vfs IH]; [reflexivity|]. cbn.
  intros Hv. apply andb_prop in Hv as [He Hv]. rewrite (IH Hv).
  now destruct e as [| [] | | | |].
Qed.

Lemma val_forwards_unreported (vfs : list event) :
  forallb val_forward vfs = true → unreported vfs.
Proof.
  unfold unreported. induction vfs as [|e vfs IH]; [reflexivity|]. cbn.
  intros Hv. apply andb_prop in Hv as [He Hv]. rewrite (IH Hv).
  now destruct e as [| [] | | | |].
Qed.

Lemma save_events_calm (saved : bool) (p : string) (sd : StateDict) (msg : string) :
  calm (save_events saved p sd msg).
Proof. now destruct saved. Qed.

Lemma save_events_unreported (saved : bool) (p : string) (sd : StateDict) (msg : string) :
  unreported (save_events saved p sd msg).
Proof. now destruct saved. Qed.

Lemma calm_app (l1 l2 : list event) : calm l1 → calm l2 → calm (l1 ++ l2).
Proof. unfold calm. intros H1 H2. now rewrite forallb_app, H1, H2. Qed.

Lemma unreported_app (l1 l2 : list event) :
  unreported l1 → unreported l2 → unreported (l1 ++ l2).
Proof. unfold unreported. intros H1 H2. now rewrite forallb_app, H1, H2. Qed.

Lemma run_log_passes (vae : bool) acc_ loss_ last (t : list event) :
  run_log vae acc_ loss_ last t → passes_ok vae t.
Proof.
  induction 1 as [| ? ? ? ? b o _ IH | ? ? ? ? vfs ? ? ? ? ? ? ? ? ? _ IH Hv _ _ _ _].
  - apply passes_ok_nil.
  - now apply passes_ok_step.
  - apply passes_ok_calm; [exact IH|].
    apply calm_app; [now apply val_forwards_calm|].
    unfold calm. cbn. apply save_events_calm.
Qed.

(** *** Windows *)

(** Every report comes at a step that is a multiple of 50 and shows the
    average of the losses back-propagated, and of the marks of the training
    passes, since the previous report. *)
Definition reports_ok (t : list event) : Prop :=
  ∀ t1 t2 ep step la tla aa taa,
    t = t1 ++ Print (TrainReport ep step la tla aa taa) :: t2 →
    (step mod 50 = 0)%nat
    ∧ Num.averageQ (backward_losses (window t1)) = Ok la
    ∧ Num.averageZ (train_hits (window t1)) = Ok aa.

Lemma window_fold (l w : list event) :
  unreported l → fold_left (λ w e, if is_report e then [] else w ++ [e]) l w = w ++ l.
Proof.
  unfold unreported. revert w. induction l as [|e l IH]; intros w Hl; cbn.
  - now rewrite app_nil_r.
  - cbn in Hl. apply andb_prop in Hl as [He Hl]. apply negb_true_iff in He.
    rewrite He, (IH _ Hl), <- app_assoc. reflexivity.
Qed.

Lemma window_app (t l : list event) : unreported l → window (t ++ l) = window t ++ l.
Proof. intros Hl. unfold window. rewrite fold_left_app. now apply window_fold. Qed.

Lemma window_report (t l : list event) (e : event) :
  is_report e = true → unreported l → window (t ++ e :: l) = l.
Proof.
  intros He Hl. unfold window. rewrite fold_left_app. cbn. rewrite He.
  now rewrite window_fold.
Qed.

Lemma backward_losses_app (l1 l2 : list event) :
  backward_losses (l1 ++ l2) = backward_losses l1 ++ backward_losses l2.
Proof. apply omap_app. Qed.

Lemma train_hits_app (l1 l2 : list event) :
  train_hits (l1 ++ l2) = train_hits l1 ++ train_hits l2.
Proof. unfold train_hits. now rewrite map_app, concat_app. Qed.

Lemma calm_backward_losses (l : list event) : calm l → backward_losses l = [].
Proof.
  unfold calm. induction l as [|e l IH]; [reflexivity|]. cbn.
  intros Hl. apply andb_prop in Hl as [He Hl].
  unfold backward_losses in *. cbn. rewrite (IH Hl).
  now destruct e as [| [] | | | |].
Qed.

Lemma calm_train_hits (l : list event) : calm l → train_hits l = [].
Proof.
  unfold calm. induction l as [|e l IH]; [reflexivity|]. cbn.
  intros Hl. apply andb_prop in Hl as [He Hl].
  unfold train_hits in *. cbn. rewrite (IH Hl).
  now destruct e as [| [] | | | |].
Qed.

Lemma reports_ok_nil : reports_ok [].
Proof. intros [|? ?] * E; discriminate. Qed.

Lemma unreported_no_report (l m t2 : list event) (x : event) :
  unreported l → l = m ++ x :: t2 → is_report x = false.
Proof.
  unfold unreported. intros Hl ->. rewrite forallb_app in Hl. cbn in Hl.
  apply andb_prop in Hl as [_ Hl]. apply andb_prop in Hl as [Hl _].
  now apply negb_true_iff in Hl.
Qed.

Lemma reports_ok_app (t l : list event) :
  reports_ok t → unreported l → reports_ok (t ++ l).
Proof.
  intros Ht Hl t1 t2 ep step la tla aa taa E.
  apply app_eq_mid in E as [(m & -> & ->)|(m & -> & E)].
  - exact (Ht _ _ _ _ _ _ _ _ eq_refl).
  - now apply (unreported_no_report _ _ _ _ Hl) in E.
Qed.

Lemma run_log_windows (vae : bool) acc_ loss_ thr (t : list event) :
  run_log vae acc_ loss_ thr t →
  acc_ = train_hits (window t) ∧ loss_ = backward_losses (window t) ∧ reports_ok t.
Proof.
  induction 1 as [| ? ? ? t b o _ (IHa & IHl & IHr)
                  | ? ? thr t vfs ep step la tla aa taa p sd msg _ (IHa & IHl & IHr)
                      Hv Hstep Hla Haa _].
  - split; [reflexivity|]. split; [reflexivity | apply reports_ok_nil].
  - rewrite window_app by reflexivity.
    rewrite train_hits_app, backward_losses_app, <- IHa, <- IHl.
    split; [|split].
    + unfold train_hits. cbn. now rewrite app_nil_r.
    + reflexivity.
    + now apply reports_ok_app.
  - pose proof (val_forwards_unreported _ Hv) as Hu.
    pose proof (save_events_unreported (snd (checkpoint thr taa)) p sd msg) as Hs.
    rewrite (List.app_assoc t vfs), window_report by (reflexivity || exact Hs).
    rewrite calm_train_hits, calm_backward_losses by apply save_events_calm.
    split; [reflexivity|]. split; [reflexivity|].
    rewrite <- (List.app_assoc t vfs).
    intros t1 t2 ep' step' la' tla' aa' taa' E.
    apply app_eq_mid in E as [(m & -> & ->)|(m & -> & E)].
    + exact (IHr _ _ _ _ _ _ _ _ eq_refl).
    + symmetry in E.
      apply (mid_unique is_report) in E as (-> & E & ->);
        [|reflexivity|exact Hu|exact Hs].
      injection E as -> -> -> -> -> ->.
      rewrite window_app by exact Hu.
      rewrite train_hits_app, backward_losses_app.
      rewrite (calm_train_hits vfs), (calm_backward_losses vfs)
        by now apply val_forwards_calm.
      rewrite !app_nil_r, <- IHa, <- IHl. now split.
Qed.

(** *** Decisions *)

Definition no_save_head (l : list event) : Prop :=
  match l with TorchSave _ _ :: _ => False | _ => True end.

Lemma decisions_app (t l : list event) :
  no_save_head l → decisions (t ++ l) = decisions t ++ decisions l.
Proof.
  intros Hl. induction t as [|e t IH]; [reflexivity|].
  cbn [app decisions]. rewrite IH.
  destruct e as [[]| | | | |]; try reflexivity.
  cbn [app]. f_equal. f_equal.
  destruct t as [|e' t]; [|reflexivity].
  cbn. now destruct l as [|[] l].
Qed.

Lemma unsaved_decisions (l : list event) :
  forallb (λ e, negb (is_report e)) l = true → decisions l = [].
Proof.
  induction l as [|e l IH]; [reflexivity|]. cbn [forallb].
  intros Hl. apply andb_prop in Hl as [He Hl].
  destruct e as [[]| | | | |]; cbn in *; try discriminate; now apply IH.
Qed.

Lemma policy_snoc (thr : Q) (accs : list Q) (a : Q) :
  policy thr (accs ++ [a]) = policy thr accs ++ [(a, snd (checkpoint (policy_last thr accs) a))]
  ∧ policy_last thr (accs ++ [a]) = fst (checkpoint (policy_last thr accs) a).
Proof.
  revert thr. induction accs as [|x accs IH]; intros thr; cbn; [now split|].
  destruct (IH (fst (checkpoint thr x))) as [-> ->]. now split.
Qed.

(** Every save comes right after a report. *)
Definition saves_ok (t : list event) : Prop :=
  ∀ t1 t2 p sd, t = t1 ++ TorchSave p sd :: t2 →
    ∃ t0 ep step la tla aa taa, t1 = t0 ++ [Print (TrainReport ep step la tla aa taa)].

Definition is_save (e : event) : bool :=
  match e with TorchSave _ _ => true | _ => false end.

Definition unsaved (l : list event) : Prop :=
  forallb (λ e, negb (is_save e)) l = true.

Lemma saves_ok_app (t l : list event) : saves_ok t → unsaved l → saves_ok (t ++ l).
Proof.
  intros Ht Hl t1 t2 p sd E.
  apply app_eq_mid in E as [(m & -> & ->)|(m & -> & E)].
  - exact (Ht _ _ _ _ eq_refl).
  - exfalso. unfold unsaved in Hl. rewrite E, forallb_app in Hl. cbn in Hl.
    now rewrite andb_false_r in Hl.
Qed.

Lemma val_forwards_unsaved (vfs : list event) :
  forallb val_forward vfs = true → unsaved vfs.
Proof.
  unfold unsaved. induction vfs as [|e vfs IH]; [reflexivity|]. cbn.
  intros Hv. apply andb_prop in Hv as [He Hv]. rewrite (IH Hv).
  now destruct e as [| [] | | | |].
Qed.

Lemma run_log_decisions (vae : bool) acc_ loss_ thr (t : list event) :
  run_log vae acc_ loss_ thr t →
  saves_ok t
  ∧ ∃ accs, decisions t = policy 0 accs ∧ thr = policy_last 0 accs
            ∧ Forall (λ a, 0 <= a <= 1) accs.
Proof.
  induction 1 as [| ? ? ? t b o _ (IHs & accs & IHd & IHt & IHb)
                  | ? ? thr t vfs ep step la tla aa taa p sd msg _
                      (IHs & accs & IHd & IHt & IHb) Hv _ _ _ Hbound].
  - split; [intros [|? ?] * E; discriminate|]. exists []. now repeat split.
  - split; [now apply saves_ok_app|].
    exists accs. rewrite decisions_app by exact I. cbn. now rewrite app_nil_r.
  - split.
    + intros t1 t2 p' sd' E.
      apply app_eq_mid in E as [(m & -> & ->)|(m & -> & E)];
        [exact (IHs _ _ _ _ eq_refl)|].
      pose proof (val_forwards_unsaved _ Hv) as Hu. unfold unsaved in Hu.
      destruct (snd (checkpoint thr taa)); cbn [save_events] in E.
      * change (vfs ++ Print (TrainReport ep step la tla aa taa)
                  :: [TorchSave p sd; Print (Line msg)])
          with (vfs ++ [Print (TrainReport ep step la tla aa taa)]
                  ++ TorchSave p sd :: [Print (Line msg)]) in E.
        rewrite (List.app_assoc vfs) in E. symmetry in E.
        apply (mid_unique is_save) in E as (-> & _ & _); [| reflexivity | | reflexivity].
        -- rewrite (List.app_assoc t vfs). now eexists _, _, _, _, _, _, _.
        -- rewrite forallb_app, Hu. reflexivity.
      * exfalso.
        apply (f_equal (forallb (λ e, negb (is_save e)))) in E.
        rewrite !forallb_app in E. cbn in E. rewrite Hu in E. cbn in E.
        now rewrite andb_false_r in E.
    + exists (accs ++ [taa]).
      destruct (policy_snoc 0 accs taa) as [-> ->]. rewrite <- IHt.
      split; [|split; [reflexivity|]].
      * rewrite decisions_app; [|destruct vfs as [|[] ?]; try exact I; discriminate].
        rewrite IHd. f_equal.
        rewrite decisions_app by exact I.
        rewrite (unsaved_decisions vfs) by now apply val_forwards_unreported.
        cbn. now destruct (snd (checkpoint thr taa)).
      * apply Forall_app. split; [exact IHb|]. now apply Forall_singleton.
Qed.

(** *** The policy, said without the threshold *)

(** The claim as the specification has it: the checkpoint is written iff the
    accuracy is at least every accuracy seen before. *)
Definition best_so_far (ds : list (Q * bool)) : Prop :=
  ∀ i a b, ds !! i = Some (a, b) →
    (b = true ↔
     ∀ j a' b', (j < i)%nat → ds !! j = Some (a', b') → a' <= a).

(** What the code does: the checkpoint is written iff the accuracy is at
    least every accuracy seen since the last accuracy equal to 1. *)
Definition best_since_perfect (ds : list (Q * bool)) : Prop :=
  ∀ i a b, ds !! i = Some (a, b) →
    (b = true ↔
     ∀ j a' b', (j < i)%nat → ds !! j = Some (a', b') →
       (∀ k a'' b'', (j ≤ k < i)%nat → ds !! k = Some (a'', b'') → ¬ a'' == 1) →
       a' <= a).

(** The threshold an accuracy is compared with. *)
Definition threshold (last : Q) : Q := if Qeq_bool last 1 then 0 else last.

Lemma checkpoint_threshold (last a : Q) :
  checkpoint last a = if Qle_bool (threshold last) a then (a, true) else (threshold last, false).
Proof. reflexivity. Qed.

Lemma threshold_idem (last : Q) : threshold (threshold last) = threshold last.
Proof.
  unfold threshold. destruct (Qeq_bool last 1) eqn:E; [reflexivity|]. now rewrite E.
Qed.

Lemma threshold_bounded (last : Q) : 0 <= last <= 1 → 0 <= threshold last <= 1.
Proof. unfold threshold. destruct (Qeq_bool last 1); [now split | tauto]. Qed.

Lemma threshold_of_imperfect (y : Q) : ¬ y == 1 → threshold y = y.
Proof.
  intros Hy. unfold threshold. destruct (Qeq_bool y 1) eqn:E; [|reflexivity].
  apply Qeq_bool_iff in E. contradiction.
Qed.

Lemma threshold_of_perfect (y : Q) : y == 1 → threshold y = 0.
Proof.
  intros Hy. unfold threshold. apply Qeq_bool_iff in Hy. now rewrite Hy.
Qed.

(** The accuracies of [accs] that count at its end: those with no accuracy
    equal to 1 from them on. *)
Definition counted (accs : list Q) (a : Q) : Prop :=
  ∀ j a', accs !! j = Some a' →
    (∀ k a'', (j ≤ k < length accs)%nat → accs !! k = Some a'' → ¬ a'' == 1) →
    a' <= a.

Lemma counted_snoc_perfect (ys : list Q) (y a : Q) : y == 1 → counted (ys ++ [y]) a.
Proof.
  intros Hy j a' Hj Hk. exfalso.
  apply (Hk (length ys) y); [| now rewrite lookup_app_r, Nat.sub_diag | exact Hy].
  apply lookup_lt_Some in Hj. rewrite length_app in *. cbn in *. lia.
Qed.

Lemma counted_snoc_imperfect (ys : list Q) (y a : Q) :
  ¬ y == 1 → (counted (ys ++ [y]) a ↔ y <= a ∧ counted ys a).
Proof.
  intros Hy. split.
  - intros Hc. split.
    + apply (Hc (length ys) y); [now rewrite lookup_app_r, Nat.sub_diag|].
      intros k a'' Hk Ha''. rewrite length_app in Hk. cbn in Hk.
      assert (k = length ys) as -> by lia.
      rewrite lookup_app_r, Nat.sub_diag in Ha'' by lia. now injection Ha'' as <-.
    + intros j a' Hj Hk. pose proof (lookup_lt_Some _ _ _ Hj) as Hlt.
      apply (Hc j a'); [now rewrite lookup_app_l|].
      intros k a'' Hr Ha''. rewrite length_app in Hr. cbn in Hr.
      destruct (decide (k < length ys)%nat) as [Hk'|Hk'].
      * rewrite lookup_app_l in Ha'' by exact Hk'. apply (Hk k a''); [lia | exact Ha''].
      * assert (k = length ys) as -> by lia.
        rewrite lookup_app_r, Nat.sub_diag in Ha'' by lia. now injection Ha'' as <-.
  - intros [Hya Hc] j a' Hj Hk.
    destruct (decide (j < length ys)%nat) as [Hlt|Hge].
    + rewrite lookup_app_l in Hj by exact Hlt. apply (Hc j a' Hj).
      intros k a'' Hr Ha''. apply (Hk k a''); [rewrite length_app; cbn; lia|].
      now rewrite lookup_app_l by lia.
    + pose proof (lookup_lt_Some _ _ _ Hj) as Hlt. rewrite length_app in Hlt. cbn in Hlt.
      assert (j = length ys) as -> by lia.
      rewrite lookup_app_r, Nat.sub_diag in Hj by lia. now injection Hj as <-.
Qed.

Lemma threshold_counted (accs : list Q) :
  Forall (λ a, 0 <= a <= 1) accs →
  0 <= policy_last 0 accs <= 1
  ∧ ∀ a, 0 <= a → (threshold (policy_last 0 accs) <= a ↔ counted accs a).
Proof.
  induction accs as [|y ys IH] using rev_ind; intros Hb.
  - split; [now split|]. intros a Ha. split; [|now intros _].
    intros _ j a' Hj. discriminate.
  - apply Forall_app in Hb as [Hys Hy]. apply Forall_inv in Hy.
    destruct (IH Hys) as [HL IHc]. clear IH.
    destruct (policy_snoc 0 ys y) as [_ ->].
    rewrite checkpoint_threshold.
    pose proof (threshold_bounded _ HL) as He.
    set (e := threshold (policy_last 0 ys)) in *.
    destruct (Qeq_dec y 1) as [Hp|Hp].
    + assert (Hle : Qle_bool e y = true).
      { apply Qle_bool_iff. rewrite Hp. apply He. }
      rewrite Hle. cbn [fst]. split; [exact Hy|]. intros a Ha.
      rewrite (threshold_of_perfect _ Hp). split; [|now intros _].
      intros _. now apply counted_snoc_perfect.
    + intros. destruct (Qle_bool e y) eqn:Hle; cbn [fst].
      * apply Qle_bool_iff in Hle. split; [exact Hy|]. intros a Ha.
        rewrite (threshold_of_imperfect _ Hp), (counted_snoc_imperfect _ _ _ Hp).
        rewrite <- (IHc a Ha). split; [|tauto].
        intros Hya. split; [exact Hya|]. now apply Qle_trans with y.
      * assert (Hlt : y < e).
        { apply Qnot_le_lt. intros Hc. apply Qle_bool_iff in Hc. congruence. }
        split; [exact He|]. intros a Ha. unfold e at 1. rewrite threshold_idem. fold e.
        rewrite (counted_snoc_imperfect _ _ _ Hp), <- (IHc a Ha).
        split; [|tauto]. intros Hea. split; [|exact Hea].
        apply Qle_trans with e; [now apply Qlt_le_weak | exact Hea].
Qed.

Lemma policy_fst (thr : Q) (accs : list Q) : map fst (policy thr accs) = accs.
Proof.
  revert thr. induction accs as [|a accs IH]; intros thr; cbn; [reflexivity|].
  now rewrite IH.
Qed.

Lemma policy_lookup (accs : list Q) (i : nat) (a : Q) (b : bool) :
  policy 0 accs !! i = Some (a, b) →
  accs !! i = Some a ∧ b = snd (checkpoint (policy_last 0 (take i accs)) a).
Proof.
  revert i. induction accs as [|y ys IH] using rev_ind; intros i Hi; [discriminate|].
  destruct (policy_snoc 0 ys y) as [Hp _]. rewrite Hp in Hi. clear Hp.
  assert (Hlen : length (policy 0 ys) = length ys).
  { rewrite <- (policy_fst 0 ys) at 2. now rewrite length_map. }
  destruct (decide (i < length ys)%nat) as [Hlt|Hge].
  - rewrite lookup_app_l in Hi by lia. destruct (IH i Hi) as [Ha Hb].
    rewrite lookup_app_l by exact Hlt. split; [exact Ha|].
    now rewrite take_app_le by lia.
  - pose proof (lookup_lt_Some _ _ _ Hi) as Hlt. rewrite length_app in Hlt. cbn in Hlt.
    assert (i = length ys) as -> by lia.
    rewrite lookup_app_r, Hlen, Nat.sub_diag in Hi by lia. injection Hi as <- <-.
    rewrite lookup_app_r, Nat.sub_diag by lia. split; [reflexivity|].
    now rewrite take_app_length.
Qed.

Lemma policy_lookup_fst (accs : list Q) (i : nat) (a : Q) :
  accs !! i = Some a → ∃ b, policy 0 accs !! i = Some (a, b).
Proof.
  intros Hi. rewrite <- (policy_fst 0 accs) in Hi.
  rewrite list_lookup_fmap in Hi.
  destruct (policy 0 accs !! i) as [[a' b]|]; [|discriminate].
  injection Hi as <-. now exists b.
Qed.

Lemma policy_best_since_perfect (accs : list Q) :
  Forall (λ a, 0 <= a <= 1) accs → best_since_perfect (policy 0 accs).
Proof.
  intros Hb i a b Hi. apply policy_lookup in Hi as [Hi ->].
  pose proof (lookup_lt_Some _ _ _ Hi) as Hlt.
  assert (Ha : 0 <= a <= 1).
  { apply (Forall_lookup_1 _ _ _ _ Hb Hi). }
  assert (Hpre : Forall (λ a, 0 <= a <= 1) (take i accs)) by now apply Forall_take.
  destruct (threshold_counted _ Hpre) as [_ Hc]. specialize (Hc a (proj1 Ha)).
  rewrite checkpoint_threshold.
  assert (Hs : (if Qle_bool (threshold (policy_last 0 (take i accs))) a
                then (a, true) else (threshold (policy_last 0 (take i accs)), false)).2 = true
               ↔ threshold (policy_last 0 (take i accs)) <= a).
  { rewrite <- Qle_bool_iff. now destruct (Qle_bool _ a). }
  rewrite Hs, Hc. clear Hs Hc. unfold counted. rewrite length_take, Nat.min_l by lia.
  split.
  - intros Hcount j a' b' Hj Hja Hk.
    apply policy_lookup in Hja as [Hja _].
    apply (Hcount j a'); [now rewrite lookup_take_lt|].
    intros k a'' Hr Hka. rewrite lookup_take_lt in Hka by lia.
    destruct (policy_lookup_fst _ _ _ Hka) as [b'' Hkb]. exact (Hk k a'' b'' Hr Hkb).
  - intros Hcount j a' Hja Hk.
    pose proof (lookup_lt_Some _ _ _ Hja) as Hj. rewrite length_take in Hj.
    rewrite lookup_take_lt in Hja by lia.
    destruct (policy_lookup_fst _ _ _ Hja) as [b' Hjb].
    apply (Hcount j a' b'); [lia | exact Hjb|].
    intros k a'' b'' Hr Hkb. apply policy_lookup in Hkb as [Hka _].
    apply (Hk k a''); [exact Hr|]. now rewrite lookup_take_lt by lia.
Qed.

(** *** Marks and their average *)

Definition zero_one (h : list Z) : Prop := Forall (λ z, z = 0%Z ∨ z = 1%Z) h.

Lemma marks_from_zero_one (i : nat) (pre y h : list Z) :
  Num.marks_from i pre y = Ok h → zero_one h.
Proof.
  revert i h. induction y as [|yi y IH]; intros i h E; cbn in E.
  - injection E as <-. constructor.
  - destruct (Num.index pre i) as [p|]; [|discriminate]. cbn in E.
    destruct (Num.marks_from (S i) pre y) as [r|] eqn:Er; [|discriminate]. cbn in E.
    injection E as <-. constructor; [|exact (IH _ _ Er)].
    destruct (p =? yi)%Z; [now right | now left].
Qed.

Lemma sumZ_from (h : list Z) (z : Z) : fold_left Z.add h z = (z + Num.sumZ h)%Z.
Proof.
  unfold Num.sumZ. revert z. induction h as [|x h IH]; intros z; cbn [fold_left]; [lia|].
  rewrite (IH (z + x)%Z), (IH (0 + x)%Z). lia.
Qed.

Lemma sumZ_zero_one (h : list Z) :
  zero_one h → (0 ≤ Num.sumZ h ≤ Z.of_nat (length h))%Z.
Proof.
  induction 1 as [|x h Hx _ IH]; [cbn; lia|].
  unfold Num.sumZ. cbn [fold_left length]. rewrite sumZ_from.
  destruct Hx as [-> | ->]; lia.
Qed.

Lemma averageZ_zero_one (h : list Z) (a : Q) :
  zero_one h → Num.averageZ h = Ok a → 0 <= a <= 1.
Proof.
  intros Hh. unfold Num.averageZ, Num.truediv.
  destruct (Z.of_nat (length h) =? 0)%Z eqn:E; [discriminate|].
  apply Z.eqb_neq in E. intros Ha. injection Ha as <-.
  pose proof (sumZ_zero_one h Hh) as [Hlo Hhi].
  assert (Hpos : 0 < inject_Z (Z.of_nat (length h))).
  { change 0 with (inject_Z 0). rewrite <- Zlt_Qlt. lia. }
  split.
  - apply Qle_shift_div_l; [exact Hpos|]. rewrite Qmult_0_l.
    change 0 with (inject_Z 0). now rewrite <- Zle_Qle.
  - apply Qle_shift_div_r; [exact Hpos|]. rewrite Qmult_1_l. now rewrite <- Zle_Qle.
Qed.

(** *** The validation loop *)

Definition with_events (l : list event) (s : state) : state :=
  mkState (self s) (mkWorld (fs (world s)) (trace (world s) ++ l)).

Lemma with_events_nil (s : state) : with_events [] s = s.
Proof. destruct s as [d [f t]]. unfold with_events. cbn. now rewrite app_nil_r. Qed.

Lemma with_events_app (l1 l2 : list event) (s : state) :
  with_events l2 (with_events l1 s) = with_events (l1 ++ l2) s.
Proof. unfold with_events. cbn. now rewrite <- app_assoc. Qed.

Lemma val_batch_eq (vae : bool) (acc_test : list Z) (test_loss : list Q) (ls : Losses)
    (b : Batch) (s : state) :
  val_batch vae (acc_test, test_loss, ls) b s =
  let o := forward (model (self s)) b in
  match Num.marks (argmax1 (label_output o)) (labels b) with
  | Ok hit =>
      (Ok (acc_test ++ hit, test_loss ++ [loss_total (losses_of val_blend vae b o)],
           losses_of val_blend vae b o),
       with_event (Forward true b o) s)
  | Raise e => (Raise e, with_event (Forward true b o) s)
  end.
Proof.
  unfold val_batch, emit. mrun.
  now destruct (Num.marks (argmax1 (label_output (forward (model (self s)) b))) (labels b)).
Qed.

Lemma val_loop (vae : bool) (bs : list Batch) (l : list Z * list Q * Losses) (s : state) :
  ∃ vfs,
    forallb val_forward vfs = true
    ∧ snd (foldM (val_batch vae) bs l s) = with_events vfs s
    ∧ match fst (foldM (val_batch vae) bs l s) with
      | Ok l' => val_batches vfs = bs ∧ (zero_one (fst (fst l)) → zero_one (fst (fst l')))
      | Raise _ => True
      end.
Proof.
  revert l s. induction bs as [|b bs IH]; intros [[acc_test test_loss] ls] s.
  - exists []. cbn. rewrite with_events_nil. repeat split. tauto.
  - set (o := forward (model (self s)) b).
    assert (E : foldM (val_batch vae) (b :: bs) (acc_test, test_loss, ls) s =
                match Num.marks (argmax1 (label_output o)) (labels b) with
                | Ok hit =>
                    foldM (val_batch vae) bs
                      (acc_test ++ hit,
                       test_loss ++ [loss_total (losses_of val_blend vae b o)],
                       losses_of val_blend vae b o)
                      (with_event (Forward true b o) s)
                | Raise e => (Raise e, with_event (Forward true b o) s)
                end).
    { cbn [foldM]. unfold bind. rewrite val_batch_eq. cbv zeta. fold o.
      now destruct (Num.marks (argmax1 (label_output o)) (labels b)). }
    rewrite E. clear E.
    destruct (Num.marks (argmax1 (label_output o)) (labels b)) as [hit|e] eqn:Em.
    + destruct (IH (acc_test ++ hit, test_loss ++ [loss_total (losses_of val_blend vae b o)],
                    losses_of val_blend vae b o)
                   (with_event (Forward true b o) s)) as (vfs & Hv & Hs & Hr).
      exists (Forward true b o :: vfs). split; [exact Hv|]. split.
      * rewrite Hs. apply (with_events_app [Forward true b o]).
      * destruct (fst (foldM _ bs _ _)) as [l'|]; [|exact I].
        destruct Hr as [Hb Hz]. split; [unfold val_batches in *; cbn; now rewrite Hb|].
        intros Hacc. apply Hz. cbn. apply Forall_app. split; [exact Hacc|].
        exact (marks_from_zero_one _ _ _ _ Em).
    + exists [Forward true b o]. repeat split.
Qed.

(** *** One step of the training loop *)

(** The state after the forward pass, the backward pass and the update. *)
Definition stepped (b : Batch) (s : state) : state :=
  let o := forward (model (self s)) b in
  let x := blend (is_vae (self s)) b o in
  with_model (optimizer_step (model (self s)) b x)
    (with_event (Backward x) (with_event (Forward false b o) s)).

Lemma train_step_eq (ep : nat) (l : Locals) (step : nat) (b : Batch) (s : state) :
  train_step ep l (step, b) s =
  let vae := is_vae (self s) in
  let o := forward (model (self s)) b in
  let ls := losses_of train_blend vae b o in
  match Num.marks (argmax1 (label_output o)) (labels b) with
  | Raise e => (Raise e, stepped b s)
  | Ok hit =>
      let l1 := mkLocals (acc l ++ hit) (loss l ++ [loss_total ls])
                  (train_vi l) (test_vi l) (last_test_accuracy l) in
      if (step mod 50 =? 0)%nat then validate vae ep step ls l1 (stepped b s)
      else (Ok l1, stepped b s)
  end.
Proof.
  unfold train_step, emit, set_model. mrun. cbv zeta.
  destruct (Num.marks _ (labels b)); [|reflexivity].
  now destruct (step mod 50 =? 0)%nat.
Qed.

Lemma validate_eq (vae : bool) (ep step : nat) (ls : Losses) (l : Locals) (s : state) :
  validate vae ep step ls l s =
  match foldM (val_batch vae) (next_batch_val_data ep step) ([], [], ls) s with
  | (Raise e, s3) => (Raise e, s3)
  | (Ok r, s3) =>
      match Num.averageZ (fst (fst r)) with
      | Raise e => (Raise e, s3)
      | Ok taa =>
      match Num.averageQ (snd (fst r)) with
      | Raise e => (Raise e, s3)
      | Ok tla =>
      match Num.averageQ (loss l) with
      | Raise e => (Raise e, s3)
      | Ok la =>
      match Num.averageZ (acc l) with
      | Raise e => (Raise e, s3)
      | Ok aa =>
          let s4 := with_event (Print (TrainReport ep step la tla aa taa)) s3 in
          let c := checkpoint (last_test_accuracy l) taa in
          match (if snd c then save_mode default_save_path else ret tt) s4 with
          | (Ok _, s5) =>
              (Ok (mkLocals [] []
                     (record_acc aa (record_losses vae ls (train_vi l)))
                     (record_acc taa (record_losses vae (snd r) (test_vi l)))
                     (fst c)), s5)
          | (Raise e, s5) => (Raise e, s5)
          end
      end end end end
  end.
Proof.
  unfold validate. unfold bind at 1.
  destruct (foldM _ _ _ s) as [[[[acc_test test_loss] ls_test]|e] s3]; [|reflexivity].
  cbn [fst snd]. unfold print, emit. mrun.
  destruct (Num.averageZ acc_test) as [taa|]; [|reflexivity].
  destruct (Num.averageQ test_loss) as [tla|]; [|reflexivity].
  destruct (Num.averageQ (loss l)) as [la|]; [|reflexivity].
  destruct (Num.averageZ (acc l)) as [aa|]; [|reflexivity].
  cbv zeta. destruct (checkpoint (last_test_accuracy l) taa) as [thr save].
  cbn [fst snd]. destruct save; [|reflexivity].
  now destruct (save_mode default_save_path _) as [[[]|] ?].
Qed.

(** What a validation leaves: its forward passes, then, unless an average
    could not be computed, the report and the save the policy asks for. *)
Lemma validate_log (vae : bool) (ep step : nat) (ls : Losses) (l : Locals) (s : state) :
  match validate vae ep step ls l s with
  | (Ok l', s') =>
      self s' = self s ∧ acc l' = [] ∧ loss l' = []
      ∧ ∃ vfs la tla aa taa p sd msg,
          forallb val_forward vfs = true
          ∧ val_batches vfs = next_batch_val_data ep step
          ∧ trace (world s') =
              trace (world s) ++ vfs ++ Print (TrainReport ep step la tla aa taa)
                :: save_events (snd (checkpoint (last_test_accuracy l) taa)) p sd msg
          ∧ last_test_accuracy l' = fst (checkpoint (last_test_accuracy l) taa)
          ∧ Num.averageQ (loss l) = Ok la
          ∧ Num.averageZ (acc l) = Ok aa
          ∧ 0 <= taa <= 1
  | (Raise _, s') =>
      self s' = self s
      ∧ ∃ vfs, forallb val_forward vfs = true ∧ trace (world s') = trace (world s) ++ vfs
  end.
Proof.
  rewrite validate_eq.
  destruct (val_loop vae (next_batch_val_data ep step) ([], [], ls) s)
    as (vfs & Hv & Hs & Hr).
  destruct (foldM _ _ _ s) as [[r|e] s3]; cbn [fst snd] in Hs, Hr; subst s3;
    [|split; [reflexivity | now exists vfs]].
  destruct Hr as [Hb Hz]. specialize (Hz (List.Forall_nil _)).
  destruct (Num.averageZ (fst (fst r))) as [taa|] eqn:Etaa;
    [|split; [reflexivity | now exists vfs]].
  pose proof (averageZ_zero_one _ _ Hz Etaa) as Hbound.
  destruct (Num.averageQ (snd (fst r))) as [tla|];
    [|split; [reflexivity | now exists vfs]].
  destruct (Num.averageQ (loss l)) as [la|] eqn:Ela;
    [|split; [reflexivity | now exists vfs]].
  destruct (Num.averageZ (acc l)) as [aa|] eqn:Eaa;
    [|split; [reflexivity | now exists vfs]].
  cbv zeta.
  set (s4 := with_event (Print (TrainReport ep step la tla aa taa)) (with_events vfs s)).
  destruct (snd (checkpoint (last_test_accuracy l) taa)) eqn:Esave.
  - destruct (save_mode_default s4) as [files ->].
    split; [reflexivity|]. split; [reflexivity|]. split; [reflexivity|].
    exists vfs, la, tla, aa, taa. eexists _, _, _.
    split; [exact Hv|]. split; [exact Hb|]. split.
    + rewrite ?Esave. cbn. rewrite <- !app_assoc. reflexivity.
    + now repeat split.
  - split; [reflexivity|]. split; [reflexivity|]. split; [reflexivity|].
    exists vfs, la, tla, aa, taa, "", (state_dict (model (self s))), "".
    split; [exact Hv|]. split; [exact Hb|]. split.
    + rewrite ?Esave. cbn. rewrite <- !app_assoc. reflexivity.
    + now repeat split.
Qed.

Lemma stepped_trace (b : Batch) (s : state) :
  trace (world (stepped b s)) =
  trace (world s) ++ [Forward false b (forward (model (self s)) b);
                      Backward (blend (is_vae (self s)) b (forward (model (self s)) b))].
Proof. unfold stepped. cbn. now rewrite <- app_assoc. Qed.

(** A trace of the loop that may end in the middle of a validation, or with
    the plots. *)
Definition partial_log (vae : bool) (t' : list event) : Prop :=
  ∃ acc_ loss_ thr t q,
    t' = t ++ q ∧ run_log vae acc_ loss_ thr t ∧ forallb quiet q = true.

Lemma val_forwards_quiet (vfs : list event) :
  forallb val_forward vfs = true → forallb quiet vfs = true.
Proof.
  induction vfs as [|e vfs IH]; [reflexivity|]. cbn.
  intros Hv. apply andb_prop in Hv as [He Hv]. rewrite (IH Hv).
  now destruct e as [| [] | | | |].
Qed.

Lemma val_forwards_no_points (vfs : list event) :
  forallb val_forward vfs = true → report_points vfs = [] ∧ train_batches vfs = [].
Proof.
  unfold report_points, train_batches.
  induction vfs as [|e vfs IH]; [now split|]. cbn.
  intros Hv. apply andb_prop in Hv as [He Hv]. destruct (IH Hv) as [-> ->].
  now destruct e as [| [] | | | |].
Qed.

Lemma save_events_no_points (saved : bool) (p : string) (sd : StateDict) (msg : string) :
  report_points (save_events saved p sd msg) = []
  ∧ train_batches (save_events saved p sd msg) = []
  ∧ val_batches (save_events saved p sd msg) = [].
Proof. now destruct saved. Qed.

Lemma report_points_app (l1 l2 : list event) :
  report_points (l1 ++ l2) = report_points l1 ++ report_points l2.
Proof. apply omap_app. Qed.

Lemma val_batches_app (l1 l2 : list event) :
  val_batches (l1 ++ l2) = val_batches l1 ++ val_batches l2.
Proof. apply omap_app. Qed.

Lemma train_batches_app (l1 l2 : list event) :
  train_batches (l1 ++ l2) = train_batches l1 ++ train_batches l2.
Proof. apply omap_app. Qed.

Lemma val_segment_points (vfs : list event) (ep step : nat) (la tla aa taa : Q)
    (saved : bool) (p : string) (sd : StateDict) (msg : string) :
  forallb val_forward vfs = true →
  report_points (vfs ++ Print (TrainReport ep step la tla aa taa)
                   :: save_events saved p sd msg) = [(ep, step)]
  ∧ val_batches (vfs ++ Print (TrainReport ep step la tla aa taa)
                   :: save_events saved p sd msg) = val_batches vfs
  ∧ train_batches (vfs ++ Print (TrainReport ep step la tla aa taa)
                     :: save_events saved p sd msg) = [].
Proof.
  intros Hv. destruct (val_forwards_no_points _ Hv) as [Hrp Htb].
  rewrite report_points_app, val_batches_app, train_batches_app, Hrp, Htb.
  destruct saved; cbn; now rewrite app_nil_r.
Qed.

Lemma train_step_log (vae : bool) (ep : nat) (l : Locals) (step : nat) (b : Batch) (s : state) :
  is_vae (self s) = vae →
  run_log vae (acc l) (loss l) (last_test_accuracy l) (trace (world s)) →
  match train_step ep l (step, b) s with
  | (Ok l', s') =>
      is_vae (self s') = vae ∧ epoch (self s') = epoch (self s)
      ∧ run_log vae (acc l') (loss l') (last_test_accuracy l') (trace (world s'))
      ∧ report_points (trace (world s')) =
          report_points (trace (world s))
          ++ (if (step mod 50 =? 0)%nat then [(ep, step)] else [])
      ∧ val_batches (trace (world s')) =
          val_batches (trace (world s))
          ++ (if (step mod 50 =? 0)%nat then next_batch_val_data ep step else [])
      ∧ train_batches (trace (world s')) = train_batches (trace (world s)) ++ [b]
  | (Raise _, s') => partial_log vae (trace (world s'))
  end.
Proof.
  intros Hvae Hlog. rewrite train_step_eq. cbv zeta. rewrite Hvae.
  pose proof (stepped_trace b s) as Htr. rewrite Hvae in Htr.
  set (o := forward (model (self s)) b) in *.
  assert (Hlog1 : run_log vae (acc l ++ hits b o) (loss l ++ [blend vae b o])
                    (last_test_accuracy l) (trace (world (stepped b s)))).
  { rewrite Htr. now apply log_step. }
  assert (Hself : is_vae (self (stepped b s)) = vae ∧ epoch (self (stepped b s)) = epoch (self s))
    by (split; [exact Hvae | reflexivity]).
  unfold hits in Hlog1.
  destruct (Num.marks (argmax1 (label_output o)) (labels b)) as [hit|e].
  2: { exists (acc l ++ []), (loss l ++ [blend vae b o]), (last_test_accuracy l),
         (trace (world (stepped b s))), [].
       now rewrite app_nil_r. }
  destruct (step mod 50 =? 0)%nat eqn:Estep.
  - apply Nat.eqb_eq in Estep.
    set (l1 := mkLocals (acc l ++ hit) (loss l ++ [loss_total (losses_of train_blend vae b o)])
                 (train_vi l) (test_vi l) (last_test_accuracy l)).
    pose proof (validate_log vae ep step (losses_of train_blend vae b o) l1 (stepped b s)) as V.
    destruct (validate vae ep step _ l1 (stepped b s)) as [[l'|e] s'].
    + destruct V as (Hs & Ha & Hl & vfs & la & tla & aa & taa & p & sd & msg
                     & Hv & Hb & Ht & Hthr & Hla & Haa & Hbound).
      rewrite Hs, Ha, Hl, Hthr, Ht. split; [apply Hself|]. split; [apply Hself|].
      destruct (val_segment_points vfs ep step la tla aa taa
                  (snd (checkpoint (last_test_accuracy l1) taa)) p sd msg Hv)
        as (Hsr & Hsv & Hst).
      split.
      { eapply log_val;
          [exact Hlog1 | exact Hv | exact Estep | exact Hla | exact Haa | exact Hbound]. }
      rewrite Htr.
      rewrite (report_points_app (_ ++ _)), (val_batches_app (_ ++ _)),
        (train_batches_app (_ ++ _)).
      rewrite Hsr, Hsv, Hst, Hb.
      rewrite report_points_app, val_batches_app, train_batches_app.
      cbn. rewrite !app_nil_r. split; [reflexivity|]. split; reflexivity.
    + destruct V as (Hs & vfs & Hv & Ht).
      exists (acc l1), (loss l1), (last_test_accuracy l1), (trace (world (stepped b s))), vfs.
      split; [exact Ht|]. split; [exact Hlog1 | now apply val_forwards_quiet].
  - split; [apply Hself|]. split; [apply Hself|]. split; [exact Hlog1|].
    rewrite Htr, report_points_app, val_batches_app, train_batches_app.
    cbn. now rewrite !app_nil_r.
Qed.

(** *** The loops *)

(** The steps of an epoch of [n] batches at which a validation is due, and
    the validation points of a whole run. *)
Definition val_steps (n : nat) : list nat :=
  filter (λ step, (step mod 50 = 0)%nat) (seq 0 n).

Definition val_points (d : Dan) : list (nat * nat) :=
  concat (map (λ ep, map (λ step, (ep, step)) (val_steps (length (train_data_loader ep))))
              (seq 0 (epoch d))).

Lemma enumerate_fst {A : Type} (xs : list A) : map fst (enumerate xs) = seq 0 (length xs).
Proof. unfold enumerate. apply fst_zip. now rewrite length_seq. Qed.

Lemma enumerate_snd {A : Type} (xs : list A) : map snd (enumerate xs) = xs.
Proof. unfold enumerate. apply snd_zip. now rewrite length_seq. Qed.

Lemma train_epoch_log (vae : bool) (ep : nat) (l : Locals) (s : state) :
  is_vae (self s) = vae →
  run_log vae (acc l) (loss l) (last_test_accuracy l) (trace (world s)) →
  match train_epoch l ep s with
  | (Ok l', s') =>
      is_vae (self s') = vae ∧ epoch (self s') = epoch (self s)
      ∧ run_log vae (acc l') (loss l') (last_test_accuracy l') (trace (world s'))
      ∧ report_points (trace (world s')) =
          report_points (trace (world s))
          ++ map (λ step, (ep, step)) (val_steps (length (train_data_loader ep)))
      ∧ val_batches (trace (world s')) =
          val_batches (trace (world s))
          ++ concat (map (next_batch_val_data ep) (val_steps (length (train_data_loader ep))))
      ∧ train_batches (trace (world s')) =
          train_batches (trace (world s)) ++ train_data_loader ep
  | (Raise _, s') => partial_log vae (trace (world s'))
  end.
Proof.
  intros Hvae Hlog. unfold train_epoch.
  set (due := λ pre : list (nat * Batch),
         filter (λ step, (step mod 50 = 0)%nat) (map fst pre)).
  set (P := λ (pre : list (nat * Batch)) (l' : Locals) (s' : state),
    is_vae (self s') = vae ∧ epoch (self s') = epoch (self s)
    ∧ run_log vae (acc l') (loss l') (last_test_accuracy l') (trace (world s'))
    ∧ report_points (trace (world s')) =
        report_points (trace (world s)) ++ map (λ step, (ep, step)) (due pre)
    ∧ val_batches (trace (world s')) =
        val_batches (trace (world s)) ++ concat (map (next_batch_val_data ep) (due pre))
    ∧ train_batches (trace (world s')) = train_batches (trace (world s)) ++ map snd pre).
  assert (Hinit : P [] l s).
  { unfold P, due. cbn. rewrite !app_nil_r. now repeat split. }
  assert (Hstep : ∀ pre x post l1 s1,
     enumerate (train_data_loader ep) = pre ++ x :: post → P pre l1 s1 →
     match train_step ep l1 x s1 with
     | (Ok l', s') => P (pre ++ [x]) l' s'
     | (Raise _, s') => partial_log vae (trace (world s'))
     end).
  { intros pre [step b] post l1 s1 _ (Hv1 & He1 & Hl1 & Hr1 & Hb1 & Ht1).
    pose proof (train_step_log vae ep l1 step b s1 Hv1 Hl1) as T.
    destruct (train_step ep l1 (step, b) s1) as [[l'|e] s']; [|exact T].
    destruct T as (Hv' & He' & Hl' & Hr' & Hb' & Ht').
    unfold P, due. rewrite map_app, filter_app, !map_app, concat_app.
    cbn [map fst snd]. rewrite Hr', Hb', Ht', Hr1, Hb1, Ht1, <- !app_assoc.
    split; [exact Hv'|]. split; [congruence|]. split; [exact Hl'|].
    unfold filter. cbn [list_filter].
    destruct (decide (step mod 50 = 0)%nat) as [Hd|Hd].
    - rewrite (proj2 (Nat.eqb_eq _ _) Hd). cbn. rewrite app_nil_r. now repeat split.
    - rewrite (proj2 (Nat.eqb_neq _ _) Hd). now repeat split. }
  pose proof (foldM_rule (train_step ep) P (λ s', partial_log vae (trace (world s')))
                (enumerate (train_data_loader ep)) Hstep l s Hinit) as R.
  destruct (foldM _ _ l s) as [[l'|e] s']; [|exact R].
  unfold P, due in R. now rewrite enumerate_fst, enumerate_snd in R.
Qed.

(** The loop over the epochs, from a state with an empty trace. *)
Lemma train_epochs_log (d : Dan) (files : gmap string file) :
  match foldM train_epoch (seq 0 (epoch d)) init_locals (mkState d (mkWorld files [])) with
  | (Ok l', s') =>
      is_vae (self s') = is_vae d
      ∧ (∃ acc_ loss_ thr, run_log (is_vae d) acc_ loss_ thr (trace (world s')))
      ∧ report_points (trace (world s')) = val_points d
      ∧ val_batches (trace (world s')) =
          concat (map (λ p, next_batch_val_data (fst p) (snd p)) (val_points d))
      ∧ train_batches (trace (world s')) =
          concat (map train_data_loader (seq 0 (epoch d)))
  | (Raise _, s') => partial_log (is_vae d) (trace (world s'))
  end.
Proof.
  set (vae := is_vae d). set (s0 := mkState d (mkWorld files [])).
  set (points := λ pre : list nat,
    concat (map (λ ep, map (λ step, (ep, step)) (val_steps (length (train_data_loader ep))))
                pre)).
  set (P := λ (pre : list nat) (l' : Locals) (s' : state),
    is_vae (self s') = vae ∧ epoch (self s') = epoch d
    ∧ run_log vae (acc l') (loss l') (last_test_accuracy l') (trace (world s'))
    ∧ report_points (trace (world s')) = points pre
    ∧ val_batches (trace (world s')) =
        concat (map (λ p, next_batch_val_data (fst p) (snd p)) (points pre))
    ∧ train_batches (trace (world s')) = concat (map train_data_loader pre)).
  assert (Hinit : P [] init_locals s0).
  { unfold P. cbn. repeat split. constructor. }
  assert (Hstep : ∀ pre ep post l1 s1,
     seq 0 (epoch d) = pre ++ ep :: post → P pre l1 s1 →
     match train_epoch l1 ep s1 with
     | (Ok l', s') => P (pre ++ [ep]) l' s'
     | (Raise _, s') => partial_log vae (trace (world s'))
     end).
  { intros pre ep post l1 s1 _ (Hv1 & He1 & Hl1 & Hr1 & Hb1 & Ht1).
    pose proof (train_epoch_log vae ep l1 s1 Hv1 Hl1) as T.
    destruct (train_epoch l1 ep s1) as [[l'|e] s']; [|exact T].
    destruct T as (Hv' & He' & Hl' & Hr' & Hb' & Ht').
    unfold P, points. rewrite !map_app, !concat_app. cbn [map concat].
    rewrite !app_nil_r, map_app, concat_app, map_map. cbn [fst snd].
    rewrite Hr', Hb', Ht', Hr1, Hb1, Ht1.
    split; [exact Hv'|]. split; [congruence|]. now repeat split. }
  pose proof (foldM_rule train_epoch P (λ s', partial_log vae (trace (world s')))
                (seq 0 (epoch d)) Hstep init_locals s0 Hinit) as R.
  destruct (foldM _ _ init_locals s0) as [[l'|e] s']; [|exact R].
  destruct R as (Hv & _ & Hl & Hr & Hb & Ht).
  split; [exact Hv|]. split; [eauto|]. now repeat split.
Qed.

(** *** The whole of [train] *)

(** A run of [train] on the object [d], in a world with the files [files]
    and nothing printed yet: how it ends and the trace it leaves. *)
Definition train_result (d : Dan) (files : gmap string file) : res unit :=
  fst (train (mkState d (mkWorld files []))).

Definition train_trace (d : Dan) (files : gmap string file) : list event :=
  trace (world (snd (train (mkState d (mkWorld files []))))).

(** The events of the two plots at the end. *)
Definition plots (d : Dan) (l : Locals) : list event :=
  [Plot ("./draw/train_loss_" +:+ encoder_name d +:+ ".png") "training information"
     (curves_of (is_vae d) (train_vi l));
   Print (Line "The Picture has been saved.");
   Plot ("./draw/test_loss_" +:+ encoder_name d +:+ ".png") "validation information"
     (curves_of (is_vae d) (test_vi l));
   Print (Line "The Picture has been saved.")].

Lemma train_eq (d : Dan) (files : gmap string file) :
  train (mkState d (mkWorld files [])) =
  match foldM train_epoch (seq 0 (epoch d)) init_locals (mkState d (mkWorld files [])) with
  | (Ok l, s') => (Ok tt, with_events (plots d l) s')
  | (Raise e, s') => (Raise e, s')
  end.
Proof.
  unfold train. unfold bind at 1. unfold gets at 1. cbn [self fst snd]. unfold bind at 1.
  destruct (foldM train_epoch _ _ _) as [[l|e] s']; [|reflexivity].
  unfold draw_loss_plt, print, emit. mrun. cbn.
  unfold with_event, with_events, plots. cbn. now rewrite <- !app_assoc.
Qed.

Lemma train_log (d : Dan) (files : gmap string file) :
  partial_log (is_vae d) (train_trace d files)
  ∧ (train_result d files = Ok tt →
     report_points (train_trace d files) = val_points d
     ∧ val_batches (train_trace d files) =
         concat (map (λ p, next_batch_val_data (fst p) (snd p)) (val_points d))
     ∧ train_batches (train_trace d files) =
         concat (map train_data_loader (seq 0 (epoch d)))).
Proof.
  unfold train_result, train_trace. rewrite train_eq.
  pose proof (train_epochs_log d files) as R.
  destruct (foldM train_epoch (seq 0 (epoch d)) init_locals (mkState d (mkWorld files [])))
    as [[l|e] s']; cbn [fst snd].
  2: { split; [exact R | discriminate]. }
  destruct R as (_ & (acc_ & loss_ & thr & Hlog) & Hr & Hb & Ht).
  cbn [with_events world trace].
  split.
  - exists acc_, loss_, thr, (trace (world s')), (plots d l). split; [reflexivity|].
    split; [exact Hlog | reflexivity].
  - intros _. rewrite report_points_app, val_batches_app, train_batches_app.
    rewrite Hr, Hb, Ht. cbn. rewrite !app_nil_r. now repeat split.
Qed.

Lemma quiet_calm (q : list event) : forallb quiet q = true → calm q.
Proof.
  unfold calm. induction q as [|e q IH]; [reflexivity|]. cbn.
  intros Hq. apply andb_prop in Hq as [He Hq]. rewrite (IH Hq).
  now destruct e as [[]| [] | | | |].
Qed.

Lemma quiet_unreported (q : list event) : forallb quiet q = true → unreported q.
Proof.
  unfold unreported. induction q as [|e q IH]; [reflexivity|]. cbn.
  intros Hq. apply andb_prop in Hq as [He Hq]. rewrite (IH Hq).
  now destruct e as [[]| [] | | | |].
Qed.

Lemma quiet_unsaved (q : list event) : forallb quiet q = true → unsaved q.
Proof.
  unfold unsaved. induction q as [|e q IH]; [reflexivity|]. cbn.
  intros Hq. apply andb_prop in Hq as [He Hq]. rewrite (IH Hq).
  now destruct e as [[]| [] | | | |].
Qed.

(** The loss of a training batch in the words of the specification. *)
Definition spec_blend (d : Dan) (b : Batch) (o : Fwd) : Q :=
  let label_loss := loss_func (label_output o) (labels b) in
  let domain_loss := loss_func_domain (domain_output o) in
  let vae_loss := fwd_loss_vae o in
  if String.eqb (encoder_name d) "vae"
  then (label_loss + domain_loss + vae_loss) / 3
  else (4 # 10) * label_loss + (6 # 10) * domain_loss.

(** C3.  In a run of [train], whether it ends normally or not:
    - every forward pass on a training batch is followed at once by the
      backward pass of the blend of its losses: (label loss + domain loss +
      VAE loss) / 3 when the encoder is [vae], 0.4 * label loss + 0.6 *
      domain loss otherwise;
    - there is no other backward pass;
    - when the run ends normally, the batches that went through this are the
      batches of the training loader, epoch after epoch. *)
Theorem train_backpropagates_blend (d : Dan) (files : gmap string file) :
  (∀ t1 t2 b o, train_trace d files = t1 ++ Forward false b o :: t2 →
     ∃ t3, t2 = Backward (spec_blend d b o) :: t3)
  ∧ (∀ t1 t2 x, train_trace d files = t1 ++ Backward x :: t2 →
     ∃ t0 b o, t1 = t0 ++ [Forward false b o] ∧ x = spec_blend d b o)
  ∧ (train_result d files = Ok tt →
     train_batches (train_trace d files) =
       concat (map train_data_loader (seq 0 (epoch d)))).
Proof.
  destruct (train_log d files) as [(acc_ & loss_ & thr & t & q & Ht & Hlog & Hq) Hok].
  pose proof (passes_ok_calm _ _ _ (run_log_passes _ _ _ _ _ Hlog) (quiet_calm _ Hq)) as [HF HB].
  rewrite <- Ht in HF, HB.
  split; [exact HF|]. split; [exact HB|].
  intros Hr. now apply Hok.
Qed.

(** C8.  In a run of [train], whether it ends normally or not, every report
    comes at a step whose index in its epoch is a multiple of 50, and the
    training loss and the training accuracy it shows are the averages over
    the training passes since the previous report (since the start for the
    first one): the accumulators were cleared at the previous report.
    When the run ends normally, the reports are exactly those of the steps
    0, 50, 100, ... of each epoch, in order, and the batches that went
    through the network without gradient are those of the validation passes
    at these points. *)
Theorem validation_every_50_steps (d : Dan) (files : gmap string file) :
  (∀ t1 t2 ep step la tla aa taa,
     train_trace d files = t1 ++ Print (TrainReport ep step la tla aa taa) :: t2 →
     (step mod 50 = 0)%nat
     ∧ Num.averageQ (backward_losses (window t1)) = Ok la
     ∧ Num.averageZ (train_hits (window t1)) = Ok aa)
  ∧ (train_result d files = Ok tt →
     report_points (train_trace d files) = val_points d
     ∧ val_batches (train_trace d files) =
         concat (map (λ p, next_batch_val_data (fst p) (snd p)) (val_points d))).
Proof.
  destruct (train_log d files) as [(acc_ & loss_ & thr & t & q & Ht & Hlog & Hq) Hok].
  destruct (run_log_windows _ _ _ _ _ Hlog) as (_ & _ & Hr).
  pose proof (reports_ok_app _ _ Hr (quiet_unreported _ Hq)) as Hr'.
  rewrite <- Ht in Hr'. split; [exact Hr'|].
  intros Hres. destruct (Hok Hres) as (Hp & Hb & _). now split.
Qed.

(** C1, as the code has it.  In a run of [train], whether it ends normally
    or not, the checkpoint is written right after a report iff the
    validation accuracy of the report is at least every validation accuracy
    reported since the last one that was equal to 1 (every earlier one if
    none was); and the checkpoint is written at no other moment. *)
Theorem checkpoint_best_since_perfect (d : Dan) (files : gmap string file) :
  best_since_perfect (decisions (train_trace d files))
  ∧ saves_ok (train_trace d files).
Proof.
  destruct (train_log d files) as [(acc_ & loss_ & thr & t & q & Ht & Hlog & Hq) _].
  destruct (run_log_decisions _ _ _ _ _ Hlog) as (Hs & accs & Hd & _ & Hb).
  rewrite Ht. split.
  - rewrite decisions_app.
    + rewrite (unsaved_decisions q) by now apply quiet_unreported.
      rewrite app_nil_r, Hd. now apply policy_best_since_perfect.
    + destruct q as [|[] q]; try exact I. discriminate.
  - apply saves_ok_app; [exact Hs | now apply quiet_unsaved].
Qed.

End TrainTrace.

(** * The properties on the small instance *)

Module Examples.

Import Demo.

Local Open Scope Q_scope.

(** Two epochs of one batch each: the first validation is perfect, the second
    gets one sample out of two right, and both write the checkpoint. *)
Example two_epochs_decisions :
  decisions (train_trace (dan 2) ∅) = [(2 # 2, true); (1 # 2, true)].
Proof. vm_compute. reflexivity. Qed.

(** C1 fails as it is stated: the second checkpoint is written although the
    accuracy 1/2 is below the earlier accuracy 1. *)
Lemma checkpoint_not_best_so_far :
  ¬ best_so_far (decisions (train_trace (dan 2) ∅)).
Proof.
  rewrite two_epochs_decisions. intros Hbest.
  destruct (Hbest 1%nat (1 # 2) true eq_refl) as [Hsaved _].
  specialize (Hsaved eq_refl 0%nat (2 # 2) true (Nat.lt_0_1) eq_refl).
  revert Hsaved. unfold Qle. cbn. lia.
Qed.

Lemma checkpoint_best_since_perfect_witness :
  decisions (train_trace (dan 2) ∅) !! 1%nat = Some (1 # 2, true)
  ∧ ∀ j a' b', (j < 1)%nat →
      decisions (train_trace (dan 2) ∅) !! j = Some (a', b') →
      (∀ k a'' b'', (j ≤ k < 1)%nat →
         decisions (train_trace (dan 2) ∅) !! k = Some (a'', b'') → ¬ a'' == 1) →
      a' <= 1 # 2.
Proof.
  assert (E : decisions (train_trace (dan 2) ∅) !! 1%nat = Some (1 # 2, true))
    by (vm_compute; reflexivity).
  split; [exact E|].
  exact (proj1 (proj1 (checkpoint_best_since_perfect (dan 2) ∅) 1%nat (1 # 2) true E) eq_refl).
Defined.

Lemma train_backpropagates_blend_witness :
  train_result (dan 2) ∅ = Ok tt
  ∧ train_batches (train_trace (dan 2) ∅) = [half; half].
Proof.
  assert (E : train_result (dan 2) ∅ = Ok tt) by (vm_compute; reflexivity).
  split; [exact E|].
  exact (proj2 (proj2 (train_backpropagates_blend (dan 2) ∅)) E).
Defined.

Lemma validation_every_50_steps_witness :
  train_result (dan 2) ∅ = Ok tt
  ∧ report_points (train_trace (dan 2) ∅) = [(0, 0); (1, 0)]%nat
  ∧ val_batches (train_trace (dan 2) ∅) = [perfect; half].
Proof.
  assert (E : train_result (dan 2) ∅ = Ok tt) by (vm_compute; reflexivity).
  split; [exact E|].
  exact (proj2 (validation_every_50_steps (dan 2) ∅) E).
Defined.

(** C2 fails on the code: on a file that yields one batch of two segments,
    [prediction_real_data] raises [TypeError] at [len(accuracy)], before the
    log line and the CSV rows are written. *)
Theorem prediction_real_data_type_error :
  prediction_real_data "f.edf" "pre_seizure" "out.csv" 15 "cfg.json" (start 1)
  = (Raise TypeError, start 1).
Proof. vm_compute. reflexivity. Qed.

(** An object after [self.result = collections.defaultdict(list)]. *)
Definition tested (d : list (Z * list Z)) : state := with_result d (start 1).

Lemma segment_statistic_appends_witness :
  result (self (tested [])) = Some []
  ∧ length [1; 1]%Z = length [1; 0]%Z
  ∧ length [700; 1200]%Z = length [1; 0]%Z
  ∧ ∃ d', segment_statistic [1; 0]%Z [1; 1]%Z [700; 1200]%Z (tested [])
          = (Ok tt, with_result d' (tested []))
          ∧ bucket 1 d' = [1%Z] ∧ bucket 2 d' = [0%Z].
Proof.
  repeat (split; [reflexivity|]).
  destruct (segment_statistic_appends [1; 0]%Z [1; 1]%Z [700; 1200]%Z [] (tested [])
              eq_refl eq_refl eq_refl) as (d' & E & Hd').
  exists d'. split; [exact E|].
  split; [exact (proj1 (Hd' 1%Z)) | exact (proj1 (Hd' 2%Z))].
Defined.

(** The same object where the directory of the logs is there, as after a
    run of [test]. *)
Definition tested_in_log (d : list (Z * list Z)) : state := with_file "../log" Dir (tested d).

(** Seven entries in one bucket: with the directory the rows are written,
    without it [to_csv] raises. *)
Lemma save_segment_statistic_info_groups_witness :
  result (self (tested_in_log [(1%Z, [1; 1; 0; 1; 1; 1; 0]%Z)]))
  = Some [(1%Z, [1; 1; 0; 1; 1; 1; 0]%Z)]
  ∧ Forall (λ lp : Z * list Z, (5 ≤ length (snd lp))%nat) [(1%Z, [1; 1; 0; 1; 1; 1; 0]%Z)]
  ∧ fst (save_segment_statistic_info (tested_in_log [(1%Z, [1; 1; 0; 1; 1; 1; 0]%Z)])) = Ok tt
  ∧ save_segment_statistic_info (tested [(1%Z, [1; 1; 0; 1; 1; 1; 0]%Z)])
    = (Raise OSError, tested [(1%Z, [1; 1; 0; 1; 1; 1; 0]%Z)])
  ∧ concat (groups [1; 1; 0; 1; 1; 1; 0]%Z) = [1; 1; 0; 1; 1]%Z.
Proof.
  assert (Hd : Forall (λ lp : Z * list Z, (5 ≤ length (snd lp))%nat)
                 [(1%Z, [1; 1; 0; 1; 1; 1; 0]%Z)]).
  { constructor; [cbn; lia | constructor]. }
  split; [reflexivity|]. split; [exact Hd|].
  destruct (save_segment_statistic_info_groups [(1%Z, [1; 1; 0; 1; 1; 1; 0]%Z)]
              (tested_in_log [(1%Z, [1; 1; 0; 1; 1; 1; 0]%Z)]) eq_refl) as (Hok & _ & _).
  destruct (Hok Hd) as [E _].
  destruct (save_segment_statistic_info_groups [(1%Z, [1; 1; 0; 1; 1; 1; 0]%Z)]
              (tested [(1%Z, [1; 1; 0; 1; 1; 1; 0]%Z)]) eq_refl) as (Hno & _ & _).
  destruct (Hno Hd) as [E' _].
  split; [now rewrite E|]. split; [exact E' | reflexivity].
Defined.

(** A bucket of four entries: the group size is 0 and the first division
    fails. *)
Example short_bucket_raises :
  save_segment_statistic_info (tested [(1%Z, [1; 1; 0; 1]%Z)])
  = (Raise ZeroDivisionError, tested [(1%Z, [1; 1; 0; 1]%Z)]).
Proof. vm_compute. reflexivity. Qed.


(** The checkpoint is missing at first; [train] writes it and [load_model]
    then finds it. *)
Example load_before_and_after_train :
  fst (load_model default_model_path (start 2)) = Ok tt
  ∧ model (self (snd (load_model default_model_path (start 2)))) = 0%nat
  ∧ model (self (snd (load_model default_model_path (snd (train (start 2)))))) = 2%nat.
Proof. vm_compute. repeat split. Qed.

Example evaluation_demo :
  evaluation [9 # 10; 1 # 2; 1 # 10] [1; 0; 0]%Z
  = Ok (<["auc" := 7 # 8]> (<["f1score" := 4 # 5]> (<["recall" := 1]>
         (<["precision" := 2 # 3]> (<["accuracy" := 3 # 4]> ∅))))).
Proof. vm_compute. reflexivity. Qed.

End Examples.

(** * Further properties of the driver *)

(** ** The log file *)

Section Log.

Context `{Collaborators}.

(** The lines that were logged at [path]: those of a log, or those written
    after what another file held; no file, no lines. *)
Definition log_lines (path : string) (s : state) : list (message * string) :=
  match fs (world s) !! path with
  | Some (Log ls) => ls
  | Some (Appended _ ls) => ls
  | _ => []
  end.

(** The state after [if not os.path.exists(dir_name): os.mkdir(dir_name)]. *)
Definition made (dir_name : string) (s : state) : state :=
  if bool_decide (is_Some (fs (world s) !! dir_name)) then s else with_file dir_name Dir s.

(** The state a call of [log_write] that returns leaves. *)
Definition logged (result_ : message) (path : string) (s : state) : state :=
  let s1 := made (Str.dirname path) s in
  with_event (Print (Line "Generating log!"))
    (with_file path (append_line (fs (world s1) !! path) (result_, time_stamp))
       (with_event (Print (Stamped result_ time_stamp)) s1)).

(** A path with no separator in it. *)
Definition bare (path : string) : bool :=
  forallb (λ c, negb (Ascii.eqb c Str.sep)) (list_ascii_of_string path).

(** [log_write] on a path with a directory part: the directory is made if
    nothing is there, then the file is opened, which fails when the
    directory part is not a directory or the path is one. *)
Lemma log_write_eq (result_ : message) (path : string) (s : state) :
  Str.is_empty (Str.dirname path) = false →
  log_write result_ path s =
  let s1 := made (Str.dirname path) s in
  if in_dir path s1
  then match fs (world s1) !! path with
       | Some Dir => (Raise IsADirectoryError, s1)
       | _ => (Ok tt, logged result_ path s)
       end
  else match fs (world s1) !! Str.dirname path with
       | Some _ => (Raise NotADirectoryError, s1)
       | None => (Raise FileNotFoundError, s1)
       end.
Proof.
  intros Hdir. unfold log_write, exists_path. cbv zeta. rewrite bind_gets.
  assert (E : (if bool_decide (is_Some (fs (world s) !! Str.dirname path))
               then ret tt else mkdir (Str.dirname path)) s
              = (Ok tt, made (Str.dirname path) s)).
  { unfold made, mkdir. rewrite Hdir. now destruct (bool_decide _). }
  rewrite (bind_ok _ _ _ _ _ E). cbv zeta. unfold bind at 1. rewrite open_text_eq.
  destruct (in_dir path (made (Str.dirname path) s)).
  - unfold logged. cbv zeta.
    now destruct (fs (world (made (Str.dirname path) s)) !! path) as [[]|].
  - now destruct (fs (world (made (Str.dirname path) s)) !! Str.dirname path).
Qed.

(** A call that returns normally leaves the state [logged]. *)
Lemma log_write_ok (result_ : message) (path : string) (s s' : state) :
  Str.is_empty (Str.dirname path) = false →
  log_write result_ path s = (Ok tt, s') → s' = logged result_ path s.
Proof.
  intros Hdir E. rewrite (log_write_eq _ _ _ Hdir) in E. cbv zeta in E.
  destruct (in_dir path (made (Str.dirname path) s)).
  - destruct (fs (world (made (Str.dirname path) s)) !! path) as [[]|];
      first [discriminate | now injection E].
  - destruct (fs (world (made (Str.dirname path) s)) !! Str.dirname path); discriminate.
Qed.

Lemma made_lines (dir_name path : string) (s : state) :
  log_lines path (made dir_name s) = log_lines path s.
Proof.
  unfold made, log_lines.
  destruct (bool_decide (is_Some (fs (world s) !! dir_name))) eqn:E; [reflexivity|].
  apply bool_decide_eq_false_1 in E. cbn [with_file world fs].
  destruct (decide (dir_name = path)) as [->|Hne].
  - rewrite lookup_insert_eq.
    destruct (fs (world s) !! path) as [f|] eqn:Ef; [|reflexivity].
    exfalso. apply E. now exists f.
  - now rewrite lookup_insert_ne.
Qed.

Lemma logged_lines (result_ : message) (path : string) (s : state) :
  log_lines path (logged result_ path s) = log_lines path s ++ [(result_, time_stamp)].
Proof.
  unfold logged. cbv zeta. rewrite <- (made_lines (Str.dirname path) path s).
  unfold log_lines. cbn [with_event with_file world fs]. rewrite lookup_insert_eq.
  now destruct (fs (world (made (Str.dirname path) s)) !! path) as [[]|].
Qed.

Lemma logged_frame (result_ : message) (path p : string) (s : state) :
  p ≠ path → p ≠ Str.dirname path →
  fs (world (logged result_ path s)) !! p = fs (world s) !! p.
Proof.
  intros Hp Hd. unfold logged, made. cbn [with_event with_file world fs].
  rewrite lookup_insert_ne by congruence.
  destruct (bool_decide _); [reflexivity|].
  cbn [with_file world fs]. now rewrite lookup_insert_ne by congruence.
Qed.

Lemma logged_self (result_ : message) (path : string) (s : state) :
  self (logged result_ path s) = self s.
Proof. unfold logged, made. cbn. now destruct (bool_decide _). Qed.

Lemma in_dir_log (s : state) :
  in_dir default_log_path s
  = match fs (world s) !! "../log" with Some Dir => true | _ => false end.
Proof. reflexivity. Qed.

(** X1.  The log is appended to.  A call of [log_write] with its default
    path, where [../log] is a directory or is not there and
    [../log/log.txt] is not a directory, returns normally: the log holds the
    lines it held before followed by the new line with its time stamp (a
    new log holds this line only); [../log] is a directory afterwards, the
    object is as it was, and no other file has changed.  Where [../log] is
    something else than a directory the call raises [NotADirectoryError],
    and where the path of the log is a directory [IsADirectoryError]; it
    has then printed and written nothing. *)
Theorem log_write_appends (result_ : message) (s : state) :
  (fs (world s) !! "../log" = None ∨ fs (world s) !! "../log" = Some Dir →
   fs (world s) !! default_log_path ≠ Some Dir →
   ∃ s',
     log_write result_ default_log_path s = (Ok tt, s')
     ∧ log_lines default_log_path s' =
         log_lines default_log_path s ++ [(result_, time_stamp)]
     ∧ (∀ ls, fs (world s) !! default_log_path = Some (Log ls) →
          fs (world s') !! default_log_path = Some (Log (ls ++ [(result_, time_stamp)])))
     ∧ (fs (world s) !! default_log_path = None →
          fs (world s') !! default_log_path = Some (Log [(result_, time_stamp)]))
     ∧ fs (world s') !! "../log" = Some Dir
     ∧ self s' = self s
     ∧ ∀ p, p ≠ default_log_path → p ≠ "../log" →
         fs (world s') !! p = fs (world s) !! p)
  ∧ (∀ f, fs (world s) !! "../log" = Some f → f ≠ Dir →
       log_write result_ default_log_path s = (Raise NotADirectoryError, s))
  ∧ (fs (world s) !! "../log" = Some Dir →
     fs (world s) !! default_log_path = Some Dir →
       log_write result_ default_log_path s = (Raise IsADirectoryError, s)).
Proof.
  pose proof (log_write_eq result_ default_log_path s eq_refl) as E. cbv zeta in E.
  rewrite in_dir_log in E.
  change (Str.dirname default_log_path) with "../log" in E.
  assert (Hmade : ∀ f, fs (world s) !! "../log" = Some f → made "../log" s = s).
  { intros f Hf. unfold made. rewrite bool_decide_eq_true_2; [reflexivity|]. now exists f. }
  split; [|split].
  - intros Hdir Hlog. exists (logged result_ default_log_path s).
    assert (Hpath : fs (world (made "../log" s)) !! default_log_path
                    = fs (world s) !! default_log_path).
    { unfold made. destruct (bool_decide _); [reflexivity|].
      cbn [with_file world fs]. now rewrite lookup_insert_ne by discriminate. }
    assert (Hd : fs (world (made "../log" s)) !! "../log" = Some Dir).
    { destruct Hdir as [Hn|Hd]; [|now rewrite (Hmade _ Hd)].
      unfold made. rewrite bool_decide_eq_false_2 by (rewrite Hn; intros [? ?]; discriminate).
      cbn [with_file world fs]. apply lookup_insert_eq. }
    rewrite Hd, Hpath in E.
    assert (Hfile : fs (world (logged result_ default_log_path s)) !! default_log_path
                    = Some (append_line (fs (world s) !! default_log_path)
                              (result_, time_stamp))).
    { unfold logged. cbv zeta. cbn [with_event with_file world fs].
      change (Str.dirname default_log_path) with "../log".
      now rewrite lookup_insert_eq, Hpath. }
    split; [|split; [apply logged_lines|split; [|split; [|split; [|split]]]]].
    + rewrite E. destruct (fs (world s) !! default_log_path) as [[]|]; congruence.
    + intros ls Hls. now rewrite Hfile, Hls.
    + intros Hnone. now rewrite Hfile, Hnone.
    + unfold logged. cbv zeta. cbn [with_event with_file world fs].
      now rewrite lookup_insert_ne by discriminate.
    + apply logged_self.
    + intros p Hp Hq. now apply logged_frame.
  - intros f Hf Hnd. rewrite (Hmade _ Hf), Hf in E. rewrite E.
    now destruct f.
  - intros Hd Hlog. rewrite (Hmade _ Hd), Hd, Hlog in E. exact E.
Qed.

Lemma from_sep_bare (r : list ascii) :
  forallb (λ c, negb (Ascii.eqb c Str.sep)) r = true → Str.from_sep r = [].
Proof.
  induction r as [|c r IH]; [reflexivity|]. cbn [forallb Str.from_sep].
  intros Hr. apply andb_prop in Hr as [Hc Hr].
  apply negb_true_iff in Hc. rewrite Hc. now apply IH.
Qed.

(** [os.path.dirname] of a path with no separator is the empty string. *)
Lemma dirname_bare (path : string) : bare path = true → Str.dirname path = "".
Proof.
  unfold bare, Str.dirname. intros Hp.
  assert (Hr : forallb (λ c, negb (Ascii.eqb c Str.sep)) (rev (list_ascii_of_string path)) = true).
  { apply forallb_forall. intros c Hc. apply in_rev in Hc.
    exact (proj1 (forallb_forall _ _) Hp c Hc). }
  now rewrite (from_sep_bare _ Hr).
Qed.

(** X2.  A log path without a directory part is refused.  For a bare file name
    [os.path.dirname] gives the empty string, which does not exist, and
    [os.mkdir] of it raises [FileNotFoundError]: nothing is written and
    nothing is printed. *)
Theorem log_write_bare_name (result_ : message) (path : string) (s : state) :
  bare path = true →
  fs (world s) !! "" = None →
  log_write result_ path s = (Raise FileNotFoundError, s).
Proof.
  intros Hp Hfs. unfold log_write. rewrite (dirname_bare _ Hp).
  unfold exists_path, mkdir. mrun. rewrite Hfs.
  rewrite bool_decide_eq_false_2 by (intros [? ?]; discriminate). reflexivity.
Qed.

End Log.

(** ** Checkpoints *)

Section Checkpoints.

Context `{Collaborators}.

(** [Dan.__init__].  [fresh] is the network that [DAN(...)] builds; the
    attributes kept are those the other methods read.  With [check_point]
    the checkpoint is loaded into it. *)
Definition __init__ (fresh : Net) (patient_ : string) (epoch_ bath_size : nat) (gpu_ : Z)
    (encoder_name_ label_classifier_name_ : string) (check_point : bool) (w : World)
    : res unit * state :=
  let s := mkState (mkDan patient_ epoch_ bath_size gpu_ encoder_name_
                      label_classifier_name_ fresh None) w in
  if check_point
  then (load_model default_model_path ;; print (Line " Start checkpoint training")) s
  else (Ok tt, s).

(** Two objects that name the same checkpoint file. *)
Definition same_names (d1 d2 : Dan) : Prop :=
  encoder_name d1 = encoder_name d2
  ∧ label_classifier_name d1 = label_classifier_name d2
  ∧ patient d1 = patient d2.

Lemma same_names_path (d1 d2 : Dan) :
  same_names d1 d2 → checkpoint_path d1 = checkpoint_path d2.
Proof. intros (He & Hl & Hp). unfold checkpoint_path. now rewrite He, Hl, Hp. Qed.

(** The state [save_mode] leaves, with its default argument. *)
Definition saved (s : state) : state :=
  let p := checkpoint_path (self s) in
  let sd := state_dict (model (self s)) in
  with_event (Print (Line ("Saving Model DAN in " +:+ p +:+ "......")))
    (with_event (TorchSave p sd)
       (with_file p (Pickle sd) (made default_save_path s))).

Lemma save_mode_eq (s : state) : save_mode default_save_path s = (Ok tt, saved s).
Proof.
  unfold save_mode, saved, made, exists_path, mkdir, write_file, print, emit. mrun.
  now destruct (bool_decide _).
Qed.

(** X3.  [save_mode] keeps to its own files.  When a call of [save_mode] with
    its default argument returns normally, the object is as it was, the
    directory [../save_model] exists, the checkpoint file holds the state of
    the network, and every other file is as it was. *)
Theorem save_mode_frame (s s1 : state) :
  save_mode default_save_path s = (Ok tt, s1) →
  self s1 = self s
  ∧ is_Some (fs (world s1) !! default_save_path)
  ∧ fs (world s1) !! checkpoint_path (self s) = Some (Pickle (state_dict (model (self s))))
  ∧ ∀ p, p ≠ checkpoint_path (self s) → p ≠ default_save_path →
      fs (world s1) !! p = fs (world s) !! p.
Proof.
  intros E. rewrite save_mode_eq in E. injection E as <-.
  unfold saved, made. cbn [with_event with_file self world fs].
  destruct (bool_decide (is_Some (fs (world s) !! default_save_path))) eqn:E;
    cbn [with_file self world fs].
  - apply bool_decide_eq_true_1 in E.
    split; [reflexivity|]. split; [|split; [apply lookup_insert_eq|]].
    + destruct (decide (checkpoint_path (self s) = default_save_path)) as [->|Hne];
        [rewrite lookup_insert_eq; eauto | now rewrite lookup_insert_ne].
    + intros p Hp _. now rewrite lookup_insert_ne.
  - split; [reflexivity|]. split; [|split; [apply lookup_insert_eq|]].
    + destruct (decide (checkpoint_path (self s) = default_save_path)) as [->|Hne];
        [rewrite lookup_insert_eq; eauto|].
      rewrite lookup_insert_ne, lookup_insert_eq by exact Hne. eauto.
    + intros p Hp Hd. now rewrite !lookup_insert_ne.
Qed.

Lemma saved_checkpoint (s : state) :
  fs (world (saved s)) !! checkpoint_path (self s)
  = Some (Pickle (state_dict (model (self s)))).
Proof. unfold saved. cbn [with_event with_file world fs]. apply lookup_insert_eq. Qed.

Lemma saved_trace (s : state) :
  trace (world (saved s)) =
  trace (world s) ++
  [TorchSave (checkpoint_path (self s)) (state_dict (model (self s)));
   Print (Line ("Saving Model DAN in " +:+ checkpoint_path (self s) +:+ "......"))].
Proof.
  unfold saved, made. cbn [with_event with_file world trace].
  destruct (bool_decide _); cbn [with_file world trace]; now rewrite <- app_assoc.
Qed.

Lemma saved_self (s : state) : self (saved s) = self s.
Proof. unfold saved, made. cbn. now destruct (bool_decide _). Qed.

Lemma saved_frame (s : state) (p : string) :
  p ≠ checkpoint_path (self s) → p ≠ default_save_path →
  fs (world (saved s)) !! p = fs (world s) !! p.
Proof.
  intros Hp Hd. unfold saved, made. cbn [with_event with_file world fs].
  rewrite lookup_insert_ne by congruence.
  destruct (bool_decide _); [reflexivity|].
  cbn [with_file world fs]. now rewrite lookup_insert_ne by congruence.
Qed.

(** C10.  [save_mode] writes where [load_model] reads.  Whatever the encoder
    name, the classifier name and the patient are, both methods format,
    with their default argument, the same path
    [../save_model/DAN_encoder_<encoder>_<classifier>_<patient>.pkl].
    - A call of [save_mode] that returns has called [torch.save] once, with
      this path and the state of the network, and printed its line; the file
      at this path holds that state, and no other file was written (apart
      from the directory [../save_model]).
    - [load_model], on any object with the same three names, looks at this
      path and no other: with nothing there it prints that the model does
      not exist and returns, with a checkpoint there it loads it, whatever
      the other files are.
    - So [load_model] after [save_mode] loads what [save_mode] wrote. *)
Theorem save_mode_writes_where_load_model_reads (s s1 : state) :
  save_mode default_save_path s = (Ok tt, s1) →
  save_full_path (self s) default_save_path = load_full_path (self s) default_model_path
  ∧ load_full_path (self s) default_model_path = Ok (checkpoint_path (self s))
  ∧ trace (world s1) =
      trace (world s) ++
      [TorchSave (checkpoint_path (self s)) (state_dict (model (self s)));
       Print (Line ("Saving Model DAN in " +:+ checkpoint_path (self s) +:+ "......"))]
  ∧ fs (world s1) !! checkpoint_path (self s) = Some (Pickle (state_dict (model (self s))))
  ∧ (∀ p, p ≠ checkpoint_path (self s) → p ≠ default_save_path →
       fs (world s1) !! p = fs (world s) !! p)
  ∧ ∀ d, same_names d (self s) →
      (∀ w, fs w !! checkpoint_path (self s) = None →
         load_model default_model_path (mkState d w) = (Ok tt, not_exist (mkState d w)))
      ∧ (∀ w sd, fs w !! checkpoint_path (self s) = Some (Pickle sd) →
           load_model default_model_path (mkState d w) = (Ok tt, loaded sd (mkState d w)))
      ∧ load_model default_model_path (mkState d (world s1))
        = (Ok tt, loaded (state_dict (model (self s))) (mkState d (world s1))).
Proof.
  intros E. rewrite save_mode_eq in E. injection E as <-.
  split; [reflexivity|]. split; [reflexivity|]. split; [apply saved_trace|].
  split; [apply saved_checkpoint|]. split; [intros p Hp Hd; now apply saved_frame|].
  intros d Hn.
  assert (Hload : ∀ w, match fs w !! checkpoint_path (self s) with
                       | None => load_model default_model_path (mkState d w)
                                 = (Ok tt, not_exist (mkState d w))
                       | Some (Pickle sd) => load_model default_model_path (mkState d w)
                                             = (Ok tt, loaded sd (mkState d w))
                       | Some _ => True
                       end).
  { intros w. pose proof (load_model_cases (mkState d w)) as L.
    cbn [self world] in L. rewrite (same_names_path _ _ Hn) in L.
    destruct (fs w !! checkpoint_path (self s)) as [[]|]; try exact I; apply L. }
  split; [|split].
  - intros w Hw. specialize (Hload w). now rewrite Hw in Hload.
  - intros w sd Hw. specialize (Hload w). now rewrite Hw in Hload.
  - specialize (Hload (world (saved s))). now rewrite saved_checkpoint in Hload.
Qed.



(** X6.  Without a checkpoint file, [check_point=True] is no error: the object is
    built with the fresh network, and it announces the checkpoint training
    all the same, after the line that says the model does not exist. *)
Theorem init_without_checkpoint (fresh : Net) (patient_ : string) (epoch_ bath_size : nat)
    (gpu_ : Z) (encoder_name_ label_classifier_name_ : string) (w : World) :
  let d := mkDan patient_ epoch_ bath_size gpu_ encoder_name_ label_classifier_name_ fresh None in
  fs w !! checkpoint_path d = None →
  __init__ fresh patient_ epoch_ bath_size gpu_ encoder_name_ label_classifier_name_ true w
  = (Ok tt,
     mkState d (mkWorld (fs w)
       (trace w ++ [Print (Line ("Model is not exist in " +:+ checkpoint_path d));
                    Print (Line " Start checkpoint training")]))).
Proof.
  intros d Hfs. pose proof (load_model_cases (mkState d w)) as L.
  cbn [self world] in L. rewrite Hfs in L. destruct L as [L _].
  unfold __init__. fold d. rewrite (bind_ok _ _ _ _ _ L).
  unfold print, emit, modify, not_exist, with_event. cbn. now rewrite <- app_assoc.
Qed.

End Checkpoints.
(** ** The test run *)

(** The loop invariant of [foldM] that also keeps the exception. *)
Lemma foldM_rule_exn {S A L : Type} (body : L → A → M S L)
    (P : list A → L → S → Prop) (Q : exn → S → Prop) (xs : list A) :
  (∀ pre x post l s, xs = pre ++ x :: post → P pre l s →
     match body l x s with
     | (Ok l', s') => P (pre ++ [x]) l' s'
     | (Raise e, s') => Q e s'
     end) →
  ∀ l s, P [] l s →
     match foldM body xs l s with
     | (Ok l', s') => P xs l' s'
     | (Raise e, s') => Q e s'
     end.
Proof.
  intros Hstep.
  assert (G : ∀ post pre l s, xs = pre ++ post → P pre l s →
     match foldM body post l s with
     | (Ok l', s') => P xs l' s'
     | (Raise e, s') => Q e s'
     end).
  { induction post as [|x post IH]; intros pre l s Hxs HP; simpl.
    - unfold ret. rewrite app_nil_r in Hxs. now subst.
    - unfold bind. specialize (Hstep pre x post l s Hxs HP).
      destruct (body l x s) as [[l'|e] s']; [|exact Hstep].
      apply (IH (pre ++ [x])); [|exact Hstep].
      now rewrite <- app_assoc. }
  intros l s HP. now apply (G xs []).
Qed.

Lemma seq_prefix (n i : nat) (pre post : list nat) :
  seq 0 n = pre ++ i :: post → pre = seq 0 i ∧ (i < n)%nat.
Proof.
  intros E.
  assert (Hi : seq 0 n !! length pre = Some i).
  { rewrite E, lookup_app_r by lia. now rewrite Nat.sub_diag. }
  apply lookup_seq in Hi as [Hi Hlt]. cbn in Hi. subst i. split; [|exact Hlt].
  apply (f_equal (take (length pre))) in E.
  rewrite take_app_length, take_seq, Nat.min_l in E by lia. now symmetry.
Qed.

Section TestRun.

Context `{Collaborators}.

Lemma with_result_same (d : list (Z * list Z)) (s : state) :
  result (self s) = Some d → with_result d s = s.
Proof. destruct s as [[] ?]. cbn. now intros ->. Qed.

(** A run of [segment_statistic], whether it ends normally or not: the
    samples before [n] were marked, and if it stopped there, it is because
    sample [n] has no label or no length. *)
Lemma segment_statistic_run (prey y length_ : list Z) (d : list (Z * list Z)) (s : state) :
  result (self s) = Some d →
  ∃ n d',
    snd (segment_statistic prey y length_ s) = with_result d' s
    ∧ (∀ k, bucket k d' = bucket k d ++ marks_in k prey y length_ (seq 0 n))
    ∧ (∀ i, (i < n)%nat → is_Some (y !! i) ∧ is_Some (length_ !! i))
    ∧ match fst (segment_statistic prey y length_ s) with
      | Ok _ => n = length prey
      | Raise e =>
          e = IndexError ∧ (n < length prey)%nat ∧ (y !! n = None ∨ length_ !! n = None)
      end.
Proof.
  intros Hres.
  set (P := λ (pre : list nat) (_ : unit) (s' : state),
    ∃ d', s' = with_result d' s
      ∧ (∀ k, bucket k d' = bucket k d ++ marks_in k prey y length_ pre)
      ∧ ∀ i, i ∈ pre → is_Some (y !! i) ∧ is_Some (length_ !! i)).
  set (Q := λ (e : exn) (s' : state),
    e = IndexError
    ∧ ∃ n d', s' = with_result d' s
      ∧ (∀ k, bucket k d' = bucket k d ++ marks_in k prey y length_ (seq 0 n))
      ∧ (∀ i, (i < n)%nat → is_Some (y !! i) ∧ is_Some (length_ !! i))
      ∧ (n < length prey)%nat ∧ (y !! n = None ∨ length_ !! n = None)).
  assert (Hinit : P [] tt s).
  { exists d. split; [now rewrite with_result_same|]. split.
    - intros k. cbn. now rewrite app_nil_r.
    - intros i Hi. now apply elem_of_nil in Hi. }
  assert (Hstep : ∀ pre i post l s1, seq 0 (length prey) = pre ++ i :: post → P pre l s1 →
     match segment_statistic_at prey y length_ l i s1 with
     | (Ok l', s') => P (pre ++ [i]) l' s'
     | (Raise e, s') => Q e s'
     end).
  { intros pre i post [] s1 Hseq (d1 & -> & Hb & Hin).
    apply seq_prefix in Hseq as [-> Hi].
    destruct (lookup_lt_is_Some_2 prey i Hi) as [p Hp].
    assert (Hbelow : ∀ j, (j < i)%nat → is_Some (y !! j) ∧ is_Some (length_ !! j)).
    { intros j Hj. apply Hin. apply elem_of_seq. lia. }
    unfold segment_statistic_at, set_result, Num.index. mrun. rewrite Hp. cbn.
    destruct (y !! i) as [yi|] eqn:Hy; cbn.
    2: { split; [reflexivity|]. exists i, d1. split; [reflexivity|]. split; [exact Hb|].
         split; [exact Hbelow|]. split; [exact Hi | now left]. }
    destruct (length_ !! i) as [li|] eqn:Hl; cbn.
    2: { split; [reflexivity|]. exists i, d1. split; [reflexivity|]. split; [exact Hb|].
         split; [exact Hbelow|]. split; [exact Hi | now right]. }
    eexists. split; [reflexivity|]. split.
    - intros k. rewrite marks_in_snoc.
      assert (Hm : mark_in k prey y length_ i =
                   if (li / 500 =? k)%Z then Some (if (p =? yi)%Z then 1 else 0) else None)
        by (unfold mark_in; now rewrite Hp, Hy, Hl).
      rewrite Hm.
      destruct (li / 500 =? k)%Z eqn:Ek; cbn.
      + apply Z.eqb_eq in Ek. subst k.
        unfold bucket at 1. rewrite dict_get_iadd_eq, Hb. cbn. now rewrite <- app_assoc.
      + apply Z.eqb_neq in Ek. unfold bucket at 1. rewrite dict_get_iadd_ne by exact Ek.
        rewrite app_nil_r. apply Hb.
    - intros j Hj. apply elem_of_app in Hj as [Hj|Hj]; [now apply Hin|].
      apply list_elem_of_singleton in Hj. subst j. rewrite Hy, Hl. eauto. }
  pose proof (foldM_rule_exn (segment_statistic_at prey y length_) P Q
                (seq 0 (length prey)) Hstep tt s Hinit) as R.
  unfold segment_statistic.
  destruct (foldM _ (seq 0 (length prey)) tt s) as [[[]|e] s'].
  - destruct R as (d' & -> & Hb & Hin). exists (length prey), d'.
    split; [reflexivity|]. split; [exact Hb|]. split; [|reflexivity].
    intros i Hi. apply Hin. apply elem_of_seq. lia.
  - destruct R as (-> & n & d' & -> & Hb & Hin & Hn & Hnone). exists n, d'.
    split; [reflexivity|]. split; [exact Hb|]. split; [exact Hin|]. now split.
Qed.

(** X7.  [segment_statistic] with too few labels or lengths.  When [y] or
    [length] is shorter than [prey], the call raises [IndexError] at the
    first sample that has no label or no length; the samples before it have
    been marked in [result] all the same, and nothing else has changed. *)
Theorem segment_statistic_short (prey y length_ : list Z) (d : list (Z * list Z)) (s : state) :
  result (self s) = Some d →
  (length y < length prey)%nat ∨ (length length_ < length prey)%nat →
  ∃ d',
    segment_statistic prey y length_ s = (Raise IndexError, with_result d' s)
    ∧ ∀ k, bucket k d' =
           bucket k d ++ marks_in k prey y length_ (seq 0 (Nat.min (length y) (length length_))).
Proof.
  intros Hres Hshort.
  destruct (segment_statistic_run prey y length_ d s Hres) as (n & d' & Hs & Hb & Hin & Hr).
  assert (Hle : (n ≤ Nat.min (length y) (length length_))%nat).
  { destruct (le_lt_dec n (Nat.min (length y) (length length_))) as [Hle|Hgt]; [exact Hle|].
    exfalso. destruct (Nat.min_spec (length y) (length length_)) as [[_ Hm]|[_ Hm]];
      rewrite Hm in Hgt; destruct (Hin _ Hgt) as [Hy Hl].
    - apply lookup_lt_is_Some_1 in Hy. lia.
    - apply lookup_lt_is_Some_1 in Hl. lia. }
  destruct (segment_statistic prey y length_ s) as [[[]|e] s']; cbn [fst snd] in *.
  - exfalso. subst n. lia.
  - destruct Hr as (-> & Hn & Hnone). subst s'. exists d'. split; [reflexivity|].
    assert (n = Nat.min (length y) (length length_)) as <-; [|exact Hb].
    destruct Hnone as [Hnone|Hnone]; apply lookup_ge_None in Hnone; lia.
Qed.

Lemma marks_from_length (i : nat) (pre y h : list Z) :
  Num.marks_from i pre y = Ok h → length h = length y.
Proof.
  revert i h. induction y as [|yi y IH]; intros i h E; cbn in E.
  - now injection E as <-.
  - destruct (Num.index pre i) as [p|]; [|discriminate]. cbn in E.
    destruct (Num.marks_from (S i) pre y) as [r|] eqn:Er; [|discriminate]. cbn in E.
    injection E as <-. cbn. now rewrite (IH _ _ Er).
Qed.

(** What [test] collects, said of the whole loader: the labels, the
    identifiers, the classes and probabilities the network gives, the loss of
    each batch, and the marks of the samples whose length falls in bucket
    [k]. *)
Definition test_labels (bs : list Batch) : list Z := concat (map labels bs).

Definition test_ids (bs : list Batch) : list string := concat (map ids bs).

Definition test_predictions (net : Net) (bs : list Batch) : list Z :=
  concat (map (λ b, argmax1 (forward_test net b)) bs).

Definition test_probabilities (net : Net) (bs : list Batch) : list Q :=
  concat (map (λ b, softmax1 (forward_test net b)) bs).

Definition test_losses (net : Net) (bs : list Batch) : list Q :=
  map (λ b, loss_func (forward_test net b) (labels b)) bs.

Definition test_marks_in (k : Z) (net : Net) (bs : list Batch) : list Z :=
  concat (map (λ b, marks_in k (argmax1 (forward_test net b)) (labels b) (lengths b)
                      (seq 0 (length (argmax1 (forward_test net b))))) bs).

Definition prediction_csv : string := "../log/prediction_result.csv".

(** The line [test] logs. *)
Definition summary (d : Dan) (size : nat) (loss_avg : Q) (r : gmap string Q) : message :=
  TestSummary (encoder_name d) (label_classifier_name d) (patient d) size loss_avg
    (default 0%Q (r !! "accuracy")) (default 0%Q (r !! "precision"))
    (default 0%Q (r !! "recall")) (default 0%Q (r !! "f1score")) (default 0%Q (r !! "auc")).

Lemma test_batch_eq (l : TestLocals) (b : Batch) (s : state) :
  test_batch l b s =
  let out := forward_test (model (self s)) b in
  match Num.marks (argmax1 out) (labels b) with
  | Raise e => (Raise e, s)
  | Ok hit =>
      match segment_statistic (argmax1 out) (labels b) (lengths b) s with
      | (Ok _, s') =>
          (Ok (mkTestLocals (t_acc l ++ hit) (t_loss l ++ [loss_func out (labels b)])
                 (ids_list l ++ ids b) (grand_true l ++ labels b)
                 (prediction l ++ argmax1 out) (probability l ++ softmax1 out)), s')
      | (Raise e, s') => (Raise e, s')
      end
  end.
Proof.
  unfold test_batch. mrun. cbv zeta.
  destruct (Num.marks _ (labels b)); [|reflexivity].
  now destruct (segment_statistic _ _ _ s) as [[[]|] ?].
Qed.

Lemma test_loop (bs : list Batch) (l : TestLocals) (s : state) (d : list (Z * list Z)) :
  result (self s) = Some d →
  ∃ d',
    snd (foldM test_batch bs l s) = with_result d' s
    ∧ match fst (foldM test_batch bs l s) with
      | Ok l' =>
          length (t_acc l') = (length (t_acc l) + length (test_labels bs))%nat
          ∧ t_loss l' = t_loss l ++ test_losses (model (self s)) bs
          ∧ ids_list l' = ids_list l ++ test_ids bs
          ∧ grand_true l' = grand_true l ++ test_labels bs
          ∧ prediction l' = prediction l ++ test_predictions (model (self s)) bs
          ∧ probability l' = probability l ++ test_probabilities (model (self s)) bs
          ∧ ∀ k, bucket k d' = bucket k d ++ test_marks_in k (model (self s)) bs
      | Raise _ => True
      end.
Proof.
  revert l s d. induction bs as [|b bs IH]; intros l s d Hres.
  - exists d. cbn. rewrite !app_nil_r, Nat.add_0_r.
    split; [now rewrite with_result_same|]. repeat split. intros k. now rewrite app_nil_r.
  - cbn [foldM]. unfold bind. rewrite test_batch_eq. cbv zeta.
    destruct (Num.marks _ (labels b)) as [hit|e] eqn:Em.
    2: { exists d. split; [now rewrite with_result_same | exact I]. }
    destruct (segment_statistic_run (argmax1 (forward_test (model (self s)) b)) (labels b)
                (lengths b) d s Hres) as (n & d1 & Hs & Hb & _ & Hr).
    destruct (segment_statistic _ _ _ s) as [[[]|e] s1]; cbn [fst snd] in Hs, Hr; subst s1.
    2: { exists d1. split; [reflexivity | exact I]. }
    subst n.
    destruct (IH (mkTestLocals (t_acc l ++ hit)
                    (t_loss l ++ [loss_func (forward_test (model (self s)) b) (labels b)])
                    (ids_list l ++ ids b) (grand_true l ++ labels b)
                    (prediction l ++ argmax1 (forward_test (model (self s)) b))
                    (probability l ++ softmax1 (forward_test (model (self s)) b)))
                 (with_result d1 s) d1 eq_refl) as (d2 & Hs2 & Hr2).
    exists d2. split; [rewrite Hs2; reflexivity|].
    destruct (fst (foldM test_batch bs _ (with_result d1 s))) as [l'|]; [|exact I].
    cbn [t_acc t_loss ids_list grand_true prediction probability] in Hr2.
    destruct Hr2 as (Ha & Hl & Hi & Hg & Hp & Hq & Hk).
    change (model (self (with_result d1 s))) with (model (self s)) in *.
    unfold test_labels, test_ids, test_predictions, test_probabilities, test_losses,
      test_marks_in in *.
    cbn [map concat]. rewrite Ha, Hl, Hi, Hg, Hp, Hq, <- !app_assoc.
    split; [|now repeat split; try (intros k; rewrite Hk, Hb, <- app_assoc)].
    rewrite !length_app. apply marks_from_length in Em. lia.
Qed.

(** [load_model] changes neither the files nor the attributes other than the
    network. *)
Lemma load_model_keeps (s s0 : state) :
  load_model default_model_path s = (Ok tt, s0) →
  fs (world s0) = fs (world s)
  ∧ encoder_name (self s0) = encoder_name (self s)
  ∧ label_classifier_name (self s0) = label_classifier_name (self s)
  ∧ patient (self s0) = patient (self s)
  ∧ epoch (self s0) = epoch (self s).
Proof.
  intros L. pose proof (load_model_cases s) as C.
  destruct (fs (world s) !! checkpoint_path (self s)) as [[]|].
  all: try (rewrite C in L; discriminate).
  - destruct C as [C _]. rewrite C in L. injection L as <-. now repeat split.
  - destruct C as [C _]. rewrite C in L. injection L as <-. now repeat split.
Qed.

(** A run of [test] that ends normally, step by step. *)
Lemma test_ok (recoding : bool) (s s' : state) :
  test recoding s = (Ok tt, s') →
  ∃ s0 d' loss_avg r,
    load_model default_model_path s = (Ok tt, s0)
    ∧ Num.averageQ (test_losses (model (self s0)) test_data_loader) = Ok loss_avg
    ∧ evaluation (test_probabilities (model (self s0)) test_data_loader)
        (test_labels test_data_loader) = Ok r
    ∧ (∀ k, bucket k d' = test_marks_in k (model (self s0)) test_data_loader)
    ∧ let s2 := logged (summary (self s0) (length (test_labels test_data_loader)) loss_avg r)
                  default_log_path (with_result d' s0) in
      if recoding
      then ∃ rows,
             frame3 (test_ids test_data_loader) (test_labels test_data_loader)
               (test_predictions (model (self s0)) test_data_loader) = Ok rows
             ∧ s' = with_event (Print (Line "Saving success!"))
                      (with_file prediction_csv (Csv rows) s2)
      else s' = s2.
Proof.
  intros E. unfold test in E.
  destruct (load_model default_model_path s) as [[[]|e] s0] eqn:L;
    [rewrite (bind_ok _ _ _ _ _ L) in E | rewrite (bind_raise _ _ _ _ _ L) in E; discriminate].
  unfold test_run in E.
  rewrite (bind_ok (set_result []) _ s0 (with_result [] s0) tt eq_refl) in E.
  destruct (test_loop test_data_loader (mkTestLocals [] [] [] [] [] [])
              (with_result [] s0) [] eq_refl) as (d' & Hs & Hr).
  destruct (foldM test_batch test_data_loader _ (with_result [] s0)) as [[l|e] s1] eqn:F;
    [rewrite (bind_ok _ _ _ _ _ F) in E | rewrite (bind_raise _ _ _ _ _ F) in E; discriminate].
  cbn [fst snd] in Hs, Hr. subst s1.
  change (with_result d' (with_result [] s0)) with (with_result d' s0) in E.
  change (model (self (with_result [] s0))) with (model (self s0)) in Hr.
  cbn [t_acc t_loss ids_list grand_true prediction probability app Nat.add] in Hr.
  destruct Hr as (Ha & Hl & Hi & Hg & Hp & Hq & Hk).
  rewrite Hl, Hi, Hg, Hp, Hq in E.
  destruct (Num.averageQ (test_losses _ _)) as [loss_avg|] eqn:Eavg;
    [rewrite bind_lift_ok in E | rewrite bind_lift_raise in E; discriminate].
  destruct (evaluation _ _) as [r|] eqn:Eev;
    [rewrite bind_lift_ok in E | rewrite bind_lift_raise in E; discriminate].
  rewrite bind_gets in E.
  unfold getitem in E.
  destruct (r !! "accuracy") as [a|] eqn:Ea;
    [rewrite bind_lift_ok in E | rewrite bind_lift_raise in E; discriminate].
  destruct (r !! "precision") as [p|] eqn:Ep;
    [rewrite bind_lift_ok in E | rewrite bind_lift_raise in E; discriminate].
  destruct (r !! "recall") as [rc|] eqn:Erc;
    [rewrite bind_lift_ok in E | rewrite bind_lift_raise in E; discriminate].
  destruct (r !! "f1score") as [f|] eqn:Ef;
    [rewrite bind_lift_ok in E | rewrite bind_lift_raise in E; discriminate].
  destruct (r !! "auc") as [u|] eqn:Eu;
    [rewrite bind_lift_ok in E | rewrite bind_lift_raise in E; discriminate].
  match type of E with
  | bind (log_write ?m ?p) _ ?st = _ => destruct (log_write m p st) as [[[]|e] s2] eqn:LW
  end;
    [rewrite (bind_ok _ _ _ _ _ LW) in E | rewrite (bind_raise _ _ _ _ _ LW) in E; discriminate].
  apply (log_write_ok _ default_log_path _ _ eq_refl) in LW. subst s2.
  cbn [length Nat.add] in Ha. rewrite Ha in E.
  exists s0, d', loss_avg, r. split; [reflexivity|].
  split; [first [exact Eavg | reflexivity]|].
  split; [first [exact Eev | reflexivity]|]. split; [exact Hk|]. cbv zeta.
  unfold summary. rewrite Ea, Ep, Erc, Ef, Eu. cbn [default from_option].
  change (self (with_result d' s0)) with
    (mkDan (patient (self s0)) (epoch (self s0)) (batch_size (self s0)) (gpu (self s0))
       (encoder_name (self s0)) (label_classifier_name (self s0)) (model (self s0)) (Some d'))
    in E.
  cbn [encoder_name label_classifier_name patient] in E.
  destruct recoding.
  - unfold save_all_input_prediction_result in E.
    destruct (frame3 _ _ _) as [rows|] eqn:Efr;
      [rewrite bind_lift_ok in E | rewrite bind_lift_raise in E; discriminate].
    exists rows. split; [reflexivity|].
    unfold bind in E at 1. rewrite to_csv_eq in E.
    destruct (in_dir _ _); [|discriminate].
    destruct (fs _ !! _) as [[]|]; first [discriminate | now injection E as <-].
  - unfold ret in E. now injection E as <-.
Qed.

(** X8.  What [test] logs.  In a run of [test] that ends normally, one line was
    appended to [../log/log.txt]: the names of the object, as data size the
    number of samples of the test loader, the average of the losses of the
    batches, and the five metrics [evaluation] gives for the probabilities
    and the labels of all the samples, in the order of the loader. *)
Theorem test_logs_summary (recoding : bool) (s s' : state) :
  test recoding s = (Ok tt, s') →
  ∃ s0 loss_avg r,
    load_model default_model_path s = (Ok tt, s0)
    ∧ Num.averageQ (test_losses (model (self s0)) test_data_loader) = Ok loss_avg
    ∧ evaluation (test_probabilities (model (self s0)) test_data_loader)
        (test_labels test_data_loader) = Ok r
    ∧ log_lines default_log_path s' =
        log_lines default_log_path s
        ++ [(summary (self s) (length (test_labels test_data_loader)) loss_avg r, time_stamp)].
Proof.
  intros E. destruct (test_ok _ _ _ E) as (s0 & d' & loss_avg & r & L & Havg & Hev & _ & Hs').
  exists s0, loss_avg, r. split; [exact L|]. split; [exact Havg|]. split; [exact Hev|].
  destruct (load_model_keeps _ _ L) as (Hfs & He & Hl & Hp & _).
  assert (Hsum : ∀ n, summary (self s0) n loss_avg r = summary (self s) n loss_avg r).
  { intros n. unfold summary. now rewrite He, Hl, Hp. }
  assert (Hlines : log_lines default_log_path (with_result d' s0) = log_lines default_log_path s).
  { unfold log_lines. cbn [with_result world]. now rewrite Hfs. }
  cbv zeta in Hs'. destruct recoding.
  - destruct Hs' as (rows & _ & ->). unfold log_lines at 1.
    cbn [with_event with_file world fs]. rewrite lookup_insert_ne by discriminate.
    fold (log_lines default_log_path
            (logged (summary (self s0) (length (test_labels test_data_loader)) loss_avg r)
               default_log_path (with_result d' s0))).
    now rewrite logged_lines, Hlines, Hsum.
  - subst s'. now rewrite logged_lines, Hlines, Hsum.
Qed.

(** X9.  The per-length statistics of a test run.  [test] starts from an empty
    [result], whatever it held before; when the run ends normally, bucket
    [k] holds one mark for each sample of the test loader whose length
    falls in it ([length // 500 = k]), in the order of the loader, and
    nothing else. *)
Theorem test_fills_buckets (recoding : bool) (s s' : state) :
  test recoding s = (Ok tt, s') →
  ∃ s0 d',
    load_model default_model_path s = (Ok tt, s0)
    ∧ result (self s') = Some d'
    ∧ ∀ k, bucket k d' = test_marks_in k (model (self s0)) test_data_loader.
Proof.
  intros E. destruct (test_ok _ _ _ E) as (s0 & d' & loss_avg & r & L & _ & _ & Hk & Hs').
  exists s0, d'. split; [exact L|]. split; [|exact Hk].
  cbv zeta in Hs'. destruct recoding.
  - destruct Hs' as (rows & _ & ->). cbn [with_event with_file self].
    now rewrite logged_self.
  - subst s'. now rewrite logged_self.
Qed.

(** X10.  The file of predictions.  A run of [test] with [recoding] that ends
    normally has written [../log/prediction_result.csv]: one row per sample
    of the test loader, with its identifier, its label and the class
    predicted for it; the three columns have one length.  Without
    [recoding] the file is not touched. *)
Theorem test_recoding_rows (recoding : bool) (s s' : state) :
  test recoding s = (Ok tt, s') →
  ∃ s0,
    load_model default_model_path s = (Ok tt, s0)
    ∧ if recoding
      then fs (world s') !! prediction_csv =
             Some (Csv (zip (zip (test_ids test_data_loader) (test_labels test_data_loader))
                            (test_predictions (model (self s0)) test_data_loader)))
           ∧ length (test_ids test_data_loader) = length (test_labels test_data_loader)
           ∧ length (test_labels test_data_loader)
             = length (test_predictions (model (self s0)) test_data_loader)
      else fs (world s') !! prediction_csv = fs (world s) !! prediction_csv.
Proof.
  intros E. destruct (test_ok _ _ _ E) as (s0 & d' & loss_avg & r & L & _ & _ & _ & Hs').
  exists s0. split; [exact L|]. cbv zeta in Hs'. destruct recoding.
  - destruct Hs' as (rows & Hfr & ->). cbn [with_event with_file world fs].
    rewrite lookup_insert_eq. unfold frame3 in Hfr.
    destruct (_ && _) eqn:Hlen in Hfr; [|discriminate]. injection Hfr as <-.
    apply andb_prop in Hlen as [H1 H2]. apply Nat.eqb_eq in H1, H2. now repeat split.
  - subst s'. rewrite logged_frame by discriminate.
    cbn [with_result world]. now destruct (load_model_keeps _ _ L) as (-> & _).
Qed.

(** X11.  An empty loader.  With no batch to test, [test] and [test_attention]
    load the model and then fail on the average of the losses of no batch:
    [ZeroDivisionError].  [test] has emptied [result] by then; no line is
    logged or printed after the one of [load_model]. *)
Theorem empty_loader_zero_division (s s0 : state) :
  load_model default_model_path s = (Ok tt, s0) →
  (test_data_loader = [] →
     ∀ recoding, test recoding s = (Raise ZeroDivisionError, with_result [] s0))
  ∧ (att_data_loader = [] →
     ∀ attention, test_attention attention s = (Raise ZeroDivisionError, s0)).
Proof.
  intros L. split.
  - intros Hnil recoding. unfold test. rewrite (bind_ok _ _ _ _ _ L).
    unfold test_run. rewrite Hnil. reflexivity.
  - intros Hnil attention. unfold test_attention. rewrite (bind_ok _ _ _ _ _ L).
    rewrite Hnil. reflexivity.
Qed.

End TestRun.
(** ** The network and the checkpoint file during [train] *)

Section TrainState.

Context `{Collaborators}.

Local Open Scope Q_scope.

(** The network after training passes on the batches [bs], one after the
    other: each batch gives one update, with the blend of the losses that the
    network of that moment has on it. *)
Definition trained (vae : bool) (net : Net) (bs : list Batch) : Net :=
  fold_left (λ n b, optimizer_step n b (blend vae b (forward n b))) bs net.

(** The attributes of the object apart from the network. *)
Definition same_attributes (d1 d2 : Dan) : Prop :=
  patient d1 = patient d2 ∧ epoch d1 = epoch d2 ∧ batch_size d1 = batch_size d2
  ∧ gpu d1 = gpu d2 ∧ encoder_name d1 = encoder_name d2
  ∧ label_classifier_name d1 = label_classifier_name d2 ∧ result d1 = result d2.

(** Events that are neither a save nor part of a training pass. *)
Definition silent (e : event) : bool := negb (is_save e) && negb (training e).

(** What holds of the state all along a run of [train] on the object [d]:
    only the network changes, it is the initial one after the training
    passes so far, and every save wrote, under the checkpoint path, the state
    of the network of that moment; the file holds what the last save
    wrote. *)
Definition train_inv (d : Dan) (s : state) : Prop :=
  same_attributes (self s) d
  ∧ model (self s) = trained (is_vae d) (model d) (train_batches (trace (world s)))
  ∧ ∀ t1 p sd t2, trace (world s) = t1 ++ TorchSave p sd :: t2 →
      p = checkpoint_path d
      ∧ sd = state_dict (trained (is_vae d) (model d) (train_batches t1))
      ∧ (unsaved t2 → fs (world s) !! checkpoint_path d = Some (Pickle sd)).

Lemma with_events_cons (e : event) (l : list event) (s : state) :
  with_events (e :: l) s = with_events l (with_event e s).
Proof. unfold with_events, with_event. cbn. now rewrite <- app_assoc. Qed.

Lemma with_events_preserves (J : state → Prop) (l : list event) :
  (∀ e s, silent e = true → J s → J (with_event e s)) →
  forallb silent l = true → ∀ s, J s → J (with_events l s).
Proof.
  intros Hj. induction l as [|e l IH]; intros Hl s Hs.
  - now rewrite with_events_nil.
  - cbn in Hl. apply andb_prop in Hl as [He Hl]. rewrite with_events_cons.
    apply IH; [exact Hl|]. now apply Hj.
Qed.

Lemma val_forwards_silent (vfs : list event) :
  forallb val_forward vfs = true → forallb silent vfs = true.
Proof.
  induction vfs as [|e vfs IH]; [reflexivity|]. cbn.
  intros Hv. apply andb_prop in Hv as [He Hv]. rewrite (IH Hv).
  now destruct e as [| [] | | | |].
Qed.

Lemma train_run_eq (s : state) :
  train s =
  match foldM train_epoch (seq 0 (epoch (self s))) init_locals s with
  | (Ok l, s') => (Ok tt, with_events (plots (self s) l) s')
  | (Raise e, s') => (Raise e, s')
  end.
Proof.
  unfold train. unfold bind at 1. unfold gets at 1. cbn [fst snd]. unfold bind at 1.
  destruct (foldM train_epoch _ _ _) as [[l|e] s']; [|reflexivity].
  unfold draw_loss_plt, print, emit. mrun. cbn.
  unfold with_event, with_events, plots. cbn. now rewrite <- !app_assoc.
Qed.

(** A property of the state that the steps of [train] keep is kept by
    [train], however the run ends. *)
Lemma validate_preserves (J : state → Prop) :
  (∀ e s, silent e = true → J s → J (with_event e s)) →
  (∀ s, J s → J (saved s)) →
  ∀ vae ep step ls l s, J s → J (snd (validate vae ep step ls l s)).
Proof.
  intros Hsil Hsav vae ep step ls l s Hs. rewrite validate_eq.
  destruct (val_loop vae (next_batch_val_data ep step) ([], [], ls) s) as (vfs & Hv & Hs3 & _).
  assert (J3 : J (with_events vfs s)).
  { apply with_events_preserves; [exact Hsil | now apply val_forwards_silent | exact Hs]. }
  destruct (foldM _ _ _ s) as [[r|e] s3]; cbn [fst snd] in Hs3; subst s3; [|exact J3].
  destruct (Num.averageZ (fst (fst r))) as [taa|]; [|exact J3].
  destruct (Num.averageQ (snd (fst r))) as [tla|]; [|exact J3].
  destruct (Num.averageQ (loss l)) as [la|]; [|exact J3].
  destruct (Num.averageZ (acc l)) as [aa|]; [|exact J3].
  cbv zeta.
  assert (J4 : J (with_event (Print (TrainReport ep step la tla aa taa)) (with_events vfs s)))
    by now apply Hsil.
  destruct (snd (checkpoint (last_test_accuracy l) taa)).
  - rewrite save_mode_eq. cbn [snd]. now apply Hsav.
  - exact J4.
Qed.

Lemma train_preserves (J : state → Prop) :
  (∀ b s, J s → J (stepped b s)) →
  (∀ e s, silent e = true → J s → J (with_event e s)) →
  (∀ s, J s → J (saved s)) →
  ∀ s, J s → J (snd (train s)).
Proof.
  intros Hstp Hsil Hsav s Hs. rewrite train_run_eq.
  assert (Hstep : ∀ ep l sb s1, J s1 → J (snd (train_step ep l sb s1))).
  { intros ep l [step b] s1 H1. rewrite train_step_eq. cbv zeta.
    destruct (Num.marks _ (labels b)); [|now apply Hstp].
    destruct (step mod 50 =? 0)%nat; [|now apply Hstp].
    apply validate_preserves; [exact Hsil | exact Hsav | now apply Hstp]. }
  assert (Hepoch : ∀ l ep s1, J s1 → J (snd (train_epoch l ep s1))).
  { intros l ep s1 H1. unfold train_epoch.
    pose proof (foldM_rule (train_step ep) (λ _ _ s', J s') J (enumerate (train_data_loader ep))) as R.
    specialize (R (λ pre x post l1 s2 _ H2, ltac:(
      pose proof (Hstep ep l1 x s2 H2) as G;
      destruct (train_step ep l1 x s2) as [[?|?] ?]; exact G)) l s1 H1).
    now destruct (foldM _ _ l s1) as [[?|?] ?]. }
  pose proof (foldM_rule train_epoch (λ _ _ s', J s') J (seq 0 (epoch (self s)))) as R.
  specialize (R (λ pre x post l1 s2 _ H2, ltac:(
    pose proof (Hepoch l1 x s2 H2) as G;
    destruct (train_epoch l1 x s2) as [[?|?] ?]; exact G)) init_locals s Hs).
  destruct (foldM _ _ init_locals s) as [[l|e] s']; [|exact R].
  cbn [snd]. apply with_events_preserves; [exact Hsil | reflexivity | exact R].
Qed.

Lemma is_vae_same (d1 d2 : Dan) : same_attributes d1 d2 → is_vae d1 = is_vae d2.
Proof. intros (_ & _ & _ & _ & He & _). unfold is_vae. now rewrite He. Qed.

Lemma checkpoint_path_same (d1 d2 : Dan) :
  same_attributes d1 d2 → checkpoint_path d1 = checkpoint_path d2.
Proof.
  intros (Hp & _ & _ & _ & He & Hl & _). unfold checkpoint_path. now rewrite Hp, He, Hl.
Qed.

Lemma unsaved_app_inv (l1 l2 : list event) : unsaved (l1 ++ l2) → unsaved l1 ∧ unsaved l2.
Proof. unfold unsaved. rewrite forallb_app. apply andb_prop. Qed.

Lemma train_inv_silent (d : Dan) (e : event) (s : state) :
  silent e = true → train_inv d s → train_inv d (with_event e s).
Proof.
  intros He (Ha & Hm & Hsv). apply andb_prop in He as [Hns Hnt].
  apply negb_true_iff in Hns, Hnt.
  split; [exact Ha|]. split.
  - cbn [with_event self world trace]. rewrite train_batches_app.
    assert (train_batches [e] = []) as -> by now destruct e as [| [] | | | |].
    now rewrite app_nil_r.
  - cbn [with_event self world trace fs]. intros t1 p sd t2 E.
    apply app_eq_mid in E as [(m & E & ->)|(m & -> & E)].
    + destruct (Hsv _ _ _ _ E) as (Hp & Hsd & Hfs). split; [exact Hp|]. split; [exact Hsd|].
      intros Hu. apply unsaved_app_inv in Hu as [Hu _]. now apply Hfs.
    + destruct m as [|? [|? ?]]; try discriminate. injection E as ->. discriminate.
Qed.

Lemma train_inv_stepped (d : Dan) (b : Batch) (s : state) :
  train_inv d s → train_inv d (stepped b s).
Proof.
  intros (Ha & Hm & Hsv).
  split; [exact Ha|]. split.
  - rewrite stepped_trace, train_batches_app. unfold stepped. cbn [with_model self model].
    unfold train_batches at 2. cbn [omap list_omap]. unfold trained. rewrite fold_left_app.
    cbn [fold_left]. fold (trained (is_vae d) (model d) (train_batches (trace (world s)))).
    now rewrite <- Hm, (is_vae_same _ _ Ha).
  - rewrite stepped_trace. intros t1 p sd t2 E.
    change (fs (world (stepped b s))) with (fs (world s)).
    apply app_eq_mid in E as [(m & E & ->)|(m & -> & E)].
    + destruct (Hsv _ _ _ _ E) as (Hp & Hsd & Hfs). split; [exact Hp|]. split; [exact Hsd|].
      intros Hu. apply unsaved_app_inv in Hu as [Hu _]. now apply Hfs.
    + destruct m as [|? [|? [|? ?]]]; discriminate.
Qed.

Lemma train_inv_saved (d : Dan) (s : state) : train_inv d s → train_inv d (saved s).
Proof.
  intros (Ha & Hm & Hsv).
  assert (Htr : trace (world (saved s)) =
                trace (world s) ++
                [TorchSave (checkpoint_path (self s)) (state_dict (model (self s)));
                 Print (Line ("Saving Model DAN in " +:+ checkpoint_path (self s) +:+ "......"))]).
  { unfold saved, made. cbn [with_event with_file world trace].
    destruct (bool_decide _); cbn [with_file world trace]; now rewrite <- app_assoc. }
  assert (Hself : self (saved s) = self s).
  { unfold saved, made. cbn. now destruct (bool_decide _). }
  split; [now rewrite Hself|]. split.
  - rewrite Hself, Htr, train_batches_app. cbn. now rewrite app_nil_r.
  - rewrite Htr. intros t1 p sd t2 E.
    apply app_eq_mid in E as [(m & E & ->)|(m & -> & E)].
    + destruct (Hsv _ _ _ _ E) as (Hp & Hsd & _). split; [exact Hp|]. split; [exact Hsd|].
      intros Hu. apply unsaved_app_inv in Hu as [_ Hu]. discriminate.
    + destruct m as [|? [|? [|? ?]]]; try discriminate.
      injection E as <- <- <-. rewrite app_nil_r, <- Hm.
      split; [now apply checkpoint_path_same|]. split; [reflexivity|].
      intros _. rewrite <- (checkpoint_path_same _ _ Ha). apply saved_checkpoint.
Qed.

Lemma train_keeps_inv (d : Dan) (files : gmap string file) :
  train_inv d (snd (train (mkState d (mkWorld files [])))).
Proof.
  apply train_preserves.
  - intros b s. apply train_inv_stepped.
  - intros e s. apply train_inv_silent.
  - intros s. apply train_inv_saved.
  - split; [now repeat split|]. split; [reflexivity|].
    intros [|? ?] * E; discriminate.
Qed.

(** X12.  Only training passes change the network.  After [train], however the
    run ends, the attributes of the object are what they were and the
    network is the initial one updated once for each training pass of the
    run, in order, with the blend of the losses the network of that moment
    has on the batch; the validation passes and the saves leave it alone.
    After a run that ends normally these are the batches of the training
    loader, epoch after epoch. *)
Theorem train_updates_once_per_batch (d : Dan) (files : gmap string file) :
  same_attributes (self (snd (train (mkState d (mkWorld files []))))) d
  ∧ model (self (snd (train (mkState d (mkWorld files [])))))
    = trained (is_vae d) (model d) (train_batches (train_trace d files))
  ∧ (train_result d files = Ok tt →
     model (self (snd (train (mkState d (mkWorld files [])))))
     = trained (is_vae d) (model d) (concat (map train_data_loader (seq 0 (epoch d))))).
Proof.
  destruct (train_keeps_inv d files) as (Ha & Hm & _).
  split; [exact Ha|]. split; [exact Hm|].
  intros Hok. destruct (train_log d files) as [_ Hlog].
  destruct (Hlog Hok) as (_ & _ & Hb). now rewrite <- Hb.
Qed.

(** X13.  The checkpoint file holds the network of the last save.  If a run of
    [train], however it ends, has saved, then the last save wrote under the
    checkpoint path of the object, what it wrote is the state of the network
    as it was at that moment (after the training passes before the save,
    not after those that followed), and this is what the file holds at the
    end. *)
Theorem checkpoint_holds_last_save (d : Dan) (files : gmap string file)
    (t1 t2 : list event) (p : string) (sd : StateDict) :
  train_trace d files = t1 ++ TorchSave p sd :: t2 →
  unsaved t2 →
  p = checkpoint_path d
  ∧ sd = state_dict (trained (is_vae d) (model d) (train_batches t1))
  ∧ fs (world (snd (train (mkState d (mkWorld files []))))) !! checkpoint_path d
    = Some (Pickle sd).
Proof.
  intros E Hu. destruct (train_keeps_inv d files) as (_ & _ & Hsv).
  destruct (Hsv _ _ _ _ E) as (Hp & Hsd & Hfs). now auto.
Qed.

Lemma train_decisions (d : Dan) (files : gmap string file) :
  ∃ accs, decisions (train_trace d files) = policy 0 accs
          ∧ Forall (λ a, 0 <= a <= 1) accs.
Proof.
  destruct (train_log d files) as [(acc_ & loss_ & thr & t & q & Ht & Hlog & Hq) _].
  destruct (run_log_decisions _ _ _ _ _ Hlog) as (_ & accs & Hd & _ & Hb).
  exists accs. split; [|exact Hb]. rewrite Ht, decisions_app.
  - rewrite (unsaved_decisions q) by now apply quiet_unreported.
    now rewrite app_nil_r.
  - destruct q as [|[] q]; try exact I. discriminate.
Qed.

(** X14.  The first validation and every perfect validation save.  In a run of
    [train], however it ends, the checkpoint is written after the first
    report, whatever the accuracy, and after every report whose validation
    accuracy is 1. *)
Theorem first_and_perfect_validations_save (d : Dan) (files : gmap string file)
    (i : nat) (a : Q) (b : bool) :
  decisions (train_trace d files) !! i = Some (a, b) →
  i = 0%nat ∨ a == 1 →
  b = true.
Proof.
  intros Hi Hcase. destruct (train_decisions d files) as (accs & Hd & Hb).
  rewrite Hd in Hi. apply policy_lookup in Hi as [Hi ->].
  pose proof (Forall_lookup_1 _ _ _ _ Hb Hi) as Ha.
  assert (Hpre : Forall (λ a, 0 <= a <= 1) (take i accs)) by now apply Forall_take.
  destruct (threshold_counted _ Hpre) as [HL _].
  pose proof (threshold_bounded _ HL) as HT.
  rewrite checkpoint_threshold.
  assert (Hle : Qle_bool (threshold (policy_last 0 (take i accs))) a = true).
  { apply Qle_bool_iff. destruct Hcase as [->|Hone].
    - rewrite take_0. apply Ha.
    - rewrite Hone. apply HT. }
  now rewrite Hle.
Qed.

Lemma decisions_length (t : list event) :
  length (decisions t) = length (report_points t).
Proof.
  induction t as [|e t IH]; [reflexivity|].
  destruct e as [[]| | | | |]; cbn; now rewrite ?IH.
Qed.

Lemma decisions_saved (t : list event) (i : nat) (a : Q) :
  decisions t !! i = Some (a, true) → existsb is_save t = true.
Proof.
  revert i. induction t as [|e t IH]; intros i Hi; [discriminate|].
  cbn [existsb]. apply orb_true_iff.
  assert (Hrec : ∀ j, decisions t !! j = Some (a, true) →
            is_save e = true ∨ existsb is_save t = true) by (intros j Hj; right; eauto).
  destruct e as [[]| | | | |]; cbn [decisions] in Hi; eauto.
  destruct i as [|i]; [|eauto]. injection Hi as _ Hs.
  right. now destruct t as [|[] t].
Qed.

Lemma last_save (t : list event) :
  existsb is_save t = true →
  ∃ t1 p sd t2, t = t1 ++ TorchSave p sd :: t2 ∧ unsaved t2.
Proof.
  induction t as [|x t IH] using rev_ind; [discriminate|].
  rewrite existsb_app. cbn. rewrite orb_false_r. intros Hx.
  destruct (is_save x) eqn:Ex.
  - destruct x; try discriminate. now eexists t, _, _, [].
  - rewrite orb_false_r in Hx. destruct (IH Hx) as (t1 & p & sd & t2 & -> & Hu).
    exists t1, p, sd, (t2 ++ [x]). split; [now rewrite <- app_assoc|].
    unfold unsaved in *. rewrite forallb_app, Hu. cbn. now rewrite Ex.
Qed.

(** X15.  A run with a validation leaves a checkpoint.  After a run of [train]
    that ends normally and had at least one validation point, the
    checkpoint file exists and holds a state of the network, so that
    [load_model] on the object then loads it: [test] does not go on with the
    network that is in memory. *)
Theorem train_leaves_checkpoint (d : Dan) (files : gmap string file) :
  train_result d files = Ok tt →
  val_points d ≠ [] →
  ∃ sd,
    fs (world (snd (train (mkState d (mkWorld files []))))) !! checkpoint_path d
    = Some (Pickle sd)
    ∧ load_model default_model_path (snd (train (mkState d (mkWorld files []))))
      = (Ok tt, loaded sd (snd (train (mkState d (mkWorld files []))))).
Proof.
  intros Hok Hpts.
  destruct (train_log d files) as [_ Hlog]. destruct (Hlog Hok) as (Hrp & _ & _).
  destruct (train_decisions d files) as (accs & Hd & Hb).
  destruct (decisions (train_trace d files)) as [|[a b] ds] eqn:Eds.
  { exfalso. apply Hpts. rewrite <- Hrp.
    apply length_zero_iff_nil. now rewrite <- decisions_length, Eds. }
  assert (Hfirst : decisions (train_trace d files) !! 0%nat = Some (a, true)).
  { rewrite Eds. cbn. f_equal. f_equal. destruct accs as [|a' accs]; [discriminate|].
    cbn in Hd. injection Hd as -> -> _.
    apply Forall_inv in Hb. rewrite checkpoint_threshold.
    assert (Hle : Qle_bool (threshold 0) a' = true) by (apply Qle_bool_iff; apply Hb).
    now rewrite Hle. }
  destruct (last_save _ (decisions_saved _ _ _ Hfirst)) as (t1 & p & sd & t2 & E & Hu).
  destruct (train_keeps_inv d files) as (Ha & _ & Hsv).
  destruct (Hsv _ _ _ _ E) as (_ & _ & Hfs). specialize (Hfs Hu).
  exists sd. split; [exact Hfs|].
  pose proof (load_model_cases (snd (train (mkState d (mkWorld files []))))) as L.
  rewrite (checkpoint_path_same _ _ Ha), Hfs in L. apply L.
Qed.

(** X16.  No validation data.  When the first validation finds no batch, the
    run stops there with [ZeroDivisionError], on the average of no mark: the
    first training batch has gone through the network and has updated it,
    and nothing was reported or saved. *)
Theorem train_without_validation_data (d : Dan) (files : gmap string file)
    (n : nat) (b : Batch) (bs : list Batch) (hit : list Z) :
  epoch d = S n →
  train_data_loader 0 = b :: bs →
  next_batch_val_data 0 0 = [] →
  Num.marks (argmax1 (label_output (forward (model d) b))) (labels b) = Ok hit →
  train (mkState d (mkWorld files []))
  = (Raise ZeroDivisionError, stepped b (mkState d (mkWorld files []))).
Proof.
  intros Hep Hload Hval Hmarks. rewrite train_run_eq. cbn [self].
  rewrite Hep. cbn [seq foldM]. unfold bind at 1. unfold train_epoch at 1.
  rewrite Hload. unfold enumerate. cbn [length seq zip zip_with foldM].
  unfold bind at 1. rewrite train_step_eq. cbv zeta. cbn [self].
  rewrite Hmarks. cbn [Nat.modulo Nat.divmod Nat.eqb fst snd Nat.sub].
  rewrite validate_eq, Hval. reflexivity.
Qed.

End TrainState.
(** ** The exceptions of [prediction_real_data] *)

Section RealDataErrors.

Context `{Collaborators}.

(** The classes the network gives for the segments of the file, batch after
    batch. *)
Definition real_predictions (net : Net) (data_length : Z) (dl : list RBatch) : list Z :=
  concat (map (λ b, argmax1 (forward_real net b data_length)) dl).

Lemma mapM_total {A B : Type} (f : A → res B) (g : A → B) (xs : list A) :
  (∀ x, f x = Ok (g x)) → Num.mapM f xs = Ok (map g xs).
Proof.
  intros Hf. induction xs as [|x xs IH]; [reflexivity|].
  cbn. now rewrite Hf, IH.
Qed.

Lemma real_loop (file_path label : string) (data_length label_int : Z) (dl : list RBatch)
    (ids_l : list string) (pred prob : list Z) (s : state) :
  (prob = [] ↔ pred = []) →
  ∃ ids_l' prob',
    foldM (real_batch file_path label data_length label_int) dl (ids_l, pred, prob) s
    = (Ok (ids_l', pred ++ real_predictions (model (self s)) data_length dl, prob'), s)
    ∧ (prob' = [] ↔ pred ++ real_predictions (model (self s)) data_length dl = []).
Proof.
  revert ids_l pred prob. induction dl as [|b dl IH]; intros ids_l pred prob Hp.
  - exists ids_l, prob. cbn. now rewrite app_nil_r.
  - cbn [foldM]. unfold bind at 1. unfold real_batch at 1. mrun.
    rewrite (mapM_total _
      (λ t, file_path +:+ "_" +:+ patient (self s) +:+ "_" +:+ label +:+ "_" +:+ t +:+ ""))
      by reflexivity.
    cbn.
    set (pred' := pred ++ argmax1 (forward_real (model (self s)) b data_length)).
    destruct (IH (ids_l ++ map (λ t, file_path +:+ "_" +:+ patient (self s) +:+ "_"
                                      +:+ label +:+ "_" +:+ t +:+ "") (times b))
                 pred' (prob ++ map (λ x, if (x =? label_int)%Z then 1%Z else 0%Z) pred'))
      as (ids_l' & prob' & E & Hp').
    { split.
      - intros Hnil. apply app_eq_nil in Hnil as [_ Hnil]. now apply map_eq_nil in Hnil.
      - intros Hnil. rewrite Hnil. cbn. rewrite app_nil_r. apply Hp.
        unfold pred' in Hnil. now apply app_eq_nil in Hnil as [? _]. }
    exists ids_l', prob'. unfold real_predictions in *. cbn [map concat].
    rewrite app_assoc. now split.
Qed.

(** X17.  Which exception [prediction_real_data] ends with, once the file was read
    and cut into batches: [KeyError] for a label that is neither
    [pre_seizure] nor [non_seizure]; [ZeroDivisionError] when there is no
    segment to predict; [TypeError], at [len(accuracy)], in every other
    case.  The state is left as it was. *)
Theorem prediction_real_data_exception
    (file_path label save_file : string) (data_length : Z) (config_path : string)
    (dl : list RBatch) (s : state) :
  single_file_loader file_path label data_length config_path (patient (self s)) = Ok dl →
  prediction_real_data file_path label save_file data_length config_path s
  = (Raise (if negb (String.eqb label "pre_seizure" || String.eqb label "non_seizure")
            then KeyError
            else match real_predictions (model (self s)) data_length dl with
                 | [] => ZeroDivisionError
                 | _ :: _ => TypeError
                 end), s).
Proof.
  intros Hdl. unfold prediction_real_data. rewrite bind_gets, Hdl, bind_lift_ok.
  unfold label_dict.
  assert (Hrest : ∀ label_int,
    bind (foldM (real_batch file_path label data_length label_int) dl ([], [], []))
      (λ r, let '(ids_l, pred, prob) := r in
         bind (lift (Num.averageZ prob)) (λ accuracy,
         bind (lift (Num.len (Num.VBatches (length dl)))) (λ size,
         bind (lift (Num.len (Num.VFloat accuracy))) (λ shown,
         bind (log_write (RealSummary (encoder_name (self s)) (label_classifier_name (self s))
                            (patient (self s)) size shown) default_log_path) (λ _,
         bind (lift (frame3 ids_l (replicate (length dl) label_int) pred)) (λ rows,
         bind (gets (λ s, fs (world s) !! save_file)) (λ f,
         bind (write_file save_file
                 (Csv (match f with Some (Csv rs) => rs | _ => [] end ++ rows))) (λ _,
         bind (lift (Str.format "All information has been save in {}" [save_file]))
           (λ msg, print (Line msg)))))))))) s
    = (Raise match real_predictions (model (self s)) data_length dl with
             | [] => ZeroDivisionError
             | _ :: _ => TypeError
             end, s)).
  { intros label_int.
    destruct (real_loop file_path label data_length label_int dl [] [] [] s)
      as (ids_l' & prob' & E & Hp); [tauto|].
    rewrite (bind_ok _ _ _ _ _ E). cbn [app] in Hp |- *.
    destruct (real_predictions (model (self s)) data_length dl) as [|x xs].
    - rewrite (proj2 Hp eq_refl). reflexivity.
    - assert (Hne : prob' ≠ []) by (intros Hnil; now apply Hp in Hnil).
      rewrite (averageZ_nonempty _ Hne). reflexivity. }
  destruct (String.eqb label "pre_seizure"); [apply Hrest|].
  destruct (String.eqb label "non_seizure"); [apply Hrest|]. reflexivity.
Qed.

End RealDataErrors.
(** ** The series that are plotted *)

Section TrainCurves.

Context `{Collaborators}.

Local Open Scope Q_scope.

(** The training accuracy and the validation accuracy of each report. *)
Definition reported (t : list event) : list (Q * Q) :=
  omap (λ e, match e with
             | Print (TrainReport _ _ _ _ aa taa) => Some (aa, taa)
             | _ => None
             end) t.

(** The series of a picture have one length; the series of the VAE loss is
    kept only with the VAE encoder. *)
Definition even_curves (vae : bool) (c : Curves) : Prop :=
  length (loss_vi c) = length (acc_vi c)
  ∧ length (loss_prediction_vi c) = length (acc_vi c)
  ∧ length (loss_domain_vi c) = length (acc_vi c)
  ∧ (vae = true → length (loss_vae_vi c) = length (acc_vi c)).

Definition curves_ok (vae : bool) (l : Locals) (t : list event) : Prop :=
  acc_vi (train_vi l) = map fst (reported t)
  ∧ acc_vi (test_vi l) = map snd (reported t)
  ∧ even_curves vae (train_vi l)
  ∧ even_curves vae (test_vi l).

Lemma reported_app (l1 l2 : list event) : reported (l1 ++ l2) = reported l1 ++ reported l2.
Proof. apply omap_app. Qed.

Lemma reported_length (t : list event) : length (reported t) = length (report_points t).
Proof.
  unfold reported, report_points. induction t as [|e t IH]; [reflexivity|].
  destruct e as [[]| | | | |]; cbn; now rewrite ?IH.
Qed.

Lemma val_forwards_unmentioned (vfs : list event) :
  forallb val_forward vfs = true → reported vfs = [].
Proof.
  unfold reported. induction vfs as [|e vfs IH]; [reflexivity|]. cbn.
  intros Hv. apply andb_prop in Hv as [He Hv]. rewrite (IH Hv).
  now destruct e as [| [] | | | |].
Qed.

Lemma even_curves_record (vae : bool) (ls : Losses) (a : Q) (c : Curves) :
  even_curves vae c → even_curves vae (record_acc a (record_losses vae ls c)).
Proof.
  intros (Ht & Hp & Hd & Hv). unfold even_curves, record_acc, record_losses.
  cbn [acc_vi loss_vi loss_prediction_vi loss_domain_vi loss_vae_vi].
  rewrite !length_app, Ht, Hp, Hd. repeat split.
  intros ->. rewrite length_app, (Hv eq_refl). reflexivity.
Qed.

Lemma validate_curves (vae : bool) (ep step : nat) (ls : Losses) (l : Locals) (s : state) :
  curves_ok vae l (trace (world s)) →
  match validate vae ep step ls l s with
  | (Ok l', s') => self s' = self s ∧ curves_ok vae l' (trace (world s'))
  | (Raise _, _) => True
  end.
Proof.
  intros (Htr & Hte & Hetr & Hete). rewrite validate_eq.
  destruct (val_loop vae (next_batch_val_data ep step) ([], [], ls) s) as (vfs & Hv & Hs3 & _).
  destruct (foldM _ _ _ s) as [[r|e] s3]; cbn [fst snd] in Hs3; subst s3; [|exact I].
  destruct (Num.averageZ (fst (fst r))) as [taa|]; [|exact I].
  destruct (Num.averageQ (snd (fst r))) as [tla|]; [|exact I].
  destruct (Num.averageQ (loss l)) as [la|]; [|exact I].
  destruct (Num.averageZ (acc l)) as [aa|]; [|exact I].
  cbv zeta.
  set (s4 := with_event (Print (TrainReport ep step la tla aa taa)) (with_events vfs s)).
  assert (Hrep : ∀ q, reported q = [] →
            reported (trace (world s4) ++ q) = reported (trace (world s)) ++ [(aa, taa)]).
  { intros q Hq. unfold s4. cbn [with_event with_events world trace].
    rewrite !reported_app, (val_forwards_unmentioned _ Hv), Hq. cbn.
    now rewrite !app_nil_r. }
  assert (Hok : ∀ q, reported q = [] →
            curves_ok vae
              (mkLocals [] [] (record_acc aa (record_losses vae ls (train_vi l)))
                 (record_acc taa (record_losses vae (snd r) (test_vi l)))
                 (fst (checkpoint (last_test_accuracy l) taa)))
              (trace (world s4) ++ q)).
  { intros q Hq. unfold curves_ok. rewrite (Hrep q Hq), !map_app.
    cbn [train_vi test_vi record_acc record_losses acc_vi map fst snd].
    rewrite Htr, Hte. split; [reflexivity|]. split; [reflexivity|].
    split; now apply even_curves_record. }
  destruct (snd (checkpoint (last_test_accuracy l) taa)).
  - rewrite save_mode_eq. split; [now rewrite saved_self|].
    rewrite saved_trace. now apply Hok.
  - cbn [ret]. split; [reflexivity|]. rewrite <- (app_nil_r (trace (world s4))). now apply Hok.
Qed.

Lemma train_loop_curves (vae : bool) (s : state) :
  is_vae (self s) = vae →
  reported (trace (world s)) = [] →
  match foldM train_epoch (seq 0 (epoch (self s))) init_locals s with
  | (Ok l, s') => curves_ok vae l (trace (world s'))
  | (Raise _, _) => True
  end.
Proof.
  intros Hvae Hnone.
  set (P := λ (l : Locals) (s' : state),
         is_vae (self s') = vae ∧ curves_ok vae l (trace (world s'))).
  assert (Hstep : ∀ ep l sb s1, P l s1 →
     match train_step ep l sb s1 with
     | (Ok l', s') => P l' s'
     | (Raise _, _) => True
     end).
  { intros ep l [step b] s1 [Hv1 Hc1]. rewrite train_step_eq. cbv zeta. rewrite Hv1.
    assert (Hc2 : ∀ a x, curves_ok vae
              (mkLocals a x (train_vi l) (test_vi l) (last_test_accuracy l))
              (trace (world (stepped b s1)))).
    { intros a x. rewrite stepped_trace. unfold curves_ok.
      rewrite reported_app. cbn. rewrite app_nil_r. exact Hc1. }
    destruct (Num.marks _ (labels b)) as [hit|]; [|exact I].
    destruct (step mod 50 =? 0)%nat; [|split; [exact Hv1 | apply Hc2]].
    set (ls := losses_of train_blend vae b (forward (model (self s1)) b)).
    pose proof (validate_curves vae ep step ls
                  (mkLocals (acc l ++ hit) (loss l ++ [loss_total ls])
                     (train_vi l) (test_vi l) (last_test_accuracy l))
                  (stepped b s1) (Hc2 _ _)) as V.
    destruct (validate _ _ _ _ _ (stepped b s1)) as [[l'|] s']; [|exact I].
    destruct V as [Hs V]. split; [|exact V]. now rewrite Hs. }
  assert (Hepoch : ∀ l ep s1, P l s1 →
     match train_epoch l ep s1 with
     | (Ok l', s') => P l' s'
     | (Raise _, _) => True
     end).
  { intros l ep s1 H1. unfold train_epoch.
    apply (foldM_rule (train_step ep) (λ _ l' s', P l' s') (λ _, True)
             (enumerate (train_data_loader ep))); [|exact H1].
    intros pre x post l1 s2 _ H2. apply (Hstep ep l1 x s2 H2). }
  pose proof (foldM_rule train_epoch (λ _ l' s', P l' s') (λ _, True)
                (seq 0 (epoch (self s)))
                (λ pre x post l1 s2 _ H2, Hepoch l1 x s2 H2) init_locals s) as R.
  destruct (foldM train_epoch _ init_locals s) as [[l|] s']; [|exact I].
  apply R. split; [exact Hvae|]. unfold curves_ok. rewrite Hnone.
  now repeat split.
Qed.

(** X18.  What is plotted.  A run of [train] that ends normally ends with the two
    pictures.  Every series of a picture has one point per validation
    report; the accuracy series of the training picture is made of the
    training accuracies of the reports and that of the validation picture
    of their validation accuracies, in the order of the reports. *)
Theorem plots_follow_reports (d : Dan) (files : gmap string file) :
  train_result d files = Ok tt →
  ∃ t l,
    train_trace d files = t ++ plots d l
    ∧ acc_vi (train_vi l) = map fst (reported (train_trace d files))
    ∧ acc_vi (test_vi l) = map snd (reported (train_trace d files))
    ∧ Forall (λ c, length (snd c) = length (val_points d)) (curves_of (is_vae d) (train_vi l))
    ∧ Forall (λ c, length (snd c) = length (val_points d)) (curves_of (is_vae d) (test_vi l)).
Proof.
  intros Hok. destruct (train_log d files) as [_ Hlog]. destruct (Hlog Hok) as (Hrp & _ & _).
  revert Hok Hrp. unfold train_result, train_trace. rewrite train_run_eq.
  pose proof (train_loop_curves (is_vae d) (mkState d (mkWorld files [])) eq_refl eq_refl) as C.
  cbn [self] in *.
  destruct (foldM train_epoch _ init_locals _) as [[l|] s']; [|discriminate].
  intros _ Hrp. cbn [fst snd with_events world trace] in *.
  destruct C as (Htr & Hte & Hetr & Hete).
  assert (Hrep : reported (trace (world s') ++ plots d l) = reported (trace (world s'))).
  { rewrite reported_app. cbn. now rewrite app_nil_r. }
  assert (Hlen : length (acc_vi (train_vi l)) = length (val_points d)
                 ∧ length (acc_vi (test_vi l)) = length (val_points d)).
  { rewrite Htr, Hte, !length_map, <- Hrep, reported_length, Hrp. now split. }
  assert (Hall : ∀ c, even_curves (is_vae d) c → length (acc_vi c) = length (val_points d) →
            Forall (λ c, length (snd c) = length (val_points d)) (curves_of (is_vae d) c)).
  { intros c (Ht & Hp & Hd & Hv) Ha. unfold curves_of.
    destruct (is_vae d); repeat constructor; cbn; rewrite ?(Hv eq_refl); congruence. }
  exists (trace (world s')), l. rewrite Hrep.
  split; [reflexivity|]. split; [exact Htr|]. split; [exact Hte|].
  split; apply Hall; tauto.
Qed.

End TrainCurves.
(** ** The attention run *)

Section AttentionRun.

Context `{Collaborators}.

(** What [np.save] was called on, in order. *)
Definition np_saves (t : list event) : list (string * Slice) :=
  omap (λ e, match e with NpSave p data => Some (p, data) | _ => None end) t.

(** The marks of a batch of the attention loader, and what [test_attention]
    collects over the whole loader. *)
Definition att_hits (net : Net) (b : Batch) : list Z :=
  match Num.marks (argmax1 (forward_att net b)) (labels b) with
  | Ok h => h
  | Raise _ => []
  end.

Definition att_marks (net : Net) (bs : list Batch) : list Z :=
  concat (map (att_hits net) bs).

Definition att_losses (net : Net) (bs : list Batch) : list Q :=
  map (λ b, loss_func (forward_att net b) (labels b)) bs.

(** The slices saved over the whole loader: those of the samples that were
    predicted right, batch after batch. *)
Definition att_saved (attention : Net → Batch → list Slice) (net : Net) (bs : list Batch)
    : list (string * Slice) :=
  concat (map (λ b, saved_slices (attention net b) (ids b) (att_hits net b) default_save_dir)
              bs).

Lemma np_saves_app (l1 l2 : list event) : np_saves (l1 ++ l2) = np_saves l1 ++ np_saves l2.
Proof. apply omap_app. Qed.

Lemma np_saved_self (l : list (string * Slice)) (s : state) : self (np_saved l s) = self s.
Proof.
  unfold np_saved. revert s. induction l as [|pd l IH]; intros s; [reflexivity|].
  cbn [fold_left]. now rewrite IH.
Qed.

Lemma np_saved_saves (l : list (string * Slice)) (s : state) :
  np_saves (trace (world (np_saved l s))) = np_saves (trace (world s)) ++ l.
Proof.
  unfold np_saved. revert s. induction l as [|[p data] l IH]; intros s.
  - cbn. now rewrite app_nil_r.
  - cbn [fold_left]. rewrite IH. cbn [with_event with_file world trace fst snd].
    rewrite np_saves_app. cbn. now rewrite <- app_assoc.
Qed.

Lemma dir_ready_self (save_dir : string) (s : state) : self (dir_ready save_dir s) = self s.
Proof. unfold dir_ready. now destruct (bool_decide _). Qed.

Lemma dir_ready_saves (save_dir : string) (s : state) :
  np_saves (trace (world (dir_ready save_dir s))) = np_saves (trace (world s)).
Proof.
  unfold dir_ready. destruct (bool_decide _); [reflexivity|].
  cbn [with_event with_file world trace]. rewrite np_saves_app. cbn. apply app_nil_r.
Qed.

Section OneSlicePerSample.

Variable attention : Net → Batch → list Slice.

(** The attention tensor has no more slices than the batch has labels and
    identifiers. *)
Hypothesis attention_labels : ∀ net b, (length (attention net b) ≤ length (labels b))%nat.
Hypothesis attention_ids : ∀ net b, (length (attention net b) ≤ length (ids b))%nat.

Lemma attention_batch_eq (acc_ : list Z) (loss_ : list Q) (b : Batch) (s : state) :
  attention_batch attention (acc_, loss_) b s =
  let net := model (self s) in
  match Num.marks (argmax1 (forward_att net b)) (labels b) with
  | Raise e => (Raise e, s)
  | Ok tmp =>
      (Ok (acc_ ++ tmp, loss_ ++ [loss_func (forward_att net b) (labels b)]),
       with_event (Print (Line "All files has been saved!"))
         (np_saved (saved_slices (attention net b) (ids b) tmp default_save_dir)
            (dir_ready default_save_dir s)))
  end.
Proof.
  unfold attention_batch. rewrite bind_gets. cbv zeta.
  destruct (Num.marks _ (labels b)) as [tmp|e] eqn:Em; [|reflexivity].
  rewrite bind_lift_ok.
  rewrite (bind_ok _ _ _ _ _
    (save_attention_matrix_saves (attention (model (self s)) b) (ids b) tmp
       default_save_dir s eq_refl
       ltac:(rewrite (marks_from_length _ _ _ _ Em); apply attention_labels)
       (λ i Hi _, Nat.lt_le_trans _ _ _ Hi (attention_ids _ _)))).
  reflexivity.
Qed.

Lemma attention_loop (bs : list Batch) (acc_ : list Z) (loss_ : list Q) (s : state) :
  self (snd (foldM (attention_batch attention) bs (acc_, loss_) s)) = self s
  ∧ match fst (foldM (attention_batch attention) bs (acc_, loss_) s) with
    | Ok l =>
        fst l = acc_ ++ att_marks (model (self s)) bs
        ∧ snd l = loss_ ++ att_losses (model (self s)) bs
        ∧ np_saves (trace (world (snd (foldM (attention_batch attention) bs (acc_, loss_) s))))
          = np_saves (trace (world s)) ++ att_saved attention (model (self s)) bs
    | Raise _ => True
    end.
Proof.
  revert acc_ loss_ s. induction bs as [|b bs IH]; intros acc_ loss_ s.
  - cbn. rewrite !app_nil_r. now repeat split.
  - cbn [foldM]. unfold bind. rewrite attention_batch_eq. cbv zeta.
    unfold att_marks, att_losses, att_saved, att_hits. cbn [map concat].
    destruct (Num.marks _ (labels b)) as [tmp|e]; [|now split].
    set (s1 := with_event (Print (Line "All files has been saved!"))
                 (np_saved (saved_slices (attention (model (self s)) b) (ids b) tmp
                              default_save_dir)
                    (dir_ready default_save_dir s))).
    assert (Hself : self s1 = self s).
    { unfold s1. cbn [with_event self]. now rewrite np_saved_self, dir_ready_self. }
    assert (Hsaves : np_saves (trace (world s1)) =
                     np_saves (trace (world s))
                     ++ saved_slices (attention (model (self s)) b) (ids b) tmp default_save_dir).
    { unfold s1. cbn [with_event world trace]. rewrite np_saves_app. cbn.
      now rewrite app_nil_r, np_saved_saves, dir_ready_saves. }
    destruct (IH (acc_ ++ tmp) (loss_ ++ [loss_func (forward_att (model (self s)) b) (labels b)])
                 s1) as [Hs Hr].
    split; [now rewrite Hs|].
    destruct (fst (foldM _ bs _ s1)) as [l|]; [|exact I].
    destruct Hr as (Ha & Hl & Hn). rewrite Hself in Ha, Hl, Hn.
    unfold att_marks, att_losses, att_saved, att_hits in Ha, Hl, Hn.
    rewrite Ha, Hl, Hn, Hsaves, <- !app_assoc. now repeat split.
Qed.

(** X19.  What [test_attention] reports and saves.  With an attention tensor that
    has no more slices than the batch has labels and identifiers, a run that
    ends normally ends by printing one line: as data size the number of
    samples of the attention loader, the average of the losses of the
    batches, and the average of the marks of all the samples.  [np.save] was
    called, in order, on the slices of the samples that were predicted
    right, each under its identifier, and on nothing else.  The object is
    as [load_model] left it. *)
Theorem test_attention_reports (s s' : state) :
  test_attention attention s = (Ok tt, s') →
  ∃ s0 t loss_avg accuracy_avg,
    load_model default_model_path s = (Ok tt, s0)
    ∧ Num.averageQ (att_losses (model (self s0)) att_data_loader) = Ok loss_avg
    ∧ Num.averageZ (att_marks (model (self s0)) att_data_loader) = Ok accuracy_avg
    ∧ trace (world s') =
        t ++ [Print (AttSummary (encoder_name (self s))
                       (length (att_marks (model (self s0)) att_data_loader))
                       loss_avg accuracy_avg)]
    ∧ np_saves (trace (world s')) =
        np_saves (trace (world s)) ++ att_saved attention (model (self s0)) att_data_loader
    ∧ self s' = self s0.
Proof.
  intros E. unfold test_attention in E.
  destruct (load_model default_model_path s) as [[[]|e] s0] eqn:L;
    [rewrite (bind_ok _ _ _ _ _ L) in E | rewrite (bind_raise _ _ _ _ _ L) in E; discriminate].
  destruct (attention_loop att_data_loader [] [] s0) as [Hself Hr].
  destruct (foldM (attention_batch attention) att_data_loader ([], []) s0)
    as [[[acc_ loss_]|e] s1] eqn:F;
    [rewrite (bind_ok _ _ _ _ _ F) in E | rewrite (bind_raise _ _ _ _ _ F) in E; discriminate].
  cbn [fst snd app] in Hself, Hr, E. destruct Hr as (-> & -> & Hn).
  destruct (Num.averageQ (att_losses _ _)) as [loss_avg|] eqn:El;
    [rewrite bind_lift_ok in E | rewrite bind_lift_raise in E; discriminate].
  destruct (Num.averageZ (att_marks _ _)) as [accuracy_avg|] eqn:Ea;
    [rewrite bind_lift_ok in E | rewrite bind_lift_raise in E; discriminate].
  rewrite bind_gets in E. unfold print, emit, modify in E. injection E as <-.
  destruct (load_model_keeps _ _ L) as (_ & He & _).
  pose proof (load_model_cases s) as C.
  assert (Ht0 : np_saves (trace (world s0)) = np_saves (trace (world s))).
  { destruct (fs (world s) !! checkpoint_path (self s)) as [[]|];
      try (rewrite C in L; discriminate); destruct C as [C _]; rewrite C in L;
      injection L as <-; cbn [not_exist loaded with_event with_model world trace];
      rewrite np_saves_app; cbn; apply app_nil_r. }
  exists s0, (trace (world s1)), loss_avg, accuracy_avg.
  split; [reflexivity|]. split; [exact El|]. split; [exact Ea|].
  cbn [with_event world trace self]. rewrite Hself, He.
  split; [reflexivity|]. split; [|reflexivity].
  rewrite np_saves_app, Hn, Ht0. cbn. now rewrite app_nil_r.
Qed.

End OneSlicePerSample.

End AttentionRun.
(** * The further properties on the small instance *)

Module Cases.

Import Demo.

Local Open Scope Q_scope.

(** A first line in a world without files, where [../log] is made. *)
Lemma log_write_appends_witness :
  (fs (world (start 1)) !! "../log" = None ∨ fs (world (start 1)) !! "../log" = Some Dir)
  ∧ fs (world (start 1)) !! default_log_path ≠ Some Dir
  ∧ ∃ s', log_write (Line "a") default_log_path (start 1) = (Ok tt, s')
          ∧ log_lines default_log_path s' = [(Line "a", time_stamp)]
          ∧ fs (world s') !! "../log" = Some Dir.
Proof.
  assert (Hd : fs (world (start 1)) !! "../log" = None
               ∨ fs (world (start 1)) !! "../log" = Some Dir) by (left; apply lookup_empty).
  assert (Hl : fs (world (start 1)) !! default_log_path ≠ Some Dir)
    by (cbn; rewrite lookup_empty; discriminate).
  split; [exact Hd|]. split; [exact Hl|].
  destruct (proj1 (log_write_appends (Line "a") (start 1)) Hd Hl)
    as (s' & E & Hlines & _ & _ & Hdir & _).
  exists s'. split; [exact E|]. split; [exact Hlines | exact Hdir].
Defined.

Lemma save_mode_frame_witness :
  save_mode default_save_path (start 1) = (Ok tt, snd (save_mode default_save_path (start 1)))
  ∧ fs (world (snd (save_mode default_save_path (start 1)))) !! checkpoint_path (dan 1)
    = Some (Pickle 0%nat)
  ∧ fs (world (snd (save_mode default_save_path (start 1)))) !! default_log_path = None.
Proof.
  assert (E : save_mode default_save_path (start 1)
              = (Ok tt, snd (save_mode default_save_path (start 1)))) by reflexivity.
  split; [exact E|].
  destruct (save_mode_frame (start 1) _ E) as (_ & _ & Hfile & Hframe).
  split; [exact Hfile|].
  rewrite (Hframe default_log_path) by discriminate. apply lookup_empty.
Defined.

Lemma save_mode_writes_where_load_model_reads_witness :
  save_mode default_save_path (start 1) = (Ok tt, snd (save_mode default_save_path (start 1)))
  ∧ same_names (dan 5) (self (start 1))
  ∧ fs (world (snd (save_mode default_save_path (start 1))))
      !! "../save_model/DAN_encoder_cnn_lstm_BDP.pkl" = Some (Pickle 0%nat)
  ∧ fst (load_model default_model_path
           (mkState (dan 5) (world (snd (save_mode default_save_path (start 1)))))) = Ok tt.
Proof.
  assert (E : save_mode default_save_path (start 1)
              = (Ok tt, snd (save_mode default_save_path (start 1)))) by reflexivity.
  assert (Hn : same_names (dan 5) (self (start 1))) by now repeat split.
  split; [exact E|]. split; [exact Hn|].
  destruct (save_mode_writes_where_load_model_reads (start 1) _ E)
    as (_ & _ & _ & Hfile & _ & Hload).
  split; [exact Hfile|].
  destruct (Hload (dan 5) Hn) as (_ & _ & L). now rewrite L.
Defined.

Lemma log_write_bare_name_witness :
  bare "log.txt" = true
  ∧ fs (world (start 1)) !! "" = None
  ∧ log_write (Line "a") "log.txt" (start 1) = (Raise FileNotFoundError, start 1).
Proof.
  split; [reflexivity|]. split; [apply lookup_empty|].
  exact (log_write_bare_name (Line "a") "log.txt" (start 1) eq_refl (lookup_empty _)).
Defined.


Lemma init_without_checkpoint_witness :
  fs (mkWorld ∅ []) !! checkpoint_path (dan 3) = None
  ∧ fst (__init__ 0%nat "BDP" 3 16 (-1) "cnn" "lstm" true (mkWorld ∅ [])) = Ok tt.
Proof.
  assert (Hfs : fs (mkWorld ∅ []) !! checkpoint_path (dan 3) = None) by apply lookup_empty.
  split; [exact Hfs|].
  now rewrite (@init_without_checkpoint carriers collaborators 0%nat "BDP" 3 16 (-1)
                 "cnn" "lstm" (mkWorld ∅ []) Hfs).
Defined.

(** Three predictions, one label: the first sample is marked, the second
    raises. *)
Lemma segment_statistic_short_witness :
  result (self (Examples.tested [])) = Some []
  ∧ ((length [1]%Z < length [1; 0; 1]%Z)%nat
     ∨ (length [700; 1200; 100]%Z < length [1; 0; 1]%Z)%nat)
  ∧ ∃ d', segment_statistic [1; 0; 1]%Z [1]%Z [700; 1200; 100]%Z (Examples.tested [])
          = (Raise IndexError, with_result d' (Examples.tested []))
          ∧ bucket 1 d' = [1%Z] ∧ bucket 2 d' = [].
Proof.
  assert (Hs : (length [1]%Z < length [1; 0; 1]%Z)%nat
               ∨ (length [700; 1200; 100]%Z < length [1; 0; 1]%Z)%nat) by (left; cbn; lia).
  split; [reflexivity|]. split; [exact Hs|].
  destruct (segment_statistic_short [1; 0; 1]%Z [1]%Z [700; 1200; 100]%Z []
              (Examples.tested []) eq_refl Hs) as (d' & E & Hd').
  exists d'. split; [exact E|]. split; [exact (Hd' 1%Z) | exact (Hd' 2%Z)].
Defined.

Lemma test_logs_summary_witness :
  test true (start 1) = (Ok tt, snd (test true (start 1)))
  ∧ ∃ loss_avg r,
      log_lines default_log_path (snd (test true (start 1)))
      = [(summary (dan 1) 4 loss_avg r, time_stamp)].
Proof.
  assert (E : test true (start 1) = (Ok tt, snd (test true (start 1))))
    by (vm_compute; reflexivity).
  split; [exact E|].
  destruct (test_logs_summary true (start 1) _ E) as (s0 & loss_avg & r & _ & _ & _ & Hl).
  exists loss_avg, r. exact Hl.
Defined.

Lemma test_fills_buckets_witness :
  test false (start 1) = (Ok tt, snd (test false (start 1)))
  ∧ ∃ d', result (self (snd (test false (start 1)))) = Some d'
          ∧ bucket 1 d' = [1; 1]%Z ∧ bucket 2 d' = [1; 0]%Z.
Proof.
  assert (E : test false (start 1) = (Ok tt, snd (test false (start 1))))
    by (vm_compute; reflexivity).
  split; [exact E|].
  destruct (test_fills_buckets false (start 1) _ E) as (s0 & d' & L & Hr & Hk).
  exists d'. split; [exact Hr|].
  assert (L0 : load_model default_model_path (start 1) = (Ok tt, not_exist (start 1)))
    by reflexivity.
  rewrite L0 in L. injection L as <-.
  split; [exact (Hk 1%Z) | exact (Hk 2%Z)].
Defined.

Lemma test_recoding_rows_witness :
  test true (start 1) = (Ok tt, snd (test true (start 1)))
  ∧ fs (world (snd (test true (start 1)))) !! prediction_csv
    = Some (Csv [("a", 1, 1); ("b", 0, 0); ("c", 1, 1); ("d", 0, 1)]%Z).
Proof.
  assert (E : test true (start 1) = (Ok tt, snd (test true (start 1))))
    by (vm_compute; reflexivity).
  split; [exact E|].
  destruct (test_recoding_rows true (start 1) _ E) as (s0 & L & Hrows & _).
  assert (L0 : load_model default_model_path (start 1) = (Ok tt, not_exist (start 1)))
    by reflexivity.
  rewrite L0 in L. injection L as <-. exact Hrows.
Defined.

Lemma train_updates_once_per_batch_witness :
  train_result (dan 2) ∅ = Ok tt
  ∧ model (self (snd (train (start 2)))) = trained false 0%nat [half; half].
Proof.
  assert (E : train_result (dan 2) ∅ = Ok tt) by (vm_compute; reflexivity).
  split; [exact E|].
  exact (proj2 (proj2 (train_updates_once_per_batch (dan 2) ∅)) E).
Defined.

(** Two epochs: the second save is the last one, and the file holds the
    network after the two training passes. *)
Lemma checkpoint_holds_last_save_witness :
  ∃ t1 t2,
    train_trace (dan 2) ∅ = t1 ++ TorchSave (checkpoint_path (dan 2)) 2%nat :: t2
    ∧ unsaved t2
    ∧ train_batches t1 = [half; half]
    ∧ fs (world (snd (train (start 2)))) !! checkpoint_path (dan 2) = Some (Pickle 2%nat).
Proof.
  exists (take 10 (train_trace (dan 2) ∅)), (drop 11 (train_trace (dan 2) ∅)).
  assert (E : train_trace (dan 2) ∅ =
              take 10 (train_trace (dan 2) ∅)
              ++ TorchSave (checkpoint_path (dan 2)) 2%nat :: drop 11 (train_trace (dan 2) ∅))
    by (vm_compute; reflexivity).
  assert (Hu : unsaved (drop 11 (train_trace (dan 2) ∅))) by (vm_compute; reflexivity).
  split; [exact E|]. split; [exact Hu|]. split; [vm_compute; reflexivity|].
  exact (proj2 (proj2 (checkpoint_holds_last_save (dan 2) ∅ _ _ _ _ E Hu))).
Defined.

Lemma first_and_perfect_validations_save_witness :
  ∃ b, decisions (train_trace (dan 2) ∅) !! 0%nat = Some (2 # 2, b)
       ∧ (0%nat = 0%nat ∨ 2 # 2 == 1)
       ∧ b = true.
Proof.
  exists true.
  assert (E : decisions (train_trace (dan 2) ∅) !! 0%nat = Some (2 # 2, true))
    by (vm_compute; reflexivity).
  split; [exact E|]. split; [now left|].
  exact (first_and_perfect_validations_save (dan 2) ∅ 0 (2 # 2) true E (or_introl eq_refl)).
Defined.

Lemma train_leaves_checkpoint_witness :
  train_result (dan 2) ∅ = Ok tt
  ∧ val_points (dan 2) ≠ []
  ∧ ∃ sd, fs (world (snd (train (start 2)))) !! checkpoint_path (dan 2) = Some (Pickle sd).
Proof.
  assert (E : train_result (dan 2) ∅ = Ok tt) by (vm_compute; reflexivity).
  assert (Hp : val_points (dan 2) ≠ []) by (vm_compute; discriminate).
  split; [exact E|]. split; [exact Hp|].
  destruct (train_leaves_checkpoint (dan 2) ∅ E Hp) as (sd & Hfs & _).
  exists sd. exact Hfs.
Defined.

Lemma prediction_real_data_exception_witness :
  single_file_loader "f.edf" "seizure" 15 "cfg.json" (patient (self (start 1)))
  = Ok [([1; 0]%Z, ["0"; "2"])]
  ∧ prediction_real_data "f.edf" "seizure" "out.csv" 15 "cfg.json" (start 1)
    = (Raise KeyError, start 1).
Proof.
  split; [reflexivity|].
  exact (prediction_real_data_exception "f.edf" "seizure" "out.csv" 15 "cfg.json"
           [([1; 0]%Z, ["0"; "2"])] (start 1) eq_refl).
Defined.

Lemma plots_follow_reports_witness :
  train_result (dan 2) ∅ = Ok tt
  ∧ ∃ t l, train_trace (dan 2) ∅ = t ++ plots (dan 2) l
           ∧ acc_vi (train_vi l) = map fst (reported (train_trace (dan 2) ∅))
           ∧ acc_vi (test_vi l) = map snd (reported (train_trace (dan 2) ∅)).
Proof.
  assert (E : train_result (dan 2) ∅ = Ok tt) by (vm_compute; reflexivity).
  split; [exact E|].
  destruct (plots_follow_reports (dan 2) ∅ E) as (t & l & Ht & Ha & Hb & _).
  exists t, l. now repeat split.
Defined.

(** One batch of two samples, the first predicted right: its slice is the
    one that is saved. *)
Lemma test_attention_reports_witness :
  let attention := λ (_ : Net) (b : Batch), take (length (ids b)) (map (λ _, 5%Z) (labels b)) in
  test_attention attention (start 1) = (Ok tt, snd (test_attention attention (start 1)))
  ∧ np_saves (trace (world (snd (test_attention attention (start 1)))))
    = [("../log/attention/c.npy", 5%Z)].
Proof.
  intros attention.
  assert (E : test_attention attention (start 1)
              = (Ok tt, snd (test_attention attention (start 1))))
    by (vm_compute; reflexivity).
  split; [exact E|].
  destruct (test_attention_reports attention
              (λ net b, ltac:(unfold attention; rewrite length_take, length_map; lia))
              (λ net b, ltac:(unfold attention; rewrite length_take, length_map; lia))
              (start 1) _ E) as (s0 & t & la & aa & L & _ & _ & _ & Hn & _).
  assert (L0 : load_model default_model_path (start 1) = (Ok tt, not_exist (start 1)))
    by reflexivity.
  rewrite L0 in L. injection L as <-. exact Hn.
Defined.

End Cases.

(** * Loaders that yield nothing

    The small instance again, but with no batch for validation, for the test
    and for the attention, and no segment in the file. *)

Module Idle.

Import Demo.

Definition idle : @Collaborators carriers := {|
  state_dict := λ n, n;
  load_state_dict := λ _ sd, sd;
  forward := λ _ b, mkFwd (d_pred b, d_loss b) 1%Q 2%Q;
  forward_test := λ _ b, (d_pred b, d_loss b);
  forward_att := λ _ b, (d_pred b, d_loss b);
  forward_real := λ _ rb _, (fst rb, 0%Q);
  loss_func := λ lg _, snd lg;
  loss_func_domain := λ x, x;
  argmax1 := λ lg, fst lg;
  softmax1 := λ lg, map inject_Z (fst lg);
  optimizer_step := λ n _ _, S n;
  labels := d_label;
  lengths := d_len;
  ids := d_ids;
  times := snd;
  train_data_loader := λ _, [half];
  next_batch_val_data := λ _ _, [];
  test_data_loader := [];
  att_data_loader := [];
  single_file_loader := λ _ _ _ _ _, Ok [];
  np_mean := mean;
  np_std := λ _, 0%Q;
  get_accuracy := λ _ _, Ok (3 # 4);
  get_precision := λ _ _, Ok (2 # 3);
  get_recall := λ _ _, Ok 1%Q;
  get_f1score := λ _ _, Ok (4 # 5);
  get_auc := λ _ _ _ _, Ok (7 # 8);
  time_stamp := "2020-01-01 00:00:00"
|}.

#[local] Existing Instance idle.

Lemma empty_loader_zero_division_witness :
  load_model default_model_path (start 1) = (Ok tt, not_exist (start 1))
  ∧ test_data_loader = []
  ∧ att_data_loader = []
  ∧ test true (start 1) = (Raise ZeroDivisionError, with_result [] (not_exist (start 1)))
  ∧ test_attention (λ _ _, []) (start 1) = (Raise ZeroDivisionError, not_exist (start 1)).
Proof.
  assert (L : load_model default_model_path (start 1) = (Ok tt, not_exist (start 1)))
    by reflexivity.
  split; [exact L|]. split; [reflexivity|]. split; [reflexivity|].
  destruct (empty_loader_zero_division (start 1) (not_exist (start 1)) L) as [Ht Ha].
  split; [exact (Ht eq_refl true) | exact (Ha eq_refl (λ _ _, []))].
Defined.

Lemma train_without_validation_data_witness :
  epoch (dan 2) = 2%nat
  ∧ train_data_loader 0 = [half]
  ∧ next_batch_val_data 0 0 = []
  ∧ train (start 2) = (Raise ZeroDivisionError, stepped half (start 2)).
Proof.
  split; [reflexivity|]. split; [reflexivity|]. split; [reflexivity|].
  exact (train_without_validation_data (dan 2) ∅ 1 half [] [1; 0]%Z
           eq_refl eq_refl eq_refl eq_refl).
Defined.

(** No segment in the file: the average of no prediction. *)
Example no_segment_zero_division :
  prediction_real_data "f.edf" "pre_seizure" "out.csv" 15 "cfg.json" (start 1)
  = (Raise ZeroDivisionError, start 1).
Proof. reflexivity. Qed.

End Idle.
